(** * Prediction-market data pipeline: fetch, filter, normalise, store, monitor

    A shallow embedding of [src/data/data_fetcher.py], [src/data/monitor.py],
    the [Market] table of [src/models/database.py] and the market functions
    of [src/models/crud.py], followed by the properties established about
    them.

    Conventions.
    - Python values coming out of [response.json()] are the inductive [pyval];
      a [dict] is a finite map from strings.
    - An operation that raises is a function into [option]: [None] is the
      raised exception, and each [try ... except] of the source is the
      [match] that consumes it.
    - Text is a string of 8-bit characters and [lower] folds [A-Z] only.
    - A Python [float] is the rational it denotes ([Q]); the pipeline only
      converts and stores such values.  The one place that computes with
      floats, the success rate of the monitor, uses binary64 arithmetic. *)

From Stdlib Require Import Strings.Ascii Strings.String ZArith QArith Lia.
From stdpp Require Import gmap strings list.
From Stdlib Require Import Floats.PrimFloat Floats.FloatOps Floats.SpecFloat.
From Stdlib Require Import DecimalString.

Set Warnings "-register-all".
#[local] Open Scope Z_scope.

(** ** Python values *)

Module Py.

Inductive pyval : Type :=
| PNone
| PBool (b : bool)
| PInt (z : Z)
| PFloat (q : Q)
| PStr (s : string)
| PList (l : list pyval)
| PDict (d : gmap string pyval).

(** [bool(v)]: the truth value Python gives [v] in [if v] and [not v]. *)
Definition py_truthy (v : pyval) : bool :=
  match v with
  | PNone => false
  | PBool b => b
  | PInt z => negb (z =? 0)
  | PFloat q => negb (Qnum q =? 0)
  | PStr s => negb (bool_decide (s = ""%string))
  | PList l => negb (Nat.eqb (length l) 0)
  | PDict d => negb (Nat.eqb (size d) 0)
  end.

(** [len(v)]; [None] is the [TypeError] of an object without length. *)
Definition py_len (v : pyval) : option nat :=
  match v with
  | PStr s => Some (String.length s)
  | PList l => Some (length l)
  | PDict d => Some (size d)
  | _ => None
  end.

(** [v[i]] for a literal index [i]: [IndexError] past the end of a list or a
    string, [KeyError] on a JSON object (its keys are strings), [TypeError]
    on everything else. *)
Definition py_index (v : pyval) (i : nat) : option pyval :=
  match v with
  | PList l => l !! i
  | PStr s => (λ c, PStr (String c EmptyString)) <$> Strings.String.get i s
  | _ => None
  end.

(** [isinstance(v, str)] *)
Definition is_str (v : pyval) : bool :=
  match v with PStr _ => true | _ => false end.

(** [str.lower] on ASCII text. *)
Definition lower_ascii (c : ascii) : ascii :=
  let n := N_of_ascii c in
  if ((65 <=? n) && (n <=? 90))%N then ascii_of_N (n + 32) else c.

Fixpoint lower (s : string) : string :=
  match s with
  | EmptyString => EmptyString
  | String c s' => String (lower_ascii c) (lower s')
  end.

Fixpoint starts_with (sub s : string) : bool :=
  match sub, s with
  | EmptyString, _ => true
  | String _ _, EmptyString => false
  | String a sub', String b s' => bool_decide (a = b) && starts_with sub' s'
  end.

(** [sub in s] on strings. *)
Fixpoint contains (sub s : string) : bool :=
  starts_with sub s ||
  match s with
  | EmptyString => false
  | String _ s' => contains sub s'
  end.

(** [c.isspace()] on ASCII: tab to carriage return, the four separators
    from 28 to 31, and the space. *)
Definition py_isspace (c : ascii) : bool :=
  let n := N_of_ascii c in
  (((9 <=? n) && (n <=? 13)) || ((28 <=? n) && (n <=? 32)))%N.

Fixpoint py_lstrip (s : string) : string :=
  match s with
  | EmptyString => EmptyString
  | String c s' => if py_isspace c then py_lstrip s' else s
  end.

Fixpoint py_rstrip (s : string) : string :=
  match s with
  | EmptyString => EmptyString
  | String c s' =>
      match py_rstrip s' with
      | EmptyString => if py_isspace c then EmptyString else String c EmptyString
      | kept => String c kept
      end
  end.

(** [s.strip()] *)
Definition py_strip (s : string) : string := py_lstrip (py_rstrip s).

(** [l[start:]]: a negative [start] counts from the end, and either way it
    is clipped to the list. *)
Definition py_slice_from {A} (start : Z) (l : list A) : list A :=
  let n := Z.of_nat (length l) in
  let first := if start <? 0 then Z.max (n + start) 0 else Z.min start n in
  drop (Z.to_nat first) l.

Section Conversions.
(** [float(s)] on a string is Python's own parser; the embedding takes it
    as given. [None] is [ValueError]. *)
Variable float_of_str : string → option Q.

(** [float(v)]; [None] is [TypeError] or [ValueError]. *)
Definition py_float (v : pyval) : option Q :=
  match v with
  | PInt z => Some (inject_Z z)
  | PFloat q => Some q
  | PBool b => Some (inject_Z (if b then 1 else 0))
  | PStr s => float_of_str s
  | PNone | PList _ | PDict _ => None
  end.
End Conversions.

End Py.
Export Py.

Abbreviation pydict := (gmap string pyval).

(** ** [PolymarketFetcher]: fetch, filter, normalise *)

Definition MAX_RETRIES : nat := 3.

Definition CRYPTO_KEYWORDS : list string :=
  [ "bitcoin"; "btc"; "ethereum"; "eth"; "crypto";
    "solana"; "sol"; "dogecoin"; "doge"; "xrp"; "ripple";
    "cardano"; "ada"; "polygon"; "matic"; "arbitrum" ]%string.

(** What one [requests.get] followed by [raise_for_status] and
    [response.json()] comes to.  [ConnectTimeout] derives from both
    [ConnectionError] and [Timeout] and is caught by the first handler, so
    it is a [ConnectionError] here. *)
Inductive attempt_result : Type :=
| Response (body : pyval)
| ConnectionError
| Timeout
| OtherError.

(** What the caller can observe of a fetch besides its result. *)
Inductive event : Type :=
| Requested (attempt : nat)
| Slept (seconds : Z).

(** The body of [for attempt in range(MAX_RETRIES)]; [net attempt] is what
    the network answers to that attempt. *)
Fixpoint fetch_loop (net : nat → attempt_result) (attempts : list nat)
  : pyval * list event :=
  match attempts with
  | [] => (PList [], [])
  | attempt :: rest =>
      match net attempt with
      | Response markets =>
          (* [len(markets)] in the log line raises on a body without length,
             which the last handler turns into []. *)
          match py_len markets with
          | Some _ => (markets, [Requested attempt])
          | None => (PList [], [Requested attempt])
          end
      | ConnectionError =>
          if bool_decide (attempt < MAX_RETRIES - 1)%nat
          then let '(markets, events) := fetch_loop net rest in
               (markets,
                Requested attempt :: Slept (2 ^ Z.of_nat attempt) :: events)
          else (PList [], [Requested attempt])
      | Timeout =>
          if bool_decide (attempt < MAX_RETRIES - 1)%nat
          then let '(markets, events) := fetch_loop net rest in
               (markets,
                Requested attempt :: Slept (2 ^ Z.of_nat attempt) :: events)
          else (PList [], [Requested attempt])
      | OtherError => (PList [], [Requested attempt])
      end
  end.

Definition fetch_markets (net : nat → attempt_result) : pyval * list event :=
  fetch_loop net (seq 0 MAX_RETRIES).

(** [market.get('question', '').lower()]; [None] is the [AttributeError] of
    a market without [get] or of a question without [lower]. *)
Definition question_lower (market : pyval) : option string :=
  match market with
  | PDict d =>
      match default (PStr "") (d !! "question"%string) with
      | PStr question => Some (lower question)
      | _ => None
      end
  | _ => None
  end.

(** [any(keyword in question for keyword in self.CRYPTO_KEYWORDS)] *)
Definition any_keyword (question : string) : bool :=
  existsb (λ keyword, contains keyword question) CRYPTO_KEYWORDS.

Fixpoint filter_loop (markets crypto_markets : list pyval)
  : option (list pyval) :=
  match markets with
  | [] => Some crypto_markets
  | market :: rest =>
      question ← question_lower market;
      filter_loop rest
        (if any_keyword question then crypto_markets ++ [market]
         else crypto_markets)
  end.

Definition filter_crypto_markets (markets : list pyval)
  : option (list pyval) :=
  filter_loop markets [].

Section Normaliser.
(** [json.loads] and [float] on strings belong to Python, not to the
    repository. [None] is the exception either raises. *)
Variable json_loads : string → option pyval.
Variable float_of_str : string → option Q.

(** Lines 112-117: the outcome prices, decoded when they arrive as text. *)
Definition outcome_prices_of (market : pydict) : pyval :=
  let outcome_prices := default (PList []) (market !! "outcomePrices"%string) in
  match outcome_prices with
  | PStr s => default (PList []) (json_loads s)
  | _ => outcome_prices
  end.

(** [float(outcome_prices[i]) if outcome_prices and len(outcome_prices) > i
    else None] *)
Definition price_at (outcome_prices : pyval) (i : nat) : option pyval :=
  if py_truthy outcome_prices then
    n ← py_len outcome_prices;
    if bool_decide (i < n)%nat then
      x ← py_index outcome_prices i;
      q ← py_float float_of_str x;
      Some (PFloat q)
    else Some PNone
  else Some PNone.

(** [float(market.get(key, 0)) if market.get(key) else 0] *)
Definition volume_of (market : pydict) (key : string) : option pyval :=
  if py_truthy (default PNone (market !! key)) then
    q ← py_float float_of_str (default (PInt 0) (market !! key));
    Some (PFloat q)
  else Some (PInt 0).

(** The [try] body of [extract_market_data]. *)
Definition extract_body (market : pydict) : option pydict :=
  let outcome_prices := outcome_prices_of market in
  yes_price ← price_at outcome_prices 0;
  no_price ← price_at outcome_prices 1;
  volume_24h ← volume_of market "volume24h";
  volume ← volume_of market "volume";
  Some (<["market_id" := default PNone (market !! "id"%string)]> $
        <["question" := default (PStr "Unknown") (market !! "question"%string)]> $
        <["description" := default PNone (market !! "description"%string)]> $
        <["yes_price" := yes_price]> $
        <["no_price" := no_price]> $
        <["volume_24h" := volume_24h]> $
        <["volume" := volume]> $
        <["active" := default (PBool true) (market !! "active"%string)]> $
        <["resolved" := default (PBool false) (market !! "resolved"%string)]> $
        <["outcome" := default PNone (market !! "outcome"%string)]> $
        <["end_date" := default PNone (market !! "endDate"%string)]> ∅)%string.

(** [extract_market_data]: the record, or [None] when anything raised. *)
Definition extract_market_data (market : pydict) : pyval :=
  match extract_body market with
  | Some market_data => PDict market_data
  | None => PNone
  end.
End Normaliser.

(** ** The [markets] table and the session *)

(** One row of [Market] ([src/models/database.py]).  A column holds the
    Python value last assigned to it; the two timestamps the ORM fills in
    are microseconds since the epoch.  The surrogate key [id] is left out:
    neither the pipeline nor the monitor reads it. *)
Record Market : Type := mkMarket {
  market_id : pyval;
  question : pyval;
  description : pyval;
  yes_price : pyval;
  no_price : pyval;
  volume : pyval;
  volume_24h : pyval;
  liquidity : pyval;
  active : pyval;
  resolved : pyval;
  outcome : pyval;
  end_date : pyval;
  created_at : Z;
  updated_at : Z
}.

Definition set_yes_price (v : pyval) (m : Market) : Market :=
  mkMarket (market_id m) (question m) (description m) v (no_price m)
    (volume m) (volume_24h m) (liquidity m) (active m) (resolved m)
    (outcome m) (end_date m) (created_at m) (updated_at m).
Definition set_no_price (v : pyval) (m : Market) : Market :=
  mkMarket (market_id m) (question m) (description m) (yes_price m) v
    (volume m) (volume_24h m) (liquidity m) (active m) (resolved m)
    (outcome m) (end_date m) (created_at m) (updated_at m).
Definition set_volume (v : pyval) (m : Market) : Market :=
  mkMarket (market_id m) (question m) (description m) (yes_price m)
    (no_price m) v (volume_24h m) (liquidity m) (active m) (resolved m)
    (outcome m) (end_date m) (created_at m) (updated_at m).
Definition set_volume_24h (v : pyval) (m : Market) : Market :=
  mkMarket (market_id m) (question m) (description m) (yes_price m)
    (no_price m) (volume m) v (liquidity m) (active m) (resolved m)
    (outcome m) (end_date m) (created_at m) (updated_at m).
Definition set_active (v : pyval) (m : Market) : Market :=
  mkMarket (market_id m) (question m) (description m) (yes_price m)
    (no_price m) (volume m) (volume_24h m) (liquidity m) v (resolved m)
    (outcome m) (end_date m) (created_at m) (updated_at m).
Definition set_resolved (v : pyval) (m : Market) : Market :=
  mkMarket (market_id m) (question m) (description m) (yes_price m)
    (no_price m) (volume m) (volume_24h m) (liquidity m) (active m) v
    (outcome m) (end_date m) (created_at m) (updated_at m).
Definition set_outcome (v : pyval) (m : Market) : Market :=
  mkMarket (market_id m) (question m) (description m) (yes_price m)
    (no_price m) (volume m) (volume_24h m) (liquidity m) (active m)
    (resolved m) v (end_date m) (created_at m) (updated_at m).
Definition set_updated_at (t : Z) (m : Market) : Market :=
  mkMarket (market_id m) (question m) (description m) (yes_price m)
    (no_price m) (volume m) (volume_24h m) (liquidity m) (active m)
    (resolved m) (outcome m) (end_date m) (created_at m) t.

(** A value SQLite can bind as a statement parameter. *)
Definition sql_bindable (v : pyval) : bool :=
  match v with
  | PList _ | PDict _ => false
  | _ => true
  end.

(** [market_id = :key] as the [filter_by] of the lookup evaluates it. *)
Definition sql_eq (a b : pyval) : bool :=
  match a, b with
  | PNone, PNone => true
  | PBool x, PBool y => bool_decide (x = y)
  | PInt x, PInt y => bool_decide (x = y)
  | PFloat x, PFloat y =>
      bool_decide (Qnum x = Qnum y) && bool_decide (Qden x = Qden y)
  | PStr x, PStr y => bool_decide (x = y)
  | _, _ => false
  end.

(** [column = 1], what [filter_by(column=True)] and [column == True] test:
    a Boolean column holds 1 for [True] and for the numbers equal to it. *)
Definition sql_is_true (v : pyval) : bool :=
  match v with
  | PBool b => b
  | PInt z => z =? 1
  | PFloat q => Qeq_bool q 1
  | _ => false
  end.

(** An open session: the rows its transaction sees (autoflush makes the
    rows added earlier in the batch visible to later lookups) and how many
    times [datetime.utcnow()] has been read. *)
Record session : Type := mkSession {
  rows : list Market;
  tick : nat
}.

(** A column with [default=...] takes it on INSERT when the attribute is
    [None]: the ORM leaves such an attribute out of the statement. *)
Definition column_default (dflt v : pyval) : pyval :=
  match v with
  | PNone => dflt
  | _ => v
  end.

(** [existing.<column> = market_data['<key>']] followed by the rest of the
    update; a missing key raises [KeyError] after the assignments already
    made. The boolean tells whether the end was reached. *)
Definition assign (set : pyval → Market → Market) (market_data : pydict)
    (key : string) (rest : Market → bool * Market) (existing : Market)
  : bool * Market :=
  match market_data !! key with
  | Some v => rest (set v existing)
  | None => (false, existing)
  end.

(** Lines 165-172. *)
Definition update_existing (market_data : pydict) (now : Z)
  : Market → bool * Market :=
  assign set_yes_price market_data "yes_price" $
  assign set_no_price market_data "no_price" $
  assign set_volume_24h market_data "volume_24h" $
  assign set_volume market_data "volume" $
  assign set_active market_data "active" $
  assign set_resolved market_data "resolved" $
  assign set_outcome market_data "outcome" $
  (λ existing, (true, set_updated_at now existing)).

(** Lines 175-186: [Market(...)] as it reaches the table. [end_date] is not
    passed, [liquidity], [created_at] and [updated_at] take their column
    defaults. *)
Definition new_market (market_data : pydict) (t_created t_updated : Z)
  : option Market :=
  market_id ← market_data !! "market_id"%string;
  question ← market_data !! "question"%string;
  description ← market_data !! "description"%string;
  yes_price ← market_data !! "yes_price"%string;
  no_price ← market_data !! "no_price"%string;
  volume_24h ← market_data !! "volume_24h"%string;
  volume ← market_data !! "volume"%string;
  active ← market_data !! "active"%string;
  resolved ← market_data !! "resolved"%string;
  outcome ← market_data !! "outcome"%string;
  Some {| market_id := market_id;
          question := question;
          description := description;
          yes_price := yes_price;
          no_price := no_price;
          volume := column_default (PInt 0) volume;
          volume_24h := column_default (PInt 0) volume_24h;
          liquidity := PInt 0;
          active := column_default (PBool true) active;
          resolved := column_default (PBool false) resolved;
          outcome := outcome;
          end_date := PNone;
          created_at := t_created;
          updated_at := t_updated |}.

(** [session.query(Market).filter_by(market_id=key).first()] *)
Definition query_first (key : pyval) (tbl : list Market)
  : option (nat * Market) :=
  list_find (λ e, Is_true (sql_eq (market_id e) key)) tbl.

(** The inner [try] of [store_markets] (lines 157-193) on one record.  The
    boolean is [true] when [stored_count += 1] was reached and [false] when
    an exception was caught: [KeyError] on a missing key, or the lookup
    refusing a key it cannot bind. *)
Definition process_record (clock : nat → Z) (market_data : pydict)
    (s : session) : bool * session :=
  match market_data !! "market_id"%string with
  | None => (false, s)
  | Some key =>
      if sql_bindable key then
        match query_first key (rows s) with
        | Some (i, existing) =>
            let '(reached, existing') :=
              update_existing market_data (clock (tick s)) existing in
            (reached,
             {| rows := <[i := existing']> (rows s);
                tick := if reached then S (tick s) else tick s |})
        | None =>
            match new_market market_data (clock (tick s)) (clock (S (tick s))) with
            | Some new =>
                (true, {| rows := rows s ++ [new]; tick := S (S (tick s)) |})
            | None => (false, s)
            end
        end
      else (false, s)
  end.

(** The [for] loop of [store_markets].  [None] is an exception leaving the
    loop: an entry that is neither falsy nor a dict raises in the inner
    handler itself ([market_data.get]), which only the outer handler
    catches. *)
Fixpoint store_loop (clock : nat → Z) (crypto_markets : list pyval)
    (s : session) (stored_count : Z) : option (session * Z) :=
  match crypto_markets with
  | [] => Some (s, stored_count)
  | market_data :: rest =>
      if py_truthy market_data then
        match market_data with
        | PDict d =>
            let '(reached, s') := process_record clock d s in
            store_loop clock rest s'
              (if reached then stored_count + 1 else stored_count)
        | _ => None
        end
      else store_loop clock rest s stored_count
  end.

(** [store_markets]: the table after the call and the returned count.
    [commit_ok] says whether the database accepts [session.commit()]; every
    result is established for both answers.  A row the database refuses (a
    constraint, a value it cannot store) fails the transaction as a whole,
    at the flush before a later lookup or at the commit, and so falls under
    [commit_ok = false]: the rollback of line 201 restores [db] and 0 is
    returned. [clock n] is the [n]-th reading of [datetime.utcnow()] during
    the call. *)
Definition store_markets (clock : nat → Z) (commit_ok : bool)
    (crypto_markets : list pyval) (db : list Market) : list Market * Z :=
  match crypto_markets with
  | [] => (db, 0)
  | _ =>
      match store_loop clock crypto_markets (mkSession db 0) 0 with
      | Some (s, stored_count) =>
          if commit_ok then (rows s, stored_count) else (db, 0)
      | None => (db, 0)
      end
  end.

(** ** One cycle: [fetch_and_store_markets] *)

(** [for market in markets]: what iterating a value yields. *)
Definition py_iter (v : pyval) : option (list pyval) :=
  match v with
  | PList l => Some l
  | PStr s => Some ((λ c, PStr (String c EmptyString)) <$> list_ascii_of_string s)
  | PDict d => Some ((λ kv, PStr kv.1) <$> map_to_list d)
  | _ => None
  end.

Section Cycle.
Variable json_loads : string → option pyval.
Variable float_of_str : string → option Q.

(** Lines 230-234.  The filter has already called [get] on every market it
    kept, so each one is a dict; anything else would raise here too. *)
Fixpoint extract_loop (crypto_markets market_data_list : list pyval)
  : option (list pyval) :=
  match crypto_markets with
  | [] => Some market_data_list
  | PDict d :: rest =>
      let market_data := extract_market_data json_loads float_of_str d in
      extract_loop rest
        (if py_truthy market_data then market_data_list ++ [market_data]
         else market_data_list)
  | _ :: _ => None
  end.

(** The [try] body of [fetch_and_store_markets]; [None] is an exception
    reaching the handler of line 243. *)
Definition cycle_body (net : nat → attempt_result) (clock : nat → Z)
    (commit_ok : bool) (db : list Market) : option (bool * list Market) :=
  let markets := (fetch_markets net).1 in
  if py_truthy markets then
    payloads ← py_iter markets;
    crypto_markets ← filter_crypto_markets payloads;
    match crypto_markets with
    | [] => Some (false, db)
    | _ =>
        market_data_list ← extract_loop crypto_markets [];
        let '(db', _) := store_markets clock commit_ok market_data_list db in
        Some (true, db')
    end
  else Some (false, db).

(** [fetch_and_store_markets]: the returned flag and the table after. *)
Definition fetch_and_store_markets (net : nat → attempt_result)
    (clock : nat → Z) (commit_ok : bool) (db : list Market)
  : bool * list Market :=
  match cycle_body net clock commit_ok db with
  | Some result => result
  | None => (false, db)
  end.
End Cycle.

(** ** The market functions of [src/models/crud.py] *)

Module Crud.

(** [if value is not None: market.<column> = value] *)
Definition set_unless_none (set : pyval → Market → Market) (v : pyval)
    (m : Market) : Market :=
  match v with
  | PNone => m
  | _ => set v m
  end.

(** The row [update_market] leaves behind. *)
Definition update_row (now : Z)
    (yes_price no_price volume active resolved outcome : pyval)
    (market : Market) : Market :=
  set_updated_at now $
  set_unless_none set_outcome outcome $
  set_unless_none set_resolved resolved $
  set_unless_none set_active active $
  set_unless_none set_volume volume $
  set_unless_none set_no_price no_price $
  set_unless_none set_yes_price yes_price market.

(** [update_market]: [None] when no market has that id. *)
Definition update_market (now : Z) (db : list Market) (key : pyval)
    (yes_price no_price volume active resolved outcome : pyval)
  : option (list Market) :=
  match query_first key db with
  | Some (i, market) =>
      Some (<[i := update_row now yes_price no_price volume active resolved
                     outcome market]> db)
  | None => None
  end.

(** [get_market]: the first row with that id, if any. *)
Definition get_market (db : list Market) (key : string) : option Market :=
  snd <$> query_first (PStr key) db.

(** [Market(...)] of [create_market] as it reaches the table: [volume] and
    [active] fall back on their column defaults when given as [None], the
    columns not passed take theirs. *)
Definition create_row (t_created t_updated : Z) (key : string)
    (question yes_price no_price volume description active : pyval)
  : Market :=
  {| market_id := PStr key;
     question := question;
     description := description;
     yes_price := yes_price;
     no_price := no_price;
     volume := column_default (PInt 0) volume;
     volume_24h := PInt 0;
     liquidity := PInt 0;
     active := column_default (PBool true) active;
     resolved := PBool false;
     outcome := PNone;
     end_date := PNone;
     created_at := t_created;
     updated_at := t_updated |}.

(** [create_market]: the table after and the market returned.  Nothing
    catches a commit the database refuses: [None] is that exception. *)
Definition create_market (clock : nat → Z) (commit_ok : bool)
    (db : list Market) (key : string)
    (question yes_price no_price volume description active : pyval)
  : option (list Market * Market) :=
  let market :=
    create_row (clock 0%nat) (clock 1%nat) key question yes_price no_price
      volume description active in
  if commit_ok then Some (db ++ [market], market) else None.

(** [get_all_markets].  A negative [LIMIT] is no limit for SQLite, the
    engine [Database()] opens. *)
Definition get_all_markets (db : list Market) (active_only : bool)
    (limit : Z) : list Market :=
  let query :=
    if active_only then List.filter (λ m, sql_is_true (active m)) db
    else db in
  if limit <? 0 then query else take (Z.to_nat limit) query.

(** [delete_market]: the table after and the returned flag; [None] is a
    commit the database refuses. *)
Definition delete_market (commit_ok : bool) (db : list Market) (key : string)
  : option (list Market * bool) :=
  match query_first (PStr key) db with
  | Some (i, _) => if commit_ok then Some (delete i db, true) else None
  | None => Some (db, false)
  end.

End Crud.

(** ** [PipelineMonitor] *)

Module Monitor.

(** [session.query(Market).order_by(Market.updated_at.desc()).first()] *)
Fixpoint latest_market (db : list Market) : option Market :=
  match db with
  | [] => None
  | m :: rest =>
      match latest_market rest with
      | Some m' => if updated_at m <? updated_at m' then Some m' else Some m
      | None => Some m
      end
  end.

Definition get_last_update_time (db : list Market) : option Z :=
  updated_at <$> latest_market db.

(** [timedelta(minutes=n)] and [timedelta(hours=n)], in microseconds. *)
Definition minutes (n : Z) : Z := n * 60 * 1000000.
Definition hours (n : Z) : Z := n * 3600 * 1000000.

(** [get_data_freshness] at clock reading [now]: the age and the label. *)
Definition get_data_freshness (now : Z) (db : list Market)
  : option Z * string :=
  match get_last_update_time db with
  | None => (None, "No data in database"%string)
  | Some last_update =>
      let age := now - last_update in
      (Some age,
       if age <? minutes 20 then "✓ FRESH"%string
       else if age <? hours 1 then "⚠ STALE"%string
       else "✗ VERY STALE"%string)
  end.

(** The pipeline log as the monitor finds it. *)
Inductive log_file : Type :=
| LogMissing
| LogUnreadable (reason : string)
| LogLines (lines : list string).

(** The [for line in f] loop of [get_log_summary]. *)
Fixpoint count_runs (lines : list string) (successful failed : Z) : Z * Z :=
  match lines with
  | [] => (successful, failed)
  | line :: rest =>
      if contains "Data fetch completed successfully" line
      then count_runs rest (successful + 1) failed
      else if contains "Fatal error in fetch_and_store_markets" line
      then count_runs rest successful (failed + 1)
      else count_runs rest successful failed
  end.

(** [float(n)] for an integer: the nearest binary64. *)
Definition float_of_Z (n : Z) : float :=
  SF2Prim (binary_normalize prec emax n 0 false).

(** [a / b] on integers; [None] is [ZeroDivisionError].  The quotient of the
    two conversions is Python's result for operands below [2^53]. *)
Definition py_truediv (a b : Z) : option float :=
  if b =? 0 then None
  else Some (PrimFloat.div (float_of_Z a) (float_of_Z b)).

(** [n * 2^e] rounded to the nearest integer, ties to even. *)
Definition round_half_even (n e : Z) : Z :=
  if 0 <=? e then n * 2 ^ e
  else
    let d := 2 ^ (- e) in
    let q := n / d in
    let r := n mod d in
    if 2 * r <? d then q
    else if d <? 2 * r then q + 1
    else if Z.even q then q else q + 1.

Definition string_of_Z (z : Z) : string :=
  NilZero.string_of_uint (N.to_uint (Z.to_N z)).

(** [f"{x:.1f}"]: the decimal with one fractional digit nearest to [x]. *)
Definition format_1f (x : float) : string :=
  match Prim2SF x with
  | S754_zero s => if s then "-0.0"%string else "0.0"%string
  | S754_infinity s => if s then "-inf"%string else "inf"%string
  | S754_nan => "nan"%string
  | S754_finite s m e =>
      let tenths := round_half_even (10 * Z.pos m) e in
      ((if s then "-" else "") +:+ string_of_Z (tenths / 10) +:+ "." +:+
       string_of_Z (tenths mod 10))%string
  end.

(** The ['success_rate'] entry of the summary. *)
Definition success_rate (successful failed : Z) : option string :=
  if 0 <? successful + failed then
    ratio ← py_truediv successful (successful + failed);
    Some (format_1f (PrimFloat.mul ratio (float_of_Z 100)) +:+ "%")
  else Some "N/A"%string.

(** [get_log_summary]; [None] would be an exception leaving the method. *)
Definition get_log_summary (log : log_file) : option pydict :=
  match log with
  | LogMissing =>
      Some (<["total_fetches" := PInt 0]> $
            <["successful_fetches" := PInt 0]> $
            <["failed_fetches" := PInt 0]> ∅)%string
  | LogUnreadable reason =>
      Some (<["error" := PStr ("Could not read log: " +:+ reason)]> ∅)%string
  | LogLines lines =>
      let '(successful, failed) := count_runs lines 0 0 in
      rate ← success_rate successful failed;
      Some (<["total_fetches" := PInt (successful + failed)]> $
            <["successful_fetches" := PInt successful]> $
            <["failed_fetches" := PInt failed]> $
            <["success_rate" := PStr rate]> ∅)%string
  end.

(** Lines 152-159 of [print_status]: the values printed under PIPELINE
    PERFORMANCE; [None] is the [KeyError] of a missing entry. *)
Definition print_performance (log_summary : pydict) : option (list pyval) :=
  match log_summary !! "error"%string with
  | None =>
      total ← log_summary !! "total_fetches"%string;
      successful ← log_summary !! "successful_fetches"%string;
      failed ← log_summary !! "failed_fetches"%string;
      rate ← log_summary !! "success_rate"%string;
      Some [total; successful; failed; rate]
  | Some message => Some [message]
  end.

(** [get_market_stats]: every row counts as a crypto market. *)
Definition get_market_stats (db : list Market) : pydict :=
  let total_markets := Z.of_nat (length db) in
  let active_markets :=
    Z.of_nat (length (List.filter (λ m, sql_is_true (active m)) db)) in
  let resolved_markets :=
    Z.of_nat (length (List.filter (λ m, sql_is_true (resolved m)) db)) in
  let crypto_markets := Z.of_nat (length db) in
  (<["total" := PInt total_markets]> $
   <["active" := PInt active_markets]> $
   <["resolved" := PInt resolved_markets]> $
   <["crypto" := PInt crypto_markets]> ∅)%string.

(** The loop of [get_recent_errors] over the lines it looks at. *)
Fixpoint recent_errors_loop (lines errors : list string) : list string :=
  match lines with
  | [] => errors
  | line :: rest =>
      recent_errors_loop rest
        (if contains "ERROR" line || contains "WARNING" line
         then errors ++ [py_strip line]
         else errors)
  end.

(** [get_recent_errors(lines)] *)
Definition get_recent_errors (log : log_file) (lines : Z) : list string :=
  match log with
  | LogMissing => []
  | LogUnreadable reason => ["Error reading log file: " +:+ reason]%string
  | LogLines all =>
      py_slice_from (- lines)
        (recent_errors_loop (py_slice_from (-100) all) [])
  end.

(** Lines 171-177 of [print_status]: the line printed under SYSTEM STATUS.
    [now1] and [now2] are the clock as the first and the second test read
    it; the second reading is only taken when the first test fails. *)
Definition system_status (now1 now2 : Z) (last_update : option Z) : string :=
  match last_update with
  | Some t =>
      if now1 - t <? minutes 20 then "   Pipeline: ✓ RUNNING NORMALLY"%string
      else if now2 - t <? hours 1
      then "   Pipeline: ⚠ RUNNING BUT DATA IS STALE"%string
      else "   Pipeline: ✗ NOT UPDATING"%string
  | None => "   Pipeline: ✗ NOT UPDATING"%string
  end.

End Monitor.

(** ** Stand-ins for [float] and [json.loads]

    The results below hold for every [float_of_str] and [json_loads].  To
    run the model on concrete payloads two readers are fixed here.  Each
    accepts a fragment of what Python accepts and gives Python's answer on
    it: plain decimal literals, and JSON arrays of string literals without
    escapes.  Text that is neither a number nor JSON is rejected by both,
    as it is by Python. *)

Module Sample.

Definition digit_of (c : ascii) : option Z :=
  let n := N_of_ascii c in
  if ((48 <=? n) && (n <=? 57))%N then Some (Z.of_N (n - 48)) else None.

Fixpoint digits_of (s : string) (acc : Z) : option Z :=
  match s with
  | EmptyString => Some acc
  | String c s' => d ← digit_of c; digits_of s' (10 * acc + d)
  end.

(** The text before the first ["."] and, when there is one, the text after. *)
Fixpoint split_dot (s : string) : string * option string :=
  match s with
  | EmptyString => (EmptyString, None)
  | String c s' =>
      if bool_decide (c = "."%char) then (EmptyString, Some s')
      else let '(a, b) := split_dot s' in (String c a, b)
  end.

Definition unsigned_decimal (s : string) : option Q :=
  let '(int_part, frac) := split_dot s in
  let frac_part := default EmptyString frac in
  let k := Z.of_nat (String.length frac_part) in
  if Nat.eqb (String.length int_part + String.length frac_part) 0 then None
  else
    i ← digits_of int_part 0;
    f ← digits_of frac_part 0;
    Some (Qred (Qmake (i * 10 ^ k + f) (Z.to_pos (10 ^ k)))).

Definition float_of_str (s : string) : option Q :=
  match s with
  | String "-" s' => Qopp <$> unsigned_decimal s'
  | String "+" s' => unsigned_decimal s'
  | _ => unsigned_decimal s
  end.

(** The double quote, which a string literal of this file cannot hold. *)
Definition dq : ascii := ascii_of_nat 34.
Definition quoted (s : string) : string :=
  String dq (s +:+ String dq EmptyString).

Inductive reader : Type :=
| Start
| InString (text : string)
| AfterItem
| Closed.

Fixpoint read_array (s : string) (st : reader) (items : list pyval)
  : option pyval :=
  match s with
  | EmptyString =>
      match st with
      | Closed => Some (PList items)
      | _ => None
      end
  | String c s' =>
      match st with
      | Start =>
          if bool_decide (c = " "%char) then read_array s' Start items
          else if bool_decide (c = dq) then read_array s' (InString "") items
          else if bool_decide (c = "]"%char) && Nat.eqb (length items) 0
          then read_array s' Closed items
          else None
      | InString text =>
          if bool_decide (c = dq)
          then read_array s' AfterItem (items ++ [PStr text])
          else if bool_decide (c = "\"%char) then None
          else read_array s' (InString (text +:+ String c EmptyString)) items
      | AfterItem =>
          if bool_decide (c = " "%char) then read_array s' AfterItem items
          else if bool_decide (c = ","%char) then read_array s' Start items
          else if bool_decide (c = "]"%char) then read_array s' Closed items
          else None
      | Closed =>
          if bool_decide (c = " "%char) then read_array s' Closed items
          else None
      end
  end.

Definition json_loads (s : string) : option pyval :=
  match s with
  | String "[" s' => read_array s' Start []
  | _ => None
  end.

Definition extract_market_data : pydict → pyval :=
  extract_market_data json_loads float_of_str.

Definition fetch_and_store_markets
  : (nat → attempt_result) → (nat → Z) → bool → list Market
    → bool * list Market :=
  fetch_and_store_markets json_loads float_of_str.

(** Payloads in the shapes the API sends. *)
Definition btc_payload : pydict :=
  (<["id" := PStr "m1"]> $
   <["question" := PStr "Will BITCOIN reach $100k?"]> $
   <["outcomePrices" :=
       PStr ("[" +:+ quoted "0.65" +:+ ", " +:+ quoted "0.35" +:+ "]")]> $
   <["volume" := PStr "500000.5"]> $
   <["volume24h" := PInt 1500]> ∅)%string.

Definition eth_payload : pydict :=
  (<["id" := PStr "m2"]> $
   <["question" := PStr "Ethereum above 5k by June?"]> $
   <["outcomePrices" := PList [PStr "0.58"; PStr "0.42"]]> $
   <["volume" := PInt 400000]> ∅)%string.

Definition rain_payload : pydict :=
  (<["id" := PStr "m3"]> $
   <["question" := PStr "Will it rain in Paris tomorrow?"]> ∅)%string.

(** A payload without a question. *)
Definition untitled_payload : pydict :=
  (<["id" := PStr "m4"]> $ <["volume" := PInt 10]> ∅)%string.

(** A payload whose question is JSON [null]. *)
Definition null_question_payload : pydict :=
  (<["id" := PStr "m5"]> $ <["question" := PNone]> ∅)%string.

(** A payload whose volume is text that is not a number. *)
Definition na_volume_payload : pydict :=
  (<["id" := PStr "m6"]> $
   <["question" := PStr "Will Bitcoin close above 90k?"]> $
   <["outcomePrices" := PList [PStr "0.5"; PStr "0.5"]]> $
   <["volume" := PStr "N/A"]> ∅)%string.

(** A later page for market [m1] that carries no outcome prices. *)
Definition btc_payload_without_prices : pydict :=
  (<["id" := PStr "m1"]> $
   <["question" := PStr "Will BITCOIN reach $100k?"]> $
   <["volume" := PStr "500100.5"]> ∅)%string.

(** The row of market [m1] as an earlier cycle left it. *)
Definition btc_row : Market :=
  {| market_id := PStr "m1";
     question := PStr "Will BITCOIN reach $100k?";
     description := PNone;
     yes_price := PFloat (13 # 20);
     no_price := PFloat (7 # 20);
     volume := PFloat (1000001 # 2);
     volume_24h := PInt 1500;
     liquidity := PInt 0;
     active := PBool true;
     resolved := PBool false;
     outcome := PNone;
     end_date := PNone;
     created_at := 1000;
     updated_at := 1000 |}.

(** A clock that starts at [t0] and advances by one at each reading. *)
Definition clock_from (t0 : Z) (n : nat) : Z := t0 + Z.of_nat n.

(** A network that answers every attempt with [body]. *)
Definition answers (body : pyval) (attempt : nat) : attempt_result :=
  Response body.

End Sample.

(** ** Vocabulary of the statements *)

(** A failure [fetch_markets] retries. *)
Definition transient (r : attempt_result) : Prop :=
  r = ConnectionError ∨ r = Timeout.

(** The attempts a trace of events records. *)
Definition attempts_of (events : list event) : list nat :=
  omap (λ e, match e with Requested attempt => Some attempt | _ => None end)
       events.

(** [events] holds [xs] as a run of consecutive events. *)
Definition consecutive (xs events : list event) : Prop :=
  ∃ before after, events = before ++ xs ++ after.

(** The question of a payload is text whenever it is there. *)
Definition text_question (market : pyval) : Prop :=
  ∃ d, market = PDict d
    ∧ (d !! "question"%string = None
       ∨ ∃ q, d !! "question"%string = Some (PStr q)).

(** [question] holds [keyword] written in some mix of letter cases. *)
Definition occurs_ignoring_case (keyword question : string) : Prop :=
  ∃ before word after,
    question = (before +:+ word +:+ after)%string ∧ lower word = keyword.

(** A payload whose question names one of the crypto keywords. *)
Definition crypto_payload (market : pyval) : Prop :=
  ∃ d q keyword,
    market = PDict d
    ∧ d !! "question"%string = Some (PStr q)
    ∧ keyword ∈ CRYPTO_KEYWORDS
    ∧ occurs_ignoring_case keyword q.

(** The test the filter applies to one payload. *)
Definition mentions_crypto (market : pyval) : bool :=
  match question_lower market with
  | Some question => any_keyword question
  | None => false
  end.

(** [market.get(key)] is absent or falsy: [None], [0], [0.0], [False],
    empty text, an empty list or object. *)
Definition falsy_field (market : pydict) (key : string) : Prop :=
  py_truthy (default PNone (market !! key)) = false.

(** [market.get(key)] is truthy and [float] raises on it. *)
Definition rejected_field (float_of_str : string → option Q)
    (market : pydict) (key : string) : Prop :=
  py_truthy (default PNone (market !! key)) = true
  ∧ py_float float_of_str (default (PInt 0) (market !! key)) = None.

(** The columns [store_markets] never assigns on a row it finds. *)
Definition same_identity (m m' : Market) : Prop :=
  market_id m' = market_id m
  ∧ question m' = question m
  ∧ description m' = description m
  ∧ liquidity m' = liquidity m
  ∧ end_date m' = end_date m
  ∧ created_at m' = created_at m.

(** An entry of a batch as [extract_market_data] produces them: [None] or
    a dict. *)
Definition normalised (v : pyval) : Prop :=
  v = PNone ∨ ∃ d : pydict, v = PDict d.

(** The records of a batch the loop works on: its truthy dicts. *)
Fixpoint records_of (batch : list pyval) : list pydict :=
  match batch with
  | [] => []
  | PDict d :: rest =>
      if py_truthy (PDict d) then d :: records_of rest else records_of rest
  | _ :: rest => records_of rest
  end.

(** Every record handled in turn, each from the session the one before
    left, with the flags telling which of them reached the write. *)
Fixpoint process_all (clock : nat → Z) (records : list pydict) (s : session)
  : session * list bool :=
  match records with
  | [] => (s, [])
  | d :: rest =>
      let '(reached, s') := process_record clock d s in
      let '(s'', flags) := process_all clock rest s' in
      (s'', reached :: flags)
  end.

(** How many records reached the write. *)
Definition written (flags : list bool) : Z :=
  Z.of_nat (length (List.filter id flags)).

(** A table [tbl] still holds every row of [db], at its place and with its
    identity columns. *)
Definition keeps_rows (db tbl : list Market) : Prop :=
  ∀ i m, db !! i = Some m → ∃ m', tbl !! i = Some m' ∧ same_identity m m'.

(** Records of the kind the cycle stores, and one with no [market_id]. *)
Definition sample_batch : list pyval :=
  [ Sample.extract_market_data Sample.btc_payload;
    PNone;
    PDict (<["question"%string := PStr "Will Solana flip Ethereum?"]> ∅);
    Sample.extract_market_data Sample.eth_payload ].

(** A row with its [updated_at] blanked: what two tables are compared on
    when only the time of the last write may differ. *)
Definition untimed (m : Market) : Market := set_updated_at 0 m.

(** No column that has an INSERT default is given as [None]. *)
Definition no_null_defaults (d : pydict) : Prop :=
  d !! "volume_24h"%string ≠ Some PNone
  ∧ d !! "volume"%string ≠ Some PNone
  ∧ d !! "active"%string ≠ Some PNone
  ∧ d !! "resolved"%string ≠ Some PNone.

(** The key a record is looked up by, when the lookup can run. *)
Definition record_key (d : pydict) : option pyval :=
  match d !! "market_id"%string with
  | Some key => if sql_bindable key then Some key else None
  | None => None
  end.

(** The assignments of the update path, without the time stamp. *)
Definition assign_columns (d : pydict) (e : Market) : Market :=
  (update_existing d (updated_at e) e).2.

(** Lookup, then update in place or append, as one recursion on the table. *)
Fixpoint upsert (key : pyval) (f : Market → Market) (new : option Market)
    (tbl : list Market) : list Market :=
  match tbl with
  | [] => match new with Some m => [m] | None => [] end
  | e :: tbl' =>
      if sql_eq (market_id e) key then f e :: tbl'
      else e :: upsert key f new tbl'
  end.

(** What handling [d] does to a table blanked of its [updated_at]. *)
Definition first_record (t_created : Z) (d : pydict) (tbl : list Market)
  : list Market :=
  match record_key d with
  | Some key => upsert key (assign_columns d) (new_market d t_created 0) tbl
  | None => tbl
  end.

(** The same without the insertion. *)
Definition rerun_record (d : pydict) (tbl : list Market) : list Market :=
  match record_key d with
  | Some key => upsert key (assign_columns d) None tbl
  | None => tbl
  end.

Definition rerun (records : list pydict) (tbl : list Market) : list Market :=
  fold_left (λ t d, rerun_record d t) records tbl.

(** [d] is looked up by the [market_id] of [e]. *)
Definition matches (d : pydict) (e : Market) : bool :=
  match record_key d with
  | Some key => sql_eq (market_id e) key
  | None => false
  end.

(** What the records that match a row assign to it, one after the other. *)
Definition composite (records : list pydict) (e : Market) : Market :=
  fold_left (λ acc d, if matches d acc then assign_columns d acc else acc)
            records e.

Definition others (e : Market) (records : list pydict) : list pydict :=
  List.filter (λ d, negb (matches d e)) records.

(** The first [j] of the seven assigned columns taken from [c], the rest
    of the row from [e]. *)
Definition merge (j : nat) (c e : Market) : Market :=
  mkMarket (market_id e) (question e) (description e)
    (if (0 <? j)%nat then yes_price c else yes_price e)
    (if (1 <? j)%nat then no_price c else no_price e)
    (if (3 <? j)%nat then volume c else volume e)
    (if (2 <? j)%nat then volume_24h c else volume_24h e)
    (liquidity e)
    (if (4 <? j)%nat then active c else active e)
    (if (5 <? j)%nat then resolved c else resolved e)
    (if (6 <? j)%nat then outcome c else outcome e)
    (end_date e) (created_at e) (updated_at e).

(** [key] is the [market_id] of a row of [tbl]. *)
Definition has_key (key : pyval) (tbl : list Market) : Prop :=
  Exists (λ e, sql_eq (market_id e) key = true) tbl.

(** A record that could be inserted finds its market in [tbl]. *)
Definition settled (d : pydict) (tbl : list Market) : Prop :=
  ∀ key, record_key d = Some key →
         is_Some (new_market d 0 0) → has_key key tbl.

(** The seconds a trace of events spends asleep. *)
Definition slept (events : list event) : Z :=
  foldr (λ e total, match e with Slept seconds => seconds + total | _ => total end)
        0 events.

(** [market.get('id')] *)
Definition payload_id (market : pydict) : pyval :=
  default PNone (market !! "id"%string).

(** The keys of the record [extract_market_data] builds. *)
Definition RECORD_KEYS : list string :=
  [ "market_id"; "question"; "description"; "yes_price"; "no_price";
    "volume_24h"; "volume"; "active"; "resolved"; "outcome"; "end_date" ]%string.

(** A record as the normaliser makes them, looked up by a key that can be
    bound. *)
Definition storable (json_loads : string → option pyval)
    (float_of_str : string → option Q) (v : pyval) : Prop :=
  ∃ market record,
    extract_market_data json_loads float_of_str market = PDict record
    ∧ v = PDict record
    ∧ sql_bindable (payload_id market) = true.

(** What the loop of lines 230-234 of the cycle hands to the store: the
    records of the kept payloads that normalised. *)
Definition extracted (json_loads : string → option pyval)
    (float_of_str : string → option Q) (kept : list pyval) : list pyval :=
  List.filter py_truthy
    ((λ v, match v with
           | PDict d => extract_market_data json_loads float_of_str d
           | _ => PNone
           end) <$> kept).

(** A row some record of [batch] was inserted as: it still has the
    identity columns that insertion gave it. *)
Definition inserted_by (clock : nat → Z) (batch : list pyval) (m : Market)
  : Prop :=
  ∃ d new k t,
    PDict d ∈ batch
    ∧ new_market d (clock k) t = Some new
    ∧ same_identity new m.

(** A row last written at a reading of [clock]. *)
Definition stamped (clock : nat → Z) (m : Market) : Prop :=
  ∃ k, updated_at m = clock k.

(** A log line [get_recent_errors] reports. *)
Definition flagged (line : string) : bool :=
  contains "ERROR" line || contains "WARNING" line.

(** The flagged lines among the last hundred of the log, stripped: what
    [get_recent_errors] chooses from. *)
Definition recently_flagged (all : list string) : list string :=
  py_strip <$> List.filter flagged (py_slice_from (-100) all).

(** Text that ends, and text that starts, with a character that is no
    white space. *)
Fixpoint ends_visible (s : string) : bool :=
  match s with
  | EmptyString => false
  | String c EmptyString => negb (py_isspace c)
  | String _ s' => ends_visible s'
  end.

Definition starts_visible (s : string) : bool :=
  match s with
  | EmptyString => false
  | String c _ => negb (py_isspace c)
  end.

(** * Properties *)

Example float_of_str_decimal :
  Sample.float_of_str "0.65" = Some (13 # 20)
  ∧ Sample.float_of_str "-12" = Some (-12 # 1)
  ∧ Sample.float_of_str ".5" = Some (1 # 2)
  ∧ Sample.float_of_str "N/A" = None
  ∧ Sample.float_of_str "." = None.
Proof. vm_compute. repeat split; reflexivity. Qed.

Example json_loads_prices :
  Sample.json_loads ("[" +:+ Sample.quoted "0.65" +:+ ", " +:+ Sample.quoted "0.35" +:+ "]")
  = Some (PList [PStr "0.65"; PStr "0.35"])
  ∧ Sample.json_loads "[]" = Some (PList [])
  ∧ Sample.json_loads "prices" = None.
Proof. vm_compute. repeat split; reflexivity. Qed.

Example success_rate_8_2 : Monitor.success_rate 8 2 = Some "80.0%"%string.
Proof. vm_compute. reflexivity. Qed.
Example success_rate_1_2 : Monitor.success_rate 1 2 = Some "33.3%"%string.
Proof. vm_compute. reflexivity. Qed.
Example success_rate_2_1 : Monitor.success_rate 2 1 = Some "66.7%"%string.
Proof. vm_compute. reflexivity. Qed.
Example success_rate_1_1999 : Monitor.success_rate 1 1999 = Some "0.1%"%string.
Proof. vm_compute. reflexivity. Qed.
Example success_rate_1_15 : Monitor.success_rate 1 15 = Some "6.2%"%string.
Proof. vm_compute. reflexivity. Qed.
Example success_rate_0_0 : Monitor.success_rate 0 0 = Some "N/A"%string.
Proof. vm_compute. reflexivity. Qed.
Example success_rate_5_0 : Monitor.success_rate 5 0 = Some "100.0%"%string.
Proof. vm_compute. reflexivity. Qed.

(** ** The fetch client *)

Lemma fetch_markets_cases (net : nat → attempt_result) :
  ∃ markets,
    fetch_markets net = (markets, [Requested 0%nat])
    ∨ fetch_markets net
      = (markets, [Requested 0%nat; Slept 1; Requested 1%nat])
    ∨ fetch_markets net
      = (markets, [Requested 0%nat; Slept 1; Requested 1%nat;
                   Slept 2; Requested 2%nat]).
Proof.
  unfold fetch_markets, MAX_RETRIES; simpl.
  destruct (net 0%nat) as [b0| | |]; simpl;
    [destruct (py_len b0); eauto| | |eauto];
    (destruct (net 1%nat) as [b1| | |]; simpl;
      [destruct (py_len b1); eauto| | |eauto];
      (destruct (net 2%nat) as [b2| | |]; simpl;
        [destruct (py_len b2); eauto|eauto|eauto|eauto])).
Qed.

Ltac split_elem H :=
  repeat (apply elem_of_cons in H as [H|H]; [try discriminate H|]);
  try (apply elem_of_nil in H; contradiction).

Ltac find_consecutive :=
  first [ by exists [], []
        | by (eexists [], _; simpl; reflexivity)
        | by (eexists [_; _], _; simpl; reflexivity)
        | by (eexists [_; _; _; _], _; simpl; reflexivity) ].

Ltac refute_transient H k :=
  let T := fresh in
  assert (T := H k ltac:(unfold MAX_RETRIES; lia));
  destruct T as [T|T]; congruence.

(** C2. [fetch_markets] makes at most [MAX_RETRIES] attempts; an attempt
    after the first is made only when the one before failed with a
    connection error or a timeout, and [2 ^ attempt] seconds of sleep lie
    between the two; nothing else sleeps; when every attempt fails that way
    the result is the empty list after exactly [MAX_RETRIES] attempts; and
    an error of another kind, or a body without length, ends the call at
    once with the empty list. *)
Theorem fetch_markets_retry (net : nat → attempt_result) :
  (length (attempts_of (fetch_markets net).2) ≤ MAX_RETRIES)%nat
  ∧ (∀ attempt, Requested (S attempt) ∈ (fetch_markets net).2 →
       transient (net attempt)
       ∧ consecutive [Requested attempt; Slept (2 ^ Z.of_nat attempt);
                      Requested (S attempt)] (fetch_markets net).2)
  ∧ (∀ seconds, Slept seconds ∈ (fetch_markets net).2 →
       ∃ attempt, seconds = 2 ^ Z.of_nat attempt
         ∧ consecutive [Requested attempt; Slept seconds;
                        Requested (S attempt)] (fetch_markets net).2)
  ∧ ((∀ attempt, (attempt < MAX_RETRIES)%nat → transient (net attempt)) →
       (fetch_markets net).1 = PList []
       ∧ attempts_of (fetch_markets net).2 = seq 0 MAX_RETRIES)
  ∧ (∀ attempt, (attempt < MAX_RETRIES)%nat →
       (∀ earlier, (earlier < attempt)%nat → transient (net earlier)) →
       net attempt = OtherError
       ∨ (∃ body, net attempt = Response body ∧ py_len body = None) →
       (fetch_markets net).1 = PList []
       ∧ last (fetch_markets net).2 = Some (Requested attempt)).
Proof.
  unfold fetch_markets, MAX_RETRIES; simpl.
  repeat match goal with
  | |- context [match net ?k with _ => _ end] =>
      let b := fresh "b" in
      destruct (net k) as [b| | |] eqn:?; simpl;
      [destruct (py_len b) eqn:?| | |]
  end.
  all: (split; [simpl; lia|]).
  all: (split; [intros attempt H; split_elem H; injection H as ->;
                (split; [unfold transient; auto|find_consecutive])|]).
  all: (split; [intros seconds H; split_elem H; injection H as ->;
                first [ exists 0%nat; split; [reflexivity|find_consecutive]
                      | exists 1%nat; split; [reflexivity|find_consecutive] ]|]).
  all: (split;
        [intros H; first [ done | refute_transient H 0%nat
                         | refute_transient H 1%nat
                         | refute_transient H 2%nat ]|]).
  all: intros attempt Hlt Hearlier Hnow;
       (destruct attempt as [|[|[|?]]]; [| | |lia]);
       try (first [ refute_transient Hearlier 0%nat
                  | refute_transient Hearlier 1%nat ]; fail);
       try (destruct Hnow as [Hnow|(body & Hnow & Hlen)]; congruence);
       done.
Qed.

(** A network that only times out: three attempts, the empty list. *)
Lemma fetch_markets_retry_witness :
  (fetch_markets (λ _, Timeout)).1 = PList []
  ∧ attempts_of (fetch_markets (λ _, Timeout)).2 = [0; 1; 2]%nat.
Proof.
  apply (fetch_markets_retry (λ _, Timeout)).
  intros attempt _. by right.
Defined.

(** The scenario of the specification: two transient failures, then a
    page of markets, with sleeps of 1 and 2 seconds in between. *)
Example fetch_markets_third_attempt :
  fetch_markets (λ attempt, match attempt with
                            | 0%nat => ConnectionError
                            | 1%nat => Timeout
                            | _ => Response (PList [PDict ∅])
                            end)
  = (PList [PDict ∅],
     [Requested 0; Slept 1; Requested 1; Slept 2; Requested 2]).
Proof. reflexivity. Qed.

(** ** The crypto filter *)

Section Text.
Implicit Types s sub : string.

Lemma starts_with_spec sub s :
  starts_with sub s = true ↔ ∃ rest, s = (sub +:+ rest)%string.
Proof.
  revert s; induction sub as [|a sub IH]; intros s; simpl.
  - split; [intros _; by exists s|done].
  - destruct s as [|b s]; simpl.
    + split; [done|intros [rest H]; discriminate].
    + rewrite andb_true_iff, bool_decide_eq_true, IH. split.
      * intros [-> [rest ->]]. by exists rest.
      * intros [rest H]. injection H as -> ->. split; [done|by exists rest].
Qed.

Lemma contains_spec sub s :
  contains sub s = true
  ↔ ∃ before after, s = (before +:+ sub +:+ after)%string.
Proof.
  induction s as [|c s IH]; simpl.
  - rewrite orb_false_r, starts_with_spec. split.
    + intros [rest H]. by exists EmptyString, rest.
    + intros [[|? before] [after H]]; [by exists after|discriminate].
  - rewrite orb_true_iff, starts_with_spec, IH. split.
    + intros [[rest H]|(before & after & ->)].
      * by exists EmptyString, rest.
      * by exists (String c before), after.
    + intros [[|c' before] [after H]].
      * left. by exists after.
      * injection H as -> ->. right. by exists before, after.
Qed.

Lemma lower_app s1 s2 : lower (s1 +:+ s2) = (lower s1 +:+ lower s2)%string.
Proof. induction s1 as [|c s1 IH]; simpl; [done|by rewrite IH]. Qed.

Lemma lower_split s x y :
  lower s = (x +:+ y)%string →
  ∃ s1 s2, s = (s1 +:+ s2)%string ∧ lower s1 = x ∧ lower s2 = y.
Proof.
  revert s; induction x as [|c x IH]; intros s H; simpl in H.
  - by exists EmptyString, s.
  - destruct s as [|c' s]; [discriminate|]. simpl in H.
    injection H as Hc H. destruct (IH _ H) as (s1 & s2 & -> & <- & <-).
    exists (String c' s1), s2. by rewrite <- Hc.
Qed.

(** [sub in question.lower()] finds exactly the occurrences of [sub] in
    any letter case. *)
Lemma contains_lower sub s :
  contains sub (lower s) = true ↔ occurs_ignoring_case sub s.
Proof.
  rewrite contains_spec. unfold occurs_ignoring_case. split.
  - intros (before & after & H).
    apply lower_split in H as (s1 & rest & -> & <- & H).
    apply lower_split in H as (word & s3 & -> & <- & <-).
    by exists s1, word, s3.
  - intros (before & word & after & -> & <-).
    exists (lower before), (lower after). by rewrite !lower_app.
Qed.
End Text.

Lemma any_keyword_spec (question : string) :
  any_keyword (lower question) = true
  ↔ ∃ keyword, keyword ∈ CRYPTO_KEYWORDS ∧ occurs_ignoring_case keyword question.
Proof.
  unfold any_keyword. rewrite existsb_exists. split.
  - intros (keyword & Hin & H). exists keyword.
    by rewrite list_elem_of_In, <- contains_lower.
  - intros (keyword & Hin & H). exists keyword.
    by rewrite <- list_elem_of_In, contains_lower.
Qed.

Lemma mentions_crypto_spec (market : pyval) :
  mentions_crypto market = true ↔ crypto_payload market.
Proof.
  unfold mentions_crypto, question_lower, crypto_payload. split.
  - destruct market as [| | | | |?|d]; try done.
    destruct (d !! "question"%string) as [[| | | |q| |]|] eqn:E; simpl; try done.
    rewrite any_keyword_spec. intros (keyword & ? & ?). by exists d, q, keyword.
  - intros (d & q & keyword & -> & -> & ? & ?). simpl.
    apply any_keyword_spec. by exists keyword.
Qed.

Lemma filter_loop_spec (markets crypto_markets : list pyval) :
  Forall text_question markets →
  filter_loop markets crypto_markets
  = Some (crypto_markets ++ List.filter mentions_crypto markets).
Proof.
  intros H. revert crypto_markets.
  induction H as [|market markets (d & -> & Hq) _ IH]; intros acc; simpl.
  - by rewrite app_nil_r.
  - unfold mentions_crypto; simpl.
    destruct Hq as [Hq|[q Hq]]; rewrite Hq; simpl; rewrite IH;
      [done|destruct (any_keyword (lower q)); [by rewrite <- app_assoc|done]].
Qed.

Lemma sublist_filter {A} (f : A → bool) (l : list A) :
  sublist (List.filter f l) l.
Proof.
  induction l as [|x l IH]; simpl; [constructor|].
  destruct (f x); by constructor.
Qed.

(** C3, as amended.  On payloads whose question, when there is one, is
    text, [filter_crypto_markets] returns exactly the payloads whose question
    holds one of the crypto keywords in some letter case, in their input
    order; a payload without a question is never kept. *)
Theorem filter_crypto_markets_text (markets : list pyval) :
  Forall text_question markets →
  filter_crypto_markets markets = Some (List.filter mentions_crypto markets)
  ∧ sublist (List.filter mentions_crypto markets) markets
  ∧ (∀ market, mentions_crypto market = true ↔ crypto_payload market)
  ∧ (∀ d : pydict, d !! "question"%string = None →
       mentions_crypto (PDict d) = false).
Proof.
  intros H. split; [|split; [|split]].
  - unfold filter_crypto_markets. by rewrite filter_loop_spec.
  - apply sublist_filter.
  - apply mentions_crypto_spec.
  - intros d Hd. destruct (mentions_crypto (PDict d)) eqn:E; [|done].
    apply mentions_crypto_spec in E as (d' & q & ? & [= <-] & Hq & _).
    congruence.
Qed.

(** The filter on a page of four payloads: the two crypto questions are
    kept, in order, whatever their letter case. *)
Lemma filter_crypto_markets_text_witness :
  Forall text_question
    [PDict Sample.btc_payload; PDict Sample.rain_payload;
     PDict Sample.untitled_payload; PDict Sample.eth_payload]
  ∧ filter_crypto_markets
      [PDict Sample.btc_payload; PDict Sample.rain_payload;
       PDict Sample.untitled_payload; PDict Sample.eth_payload]
    = Some [PDict Sample.btc_payload; PDict Sample.eth_payload].
Proof.
  assert (Forall text_question
            [PDict Sample.btc_payload; PDict Sample.rain_payload;
             PDict Sample.untitled_payload; PDict Sample.eth_payload]) as H.
  { repeat constructor; eexists; (split; [reflexivity|]);
      first [ left; reflexivity | right; eexists; reflexivity ]. }
  split; [exact H|].
  exact (proj1 (filter_crypto_markets_text _ H)).
Defined.

(** C3 as stated fails: a question that is JSON [null] makes the filter
    raise, and the crypto payload of the same page is lost with it. *)
Lemma filter_crypto_markets_null_question :
  filter_crypto_markets
    [PDict Sample.btc_payload; PDict Sample.null_question_payload] = None.
Proof. reflexivity. Qed.

(** ** The monitor: freshness *)

Lemma latest_market_spec (db : list Market) :
  match Monitor.latest_market db with
  | None => db = []
  | Some m => m ∈ db ∧ Forall (λ m', updated_at m' ≤ updated_at m) db
  end.
Proof.
  induction db as [|m db IH]; simpl; [done|].
  destruct (Monitor.latest_market db) as [m'|].
  - destruct IH as [Hin Hmax].
    destruct (Z.ltb_spec (updated_at m) (updated_at m')).
    + split; [by right|]. constructor; [lia|done].
    + split; [by left|]. constructor; [lia|].
      eapply Forall_impl; [exact Hmax|]. simpl. intros; lia.
  - subst db. split; [by left|]. by repeat constructor.
Qed.

(** C6. [get_data_freshness] gives the no-data answer exactly on an empty
    table; otherwise the age is measured from the largest [updated_at] of
    the table and the label is FRESH below 20 minutes, STALE from 20
    minutes up to one hour, VERY STALE from one hour on. *)
Theorem get_data_freshness_classes (now : Z) (db : list Market) :
  (db = [] ↔
   Monitor.get_data_freshness now db = (None, "No data in database"%string))
  ∧ (db = []
     ∨ ∃ last_update label,
         last_update ∈ updated_at <$> db
         ∧ Forall (λ m, updated_at m ≤ last_update) db
         ∧ Monitor.get_data_freshness now db = (Some (now - last_update), label)
         ∧ (now - last_update < 20 * 60 * 1000000 →
            label = "✓ FRESH"%string)
         ∧ (20 * 60 * 1000000 ≤ now - last_update < 60 * 60 * 1000000 →
            label = "⚠ STALE"%string)
         ∧ (60 * 60 * 1000000 ≤ now - last_update →
            label = "✗ VERY STALE"%string)).
Proof.
  unfold Monitor.get_data_freshness, Monitor.get_last_update_time.
  pose proof (latest_market_spec db) as H.
  destruct (Monitor.latest_market db) as [m|]; simpl.
  - destruct H as [Hin Hmax]. split.
    + split; [intros ->; by apply elem_of_nil in Hin|discriminate].
    + right. eexists (updated_at m), _.
      split; [by apply list_elem_of_fmap_2|].
      split; [done|]. split; [reflexivity|].
      unfold Monitor.minutes, Monitor.hours.
      destruct (Z.ltb_spec (now - updated_at m) (20 * 60 * 1000000));
        [|destruct (Z.ltb_spec (now - updated_at m) (1 * 3600 * 1000000))];
        repeat split; intros; first [reflexivity|lia].
  - subst db. split; [done|by left].
Qed.

(** The cases of the specification, with the clock at three hours and the
    ages in microseconds: 5 minutes, 45 minutes, 3 hours, and no data. *)
Example get_data_freshness_scenarios :
  let row t := mkMarket (PStr "m1") (PStr "q") PNone PNone PNone (PInt 0)
                 (PInt 0) (PInt 0) (PBool true) (PBool false) PNone PNone 0 t in
  let now := 10800000000 in
  Monitor.get_data_freshness now [row 0; row (now - 300000000)]
    = (Some 300000000, "✓ FRESH"%string)
  ∧ Monitor.get_data_freshness now [row (now - 2700000000); row 0]
    = (Some 2700000000, "⚠ STALE"%string)
  ∧ Monitor.get_data_freshness now [row 0]
    = (Some 10800000000, "✗ VERY STALE"%string)
  ∧ Monitor.get_data_freshness now []
    = (None, "No data in database"%string).
Proof. repeat split; reflexivity. Qed.

(** ** The monitor: run performance *)

(** The loop counts the lines carrying the success marker and, among the
    others, those carrying the failure marker. *)
Lemma count_runs_spec (lines : list string) (successful failed : Z) :
  Monitor.count_runs lines successful failed
  = (successful
     + Z.of_nat (length (List.filter
                           (contains "Data fetch completed successfully") lines)),
     failed
     + Z.of_nat (length (List.filter
         (λ line, negb (contains "Data fetch completed successfully" line)
                  && contains "Fatal error in fetch_and_store_markets" line)
         lines))).
Proof.
  revert successful failed.
  induction lines as [|line lines IH]; intros successful failed.
  - cbn [Monitor.count_runs List.filter length]. f_equal; lia.
  - cbn [Monitor.count_runs List.filter].
    destruct (contains "Data fetch completed successfully" line);
      [|destruct (contains "Fatal error in fetch_and_store_markets" line)];
      rewrite IH; cbn [negb andb length]; f_equal; lia.
Qed.

(** When the log can be read the summary carries a success rate: "N/A"
    without runs, the formatted quotient otherwise, and the division is
    never by zero. *)
Lemma get_log_summary_rate (lines : list string) :
  ∃ successful failed rate summary,
    Monitor.count_runs lines 0 0 = (successful, failed)
    ∧ 0 ≤ successful ∧ 0 ≤ failed
    ∧ Monitor.get_log_summary (Monitor.LogLines lines) = Some summary
    ∧ summary !! "success_rate"%string = Some (PStr rate)
    ∧ summary !! "total_fetches"%string = Some (PInt (successful + failed))
    ∧ (successful + failed = 0 → rate = "N/A"%string)
    ∧ (0 < successful + failed →
       ∃ ratio,
         Monitor.py_truediv successful (successful + failed) = Some ratio
         ∧ rate = (Monitor.format_1f (PrimFloat.mul ratio (Monitor.float_of_Z 100))
                   +:+ "%")%string).
Proof.
  unfold Monitor.get_log_summary. rewrite count_runs_spec.
  set (s := 0 + Z.of_nat _). set (f := 0 + Z.of_nat _).
  assert (0 ≤ s ∧ 0 ≤ f) as [Hs Hf] by (subst s f; lia).
  unfold Monitor.success_rate, Monitor.py_truediv.
  destruct (Z.ltb_spec 0 (s + f)) as [Hpos|Hzero].
  - assert ((s + f =? 0) = false) as Hne by (apply Z.eqb_neq; lia).
    rewrite Hne. simpl.
    eexists s, f, _, _. repeat split; try done; [lia|].
    intros _. rewrite Hne. eexists. split; reflexivity.
  - simpl. eexists s, f, _, _. repeat split; try done. lia.
Qed.

(** [get_log_summary] never raises. *)
Lemma get_log_summary_total (log : Monitor.log_file) :
  is_Some (Monitor.get_log_summary log).
Proof.
  destruct log as [| |lines]; [done|done|].
  destruct (get_log_summary_rate lines) as (?&?&?&?&_&_&_&->&_). done.
Qed.

(** Eight successful cycles and two fatal ones among other log lines. *)
Example get_log_summary_8_2 :
  let ok := "2026-01-01 - INFO - Data fetch completed successfully: 3 markets stored"%string in
  let ko := "2026-01-01 - ERROR - Fatal error in fetch_and_store_markets: boom"%string in
  let other := "2026-01-01 - WARNING - No crypto markets found"%string in
  (λ summary, summary !! "success_rate"%string) <$>
    Monitor.get_log_summary
      (Monitor.LogLines [ok; ok; other; ko; ok; ok; ok; ko; ok; other; ok; ok])
  = Some (Some (PStr "80.0%"))
  ∧ (λ summary, summary !! "success_rate"%string) <$>
      Monitor.get_log_summary (Monitor.LogLines [other; other])
    = Some (Some (PStr "N/A")).
Proof. vm_compute. split; reflexivity. Qed.

(** C7 fails on a missing log file.  With no log on disk the summary has
    no ['success_rate'] entry at all, where "N/A" is expected, and the
    report of [print_status], which reads that entry, raises [KeyError]. *)
Theorem get_log_summary_missing_log :
  ∃ summary,
    Monitor.get_log_summary Monitor.LogMissing = Some summary
    ∧ summary !! "total_fetches"%string = Some (PInt 0)
    ∧ summary !! "success_rate"%string = None
    ∧ Monitor.print_performance summary = None.
Proof. eexists. split; [reflexivity|]. vm_compute. done. Qed.

(** ** The normaliser *)

Section NormaliserFacts.
Variable json_loads : string → option pyval.
Variable float_of_str : string → option Q.

Lemma volume_of_falsy (market : pydict) (key : string) :
  falsy_field market key →
  volume_of float_of_str market key = Some (PInt 0).
Proof. unfold falsy_field, volume_of. by intros ->. Qed.

Lemma volume_of_rejected (market : pydict) (key : string) :
  rejected_field float_of_str market key →
  volume_of float_of_str market key = None.
Proof. unfold rejected_field, volume_of. by intros [-> ->]. Qed.

(** The record is there exactly when the four conversions go through, and
    then it holds their results. *)
Lemma extract_market_data_record (market : pydict) (record : pydict) :
  extract_market_data json_loads float_of_str market = PDict record ↔
  ∃ yes_price no_price volume_24h volume,
    price_at float_of_str (outcome_prices_of json_loads market) 0 = Some yes_price
    ∧ price_at float_of_str (outcome_prices_of json_loads market) 1 = Some no_price
    ∧ volume_of float_of_str market "volume24h" = Some volume_24h
    ∧ volume_of float_of_str market "volume" = Some volume
    ∧ extract_body json_loads float_of_str market = Some record
    ∧ record !! "yes_price"%string = Some yes_price
    ∧ record !! "no_price"%string = Some no_price
    ∧ record !! "volume_24h"%string = Some volume_24h
    ∧ record !! "volume"%string = Some volume.
Proof.
  unfold extract_market_data, extract_body.
  destruct (price_at _ _ 0) as [y|]; simpl;
    [|split; [done|by intros (?&?&?&?&?&_)]].
  destruct (price_at _ _ 1) as [n|]; simpl;
    [|split; [done|by intros (?&?&?&?&_&?&_)]].
  destruct (volume_of _ _ "volume24h") as [v24|]; simpl;
    [|split; [done|by intros (?&?&?&?&_&_&?&_)]].
  destruct (volume_of _ _ "volume") as [v|]; simpl;
    [|split; [done|by intros (?&?&?&?&_&_&_&?&_)]].
  split.
  - intros [= <-]. exists y, n, v24, v. by simplify_map_eq.
  - intros (?&?&?&?&_&_&_&_&[= <-]&_). done.
Qed.

Lemma extract_market_data_null (market : pydict) :
  extract_market_data json_loads float_of_str market = PNone ↔
  extract_body json_loads float_of_str market = None.
Proof.
  unfold extract_market_data.
  destruct (extract_body _ _ _); split; done.
Qed.

(** C4, as amended.  A volume field that is absent or falsy is stored as 0
    and does not by itself cost the record: with the prices and the other
    volume convertible the record is returned.  A volume field holding a
    truthy value that [float] rejects is not defaulted: the payload as a
    whole normalises to [None]. *)
Theorem extract_market_data_volumes (market : pydict) :
  (∀ record,
     extract_market_data json_loads float_of_str market = PDict record →
     (falsy_field market "volume" →
      record !! "volume"%string = Some (PInt 0))
     ∧ (falsy_field market "volume24h" →
        record !! "volume_24h"%string = Some (PInt 0)))
  ∧ (falsy_field market "volume" →
     is_Some (price_at float_of_str (outcome_prices_of json_loads market) 0) →
     is_Some (price_at float_of_str (outcome_prices_of json_loads market) 1) →
     is_Some (volume_of float_of_str market "volume24h") →
     ∃ record,
       extract_market_data json_loads float_of_str market = PDict record
       ∧ record !! "volume"%string = Some (PInt 0))
  ∧ (falsy_field market "volume24h" →
     is_Some (price_at float_of_str (outcome_prices_of json_loads market) 0) →
     is_Some (price_at float_of_str (outcome_prices_of json_loads market) 1) →
     is_Some (volume_of float_of_str market "volume") →
     ∃ record,
       extract_market_data json_loads float_of_str market = PDict record
       ∧ record !! "volume_24h"%string = Some (PInt 0))
  ∧ (rejected_field float_of_str market "volume"
     ∨ rejected_field float_of_str market "volume24h" →
     extract_market_data json_loads float_of_str market = PNone).
Proof.
  split; [|split; [|split]].
  - intros record H.
    apply extract_market_data_record in H
      as (y & n & v24 & v & _ & _ & H24 & Hv & _ & _ & _ & R24 & Rv).
    split; intros F; apply volume_of_falsy in F; congruence.
  - intros F [y Hy] [n Hn] [v24 H24]. apply volume_of_falsy in F.
    destruct (extract_market_data json_loads float_of_str market) eqn:E;
      try (unfold extract_market_data in E;
           destruct (extract_body _ _ _); discriminate).
    + apply extract_market_data_null in E. unfold extract_body in E.
      rewrite Hy, Hn, H24, F in E. discriminate.
    + exists d. split; [done|].
      apply extract_market_data_record in E
        as (?&?&?&?&_&_&_&?&_&_&_&_&?). congruence.
  - intros F [y Hy] [n Hn] [v Hv]. apply volume_of_falsy in F.
    destruct (extract_market_data json_loads float_of_str market) eqn:E;
      try (unfold extract_market_data in E;
           destruct (extract_body _ _ _); discriminate).
    + apply extract_market_data_null in E. unfold extract_body in E.
      rewrite Hy, Hn, Hv, F in E. discriminate.
    + exists d. split; [done|].
      apply extract_market_data_record in E
        as (?&?&?&?&_&_&?&_&_&_&_&?&_). congruence.
  - intros H. apply extract_market_data_null. unfold extract_body.
    destruct (price_at _ _ 0); simpl; [|done].
    destruct (price_at _ _ 1); simpl; [|done].
    destruct H as [H|H]; apply volume_of_rejected in H; rewrite H; simpl;
      [by destruct (volume_of _ _ "volume24h")|done].
Qed.

End NormaliserFacts.

(** A payload with neither prices nor volumes is normalised, its volume
    stored as 0; one whose volume is text that is no number is dropped. *)
Lemma extract_market_data_volumes_witness :
  (∃ record,
     Sample.extract_market_data Sample.rain_payload = PDict record
     ∧ record !! "volume"%string = Some (PInt 0))
  ∧ Sample.extract_market_data Sample.na_volume_payload = PNone.
Proof.
  split.
  - apply (extract_market_data_volumes Sample.json_loads Sample.float_of_str
             Sample.rain_payload);
      first [ by vm_compute | by (vm_compute; eexists) ].
  - apply (extract_market_data_volumes Sample.json_loads Sample.float_of_str
             Sample.na_volume_payload).
    left. by vm_compute.
Defined.

(** Prices sent as JSON text and a volume sent as text are converted, and
    a missing 24 hour volume is stored as 0. *)
Example extract_market_data_btc :
  Sample.extract_market_data
    (<["id" := PStr "m1"]> $ <["question" := PStr "Will BITCOIN reach $100k?"]> $
     <["outcomePrices" :=
         PStr ("[" +:+ Sample.quoted "0.65" +:+ ", " +:+ Sample.quoted "0.35" +:+ "]")]> $
     <["volume" := PStr "500000.5"]> ∅)%string
  = PDict (<["market_id" := PStr "m1"]> $
           <["question" := PStr "Will BITCOIN reach $100k?"]> $
           <["description" := PNone]> $
           <["yes_price" := PFloat (13 # 20)]> $
           <["no_price" := PFloat (7 # 20)]> $
           <["volume_24h" := PInt 0]> $
           <["volume" := PFloat (1000001 # 2)]> $
           <["active" := PBool true]> $
           <["resolved" := PBool false]> $
           <["outcome" := PNone]> $
           <["end_date" := PNone]> ∅)%string.
Proof. vm_compute. reflexivity. Qed.

(** C4 as stated fails: a volume that is text but no number is not stored
    as 0; the payload normalises to [None]. *)
Lemma extract_market_data_na_volume :
  Sample.extract_market_data Sample.na_volume_payload = PNone.
Proof. vm_compute. reflexivity. Qed.

(** ** One cycle that finds nothing to store *)

(** C9. When the fetch comes back empty, or the filter keeps no payload,
    [fetch_and_store_markets] returns [False] and leaves the table as it
    was. *)
Theorem fetch_and_store_markets_nothing
    (json_loads : string → option pyval) (float_of_str : string → option Q)
    (net : nat → attempt_result) (clock : nat → Z) (commit_ok : bool)
    (db : list Market) :
  (fetch_markets net).1 = PList []
  ∨ (∃ payloads, py_iter (fetch_markets net).1 = Some payloads
       ∧ filter_crypto_markets payloads = Some []) →
  fetch_and_store_markets json_loads float_of_str net clock commit_ok db
  = (false, db).
Proof.
  unfold fetch_and_store_markets, cycle_body.
  intros [->|(payloads & Hiter & Hfilter)]; simpl; [done|].
  destruct (py_truthy _); [|done].
  rewrite Hiter; simpl. by rewrite Hfilter.
Qed.

Lemma fetch_and_store_markets_nothing_witness :
  Sample.fetch_and_store_markets (λ _, ConnectionError)
    (Sample.clock_from 5000) true [Sample.btc_row]
  = (false, [Sample.btc_row])
  ∧ Sample.fetch_and_store_markets
      (Sample.answers (PList [PDict Sample.rain_payload;
                              PDict Sample.untitled_payload]))
      (Sample.clock_from 5000) true [Sample.btc_row]
    = (false, [Sample.btc_row]).
Proof.
  split.
  - apply fetch_and_store_markets_nothing. left. reflexivity.
  - apply fetch_and_store_markets_nothing. right.
    eexists. split; reflexivity.
Defined.

(** ** The store: what an update leaves alone *)

Lemma same_identity_refl (m : Market) : same_identity m m.
Proof. by repeat split. Qed.

Lemma same_identity_trans (m1 m2 m3 : Market) :
  same_identity m1 m2 → same_identity m2 m3 → same_identity m1 m3.
Proof.
  unfold same_identity.
  intros (?&?&?&?&?&?) (?&?&?&?&?&?). repeat split; congruence.
Qed.

Lemma update_existing_identity (market_data : pydict) (now : Z) (e : Market) :
  same_identity e (update_existing market_data now e).2.
Proof.
  unfold update_existing, assign, same_identity.
  repeat match goal with
         | |- context [market_data !! ?k] => destruct (market_data !! k)
         end; by repeat split.
Qed.

Lemma keeps_rows_refl (db : list Market) : keeps_rows db db.
Proof. intros i m H. exists m. split; [done|apply same_identity_refl]. Qed.

Lemma keeps_rows_trans (t1 t2 t3 : list Market) :
  keeps_rows t1 t2 → keeps_rows t2 t3 → keeps_rows t1 t3.
Proof.
  intros H12 H23 i m H.
  destruct (H12 i m H) as (m2 & H2 & ?).
  destruct (H23 i m2 H2) as (m3 & H3 & ?).
  exists m3. split; [done|by eapply same_identity_trans].
Qed.

Lemma process_record_keeps_rows (clock : nat → Z) (d : pydict) (s : session) :
  keeps_rows (rows s) (rows (process_record clock d s).2).
Proof.
  unfold process_record.
  destruct (d !! "market_id"%string) as [key|]; [|apply keeps_rows_refl].
  destruct (sql_bindable key); [|apply keeps_rows_refl].
  unfold query_first.
  destruct (list_find _ (rows s)) as [[i existing]|] eqn:F.
  - apply list_find_Some in F as (Hi & _ & _).
    pose proof (update_existing_identity d (clock (tick s)) existing) as Hid.
    destruct (update_existing d (clock (tick s)) existing) as [reached e'].
    simpl in *. intros j m Hj.
    destruct (decide (i = j)) as [<-|Hne].
    + exists e'. rewrite list_lookup_insert_eq by by eapply lookup_lt_Some.
      split; [done|congruence].
    + exists m. rewrite list_lookup_insert_ne by done.
      split; [done|apply same_identity_refl].
  - destruct (new_market d _ _) as [new|]; simpl; [|apply keeps_rows_refl].
    intros j m Hj. exists m.
    split; [by apply lookup_app_l_Some|apply same_identity_refl].
Qed.

Lemma store_loop_keeps_rows (clock : nat → Z) (batch : list pyval)
    (s s' : session) (n n' : Z) :
  store_loop clock batch s n = Some (s', n') →
  keeps_rows (rows s) (rows s').
Proof.
  revert s n. induction batch as [|v batch IH]; intros s n; simpl.
  - intros [= <- _]. apply keeps_rows_refl.
  - destruct (py_truthy v); [|by apply IH].
    destruct v; try done.
    pose proof (process_record_keeps_rows clock d s) as Hstep.
    destruct (process_record clock d s) as [reached s1].
    intros H. eapply keeps_rows_trans; [exact Hstep|by eapply IH].
Qed.

Lemma store_markets_keeps_rows (clock : nat → Z) (commit_ok : bool)
    (batch : list pyval) (db : list Market) :
  keeps_rows db (store_markets clock commit_ok batch db).1.
Proof.
  unfold store_markets.
  destruct batch as [|v batch]; [apply keeps_rows_refl|].
  destruct (store_loop clock (v :: batch) _ _) as [[s n]|] eqn:L;
    [|apply keeps_rows_refl].
  destruct commit_ok; [|apply keeps_rows_refl].
  by apply store_loop_keeps_rows in L.
Qed.

Lemma keeps_rows_Forall2 (db tbl : list Market) :
  keeps_rows db tbl → Forall2 same_identity db (take (length db) tbl).
Proof.
  intros H. apply Forall2_same_length_lookup_2.
  - rewrite length_take. apply Nat.eq_sym, Nat.min_l.
    destruct (decide (length db = 0%nat)) as [->|Hne]; [lia|].
    destruct (lookup_lt_is_Some_2 db (pred (length db))) as [m Hm]; [lia|].
    destruct (H _ _ Hm) as (m' & Hm' & _).
    apply lookup_lt_Some in Hm'. lia.
  - intros i m m' Hm Hm'.
    destruct (H _ _ Hm) as (m'' & Hm'' & ?).
    apply lookup_take_Some in Hm' as [Hm' _]. congruence.
Qed.

(** C10. Whatever the batch and whether or not the commit goes through,
    every row that was in the table is still there at its place after
    [store_markets], with the same [market_id], [question], [description],
    [liquidity], [end_date] and [created_at]: only the seven columns the
    update assigns and [updated_at] can differ. *)
Theorem store_markets_frame (clock : nat → Z) (commit_ok : bool)
    (batch : list pyval) (db : list Market) :
  Forall2 same_identity db
    (take (length db) (store_markets clock commit_ok batch db).1).
Proof. apply keeps_rows_Forall2, store_markets_keeps_rows. Qed.

(** ** The store: one transaction per batch *)

Lemma process_all_flags (clock : nat → Z) (records : list pydict) (s : session) :
  length (process_all clock records s).2 = length records.
Proof.
  revert s. induction records as [|d records IH]; intros s; simpl; [done|].
  destruct (process_record clock d s) as [reached s1].
  specialize (IH s1). destruct (process_all clock records s1). simpl in *.
  by rewrite IH.
Qed.

Lemma written_bounds (flags : list bool) :
  0 ≤ written flags ≤ Z.of_nat (length flags).
Proof.
  unfold written. induction flags as [|[] flags IH]; simpl in *; lia.
Qed.

Lemma records_of_length (batch : list pyval) :
  (length (records_of batch) ≤ length batch)%nat.
Proof.
  induction batch as [|v batch IH]; simpl; [done|].
  repeat case_match; simpl in *; lia.
Qed.

(** On a batch of normalised entries no exception leaves the loop: it ends
    in the session [process_all] reaches, having counted the records that
    reached the write. *)
Lemma store_loop_process_all (clock : nat → Z) (batch : list pyval)
    (s : session) (n : Z) :
  Forall normalised batch →
  store_loop clock batch s n
  = Some ((process_all clock (records_of batch) s).1,
          n + written (process_all clock (records_of batch) s).2).
Proof.
  intros H. revert s n.
  induction H as [|v batch [->|[d ->]] _ IH]; intros s n.
  - simpl. do 2 f_equal. unfold written. simpl. lia.
  - simpl. apply IH.
  - cbn [store_loop records_of].
    destruct (py_truthy (PDict d)); [|apply IH].
    cbn [process_all].
    destruct (process_record clock d s) as [reached s1].
    rewrite IH. destruct (process_all clock (records_of batch) s1) as [s2 flags].
    cbn [fst snd]. do 2 f_equal. unfold written.
    destruct reached; cbn [List.filter id length]; lia.
Qed.

Lemma process_record_no_market_id (clock : nat → Z) (d : pydict) (s : session) :
  d !! "market_id"%string = None → process_record clock d s = (false, s).
Proof. unfold process_record. by intros ->. Qed.

Lemma process_all_app (clock : nat → Z) (r1 r2 : list pydict) (s : session) :
  process_all clock (r1 ++ r2) s
  = ((process_all clock r2 (process_all clock r1 s).1).1,
     (process_all clock r1 s).2
     ++ (process_all clock r2 (process_all clock r1 s).1).2).
Proof.
  revert s. induction r1 as [|d r1 IH]; intros s; simpl.
  - by destruct (process_all clock r2 s).
  - destruct (process_record clock d s) as [reached s1]. rewrite IH.
    destruct (process_all clock r1 s1) as [s2 f1]. simpl.
    by destruct (process_all clock r2 s2).
Qed.

Lemma written_app (f1 f2 : list bool) :
  written (f1 ++ f2) = written f1 + written f2.
Proof. unfold written. rewrite List.filter_app, length_app. lia. Qed.

Lemma records_of_app (b1 b2 : list pyval) :
  records_of (b1 ++ b2) = records_of b1 ++ records_of b2.
Proof.
  induction b1 as [|v b1 IH]; simpl; [done|].
  repeat case_match; simpl; by rewrite ?IH.
Qed.

Lemma store_markets_loop (clock : nat → Z) (commit_ok : bool)
    (batch : list pyval) (db : list Market) :
  Forall normalised batch →
  store_markets clock commit_ok batch db
  = if commit_ok
    then (rows (process_all clock (records_of batch) (mkSession db 0)).1,
          written (process_all clock (records_of batch) (mkSession db 0)).2)
    else (db, 0).
Proof.
  intros H. unfold store_markets.
  destruct batch as [|v batch]; [by destruct commit_ok|].
  rewrite store_loop_process_all by done. by destruct commit_ok.
Qed.

(** C1. For a batch of normalised records: when the commit fails the table
    is unchanged and 0 is returned; when it goes through, the table is the
    one reached by handling every record in turn, all writes landing
    together, and the value returned is the number of records that reached
    the write; that number is at most the size of the batch; and a record
    whose handling raises for want of a [market_id] is passed over, the
    call ending as it would without that record. *)
Theorem store_markets_batch (clock : nat → Z) (batch : list pyval)
    (db : list Market) :
  Forall normalised batch →
  store_markets clock false batch db = (db, 0)
  ∧ store_markets clock true batch db
    = (rows (process_all clock (records_of batch) (mkSession db 0)).1,
       written (process_all clock (records_of batch) (mkSession db 0)).2)
  ∧ length (process_all clock (records_of batch) (mkSession db 0)).2
    = length (records_of batch)
  ∧ 0 ≤ written (process_all clock (records_of batch) (mkSession db 0)).2
      ≤ Z.of_nat (length batch)
  ∧ (∀ commit_ok before d after,
       batch = before ++ PDict d :: after →
       d !! "market_id"%string = None →
       store_markets clock commit_ok batch db
       = store_markets clock commit_ok (before ++ after) db).
Proof.
  intros H. split; [|split; [|split; [|split]]].
  - by rewrite store_markets_loop.
  - by rewrite store_markets_loop.
  - apply process_all_flags.
  - pose proof (written_bounds
                  (process_all clock (records_of batch) (mkSession db 0)).2).
    rewrite process_all_flags in *.
    pose proof (records_of_length batch). lia.
  - intros commit_ok before d after -> Hd.
    assert (Forall normalised (before ++ after)) as H'.
    { apply Forall_app in H as [? H]. apply Forall_cons in H as [_ ?].
      by apply Forall_app. }
    rewrite !store_markets_loop by done.
    destruct commit_ok; [|done].
    rewrite (records_of_app before (PDict d :: after)).
    rewrite (records_of_app before after).
    change (PDict d :: after) with ([PDict d] ++ after).
    rewrite (records_of_app [PDict d] after).
    rewrite !process_all_app. cbn [fst snd]. rewrite !written_app.
    cbn [records_of].
    destruct (py_truthy (PDict d)); [|done].
    cbn [process_all]. rewrite process_record_no_market_id by done.
    cbn [fst snd app]. change (written [false]) with 0. by f_equal.
Qed.

(** Four entries on a table that holds market [m1]: the first record
    updates its row, [None] is passed over, the record without a
    [market_id] raises and is skipped, the last one is inserted; two records
    reached the write. *)
Lemma store_markets_batch_witness :
  Forall normalised sample_batch
  ∧ (store_markets (Sample.clock_from 5000) true sample_batch
       [Sample.btc_row]).2 = 2
  ∧ market_id <$> (store_markets (Sample.clock_from 5000) true sample_batch
                     [Sample.btc_row]).1 = [PStr "m1"; PStr "m2"]
  ∧ store_markets (Sample.clock_from 5000) false sample_batch [Sample.btc_row]
    = ([Sample.btc_row], 0).
Proof.
  assert (Forall normalised sample_batch) as H.
  { unfold sample_batch.
    repeat (apply Forall_cons; split); try (by apply Forall_nil);
      first [ by left | right; eexists; vm_compute; reflexivity ]. }
  destruct (store_markets_batch (Sample.clock_from 5000) sample_batch
              [Sample.btc_row] H) as (Hfail & Hok & _).
  split; [exact H|]. rewrite Hok, Hfail.
  vm_compute. repeat split; reflexivity.
Defined.

(** ** The store: running a batch again *)

Lemma merge_merge (j1 j2 : nat) (c1 c2 e : Market) :
  merge j2 c2 (merge j1 c1 e) = merge (j1 `max` j2) (merge j2 c2 c1) e.
Proof.
  unfold merge; simpl.
  f_equal; repeat case_match; try done;
    repeat match goal with
           | H : (_ <? _)%nat = true |- _ => apply Nat.ltb_lt in H
           | H : (_ <? _)%nat = false |- _ => apply Nat.ltb_ge in H
           end; lia.
Qed.

Lemma merge_0 (c e : Market) : merge 0 c e = e.
Proof. by destruct e. Qed.

(** A row that [merge J C] leaves as it is absorbs [merge J C] placed
    between two applications of any [merge j c]. *)
Lemma merge_absorb (j J : nat) (c C e : Market) :
  merge J C e = e →
  merge j c (merge J C (merge j c e)) = merge j c e.
Proof.
  destruct e. unfold merge; simpl. intros [= ? ? ? ? ? ? ?].
  f_equal; repeat case_match; congruence.
Qed.

Lemma merge_identity (j : nat) (c e : Market) :
  same_identity e (merge j c e) ∧ updated_at (merge j c e) = updated_at e.
Proof. by repeat split. Qed.

(** The update path assigns a prefix of the seven columns. *)
Lemma assign_columns_merge (d : pydict) :
  ∃ j c, ∀ e, assign_columns d e = merge j c e.
Proof.
  unfold assign_columns, update_existing, assign.
  destruct (d !! "yes_price"%string) as [y|];
    [|exists 0%nat, (mkMarket PNone PNone PNone PNone PNone PNone PNone PNone
                       PNone PNone PNone PNone 0 0); by intros []].
  destruct (d !! "no_price"%string) as [n|];
    [|exists 1%nat, (mkMarket PNone PNone PNone y PNone PNone PNone PNone
                       PNone PNone PNone PNone 0 0); by intros []].
  destruct (d !! "volume_24h"%string) as [v24|];
    [|exists 2%nat, (mkMarket PNone PNone PNone y n PNone PNone PNone
                       PNone PNone PNone PNone 0 0); by intros []].
  destruct (d !! "volume"%string) as [v|];
    [|exists 3%nat, (mkMarket PNone PNone PNone y n PNone v24 PNone
                       PNone PNone PNone PNone 0 0); by intros []].
  destruct (d !! "active"%string) as [a|];
    [|exists 4%nat, (mkMarket PNone PNone PNone y n v v24 PNone
                       PNone PNone PNone PNone 0 0); by intros []].
  destruct (d !! "resolved"%string) as [r|];
    [|exists 5%nat, (mkMarket PNone PNone PNone y n v v24 PNone
                       a PNone PNone PNone 0 0); by intros []].
  destruct (d !! "outcome"%string) as [o|];
    [|exists 6%nat, (mkMarket PNone PNone PNone y n v v24 PNone
                       a r PNone PNone 0 0); by intros []].
  exists 7%nat, (mkMarket PNone PNone PNone y n v v24 PNone a r o PNone 0 0).
  by intros [].
Qed.

Lemma assign_columns_market_id (d : pydict) (e : Market) :
  market_id (assign_columns d e) = market_id e.
Proof. by destruct (assign_columns_merge d) as (j & c & ->). Qed.

Lemma matches_market_id (d : pydict) (e e' : Market) :
  market_id e' = market_id e → matches d e' = matches d e.
Proof. unfold matches. by intros ->. Qed.

Lemma composite_merge (records : list pydict) (e0 : Market) :
  ∃ J C, ∀ e, market_id e = market_id e0 → composite records e = merge J C e.
Proof.
  induction records as [|d records (J & C & IH)].
  - exists 0%nat, e0. intros e _. by rewrite merge_0.
  - destruct (matches d e0) eqn:M.
    + destruct (assign_columns_merge d) as (j & c & Hd).
      exists (j `max` J)%nat, (merge J C c). intros e He.
      unfold composite. cbn [fold_left]. fold (composite records).
      rewrite (matches_market_id d e0 e He), M, Hd.
      rewrite IH by done. apply merge_merge.
    + exists J, C. intros e He.
      unfold composite. cbn [fold_left]. fold (composite records).
      rewrite (matches_market_id d e0 e He), M. by apply IH.
Qed.

Lemma composite_market_id (records : list pydict) (e : Market) :
  market_id (composite records e) = market_id e.
Proof.
  destruct (composite_merge records e) as (J & C & H). by rewrite H.
Qed.

Lemma composite_identity (records : list pydict) (e : Market) :
  same_identity e (composite records e)
  ∧ updated_at (composite records e) = updated_at e.
Proof.
  destruct (composite_merge records e) as (J & C & H). rewrite H by done.
  apply merge_identity.
Qed.

(** F1. A row the records so far leave as it is stays a fixed point once
    one more record has been applied to it. *)
Lemma composite_absorb (records : list pydict) (d : pydict) (e : Market) :
  composite records e = e →
  assign_columns d (composite records (assign_columns d e))
  = assign_columns d e.
Proof.
  intros H.
  destruct (composite_merge records e) as (J & C & HJ).
  destruct (assign_columns_merge d) as (j & c & Hd).
  rewrite HJ in H by done. rewrite !Hd, HJ by done.
  by apply merge_absorb.
Qed.

Lemma sql_eq_refl (key : pyval) :
  sql_bindable key = true → sql_eq key key = true.
Proof.
  destruct key; simpl; try done; intros _;
    rewrite ?andb_true_iff, ?bool_decide_eq_true; done.
Qed.

Lemma sql_eq_eq (a b : pyval) : sql_eq a b = true → a = b.
Proof.
  destruct a, b; simpl; try done;
    rewrite ?andb_true_iff, ?bool_decide_eq_true; try congruence.
  destruct q, q0; simpl. intros [-> ->]. done.
Qed.

Lemma record_key_Some (d : pydict) (key : pyval) :
  record_key d = Some key ↔
  d !! "market_id"%string = Some key ∧ sql_bindable key = true.
Proof.
  unfold record_key.
  destruct (d !! "market_id"%string) as [k|]; [|split; [done|by intros [? _]]].
  destruct (sql_bindable k) eqn:B; split.
  - by intros [= <-].
  - by intros [[= <-] _].
  - done.
  - intros [[= <-] ?]. congruence.
Qed.

Ltac open_new_market H :=
  unfold new_market in H;
  repeat (match type of H with
          | context [?d !! ?k] =>
              let E := fresh "E" in
              destruct (d !! k) as [?|] eqn:E; simpl in H; [|discriminate]
          end).

Lemma new_market_market_id (d : pydict) (t1 t2 : Z) (new : Market) :
  new_market d t1 t2 = Some new →
  d !! "market_id"%string = Some (market_id new).
Proof. intros H. open_new_market H. by injection H as <-. Qed.

Lemma new_market_times (d : pydict) (t1 t2 t2' : Z) :
  new_market d t1 t2' = set_updated_at t2' <$> new_market d t1 t2.
Proof.
  unfold new_market.
  repeat (match goal with
          | |- context [d !! ?k] => destruct (d !! k) as [?|]; simpl; [|done]
          end).
  done.
Qed.

Lemma new_market_is_Some (d : pydict) (t1 t2 t1' t2' : Z) :
  is_Some (new_market d t1 t2) → is_Some (new_market d t1' t2').
Proof.
  unfold new_market.
  repeat (match goal with
          | |- context [d !! ?k] =>
              destruct (d !! k) as [?|]; simpl; [|by intros [? [=]]]
          end).
  done.
Qed.

(** F2. A record that can be inserted, applied as an update to the row it
    would insert, gives that row back. *)
Lemma new_market_assign (d : pydict) (t1 t2 : Z) (new e : Market) :
  new_market d t1 t2 = Some new →
  no_null_defaults d →
  same_identity new e → updated_at e = updated_at new →
  assign_columns d e = new.
Proof.
  intros H (N1 & N2 & N3 & N4) (I1 & I2 & I3 & I4 & I5 & I6) U.
  open_new_market H. injection H as <-.
  unfold assign_columns, update_existing, assign.
  rewrite E2, E3, E4, E5, E6, E7, E8. simpl in *.
  destruct e; simpl in *; subst.
  cbv. f_equal; match goal with |- ?v = _ => destruct v; congruence end.
Qed.

Lemma rerun_nil (records : list pydict) : rerun records [] = [].
Proof.
  induction records as [|d records IH]; [done|].
  unfold rerun in *. cbn [fold_left]. unfold rerun_record at 2.
  by destruct (record_key d).
Qed.

Lemma rerun_app (r1 r2 : list pydict) (tbl : list Market) :
  rerun (r1 ++ r2) tbl = rerun r2 (rerun r1 tbl).
Proof. apply fold_left_app. Qed.

Lemma others_market_id (records : list pydict) (e e' : Market) :
  market_id e' = market_id e → others e' records = others e records.
Proof.
  intros H. unfold others. apply List.filter_ext. intros d.
  by rewrite (matches_market_id d e e' H).
Qed.

Lemma matches_key (d : pydict) (e : Market) (key : pyval) :
  record_key d = Some key → matches d e = sql_eq (market_id e) key.
Proof. unfold matches. by intros ->. Qed.

Lemma matches_no_key (d : pydict) (e : Market) :
  record_key d = None → matches d e = false.
Proof. unfold matches. by intros ->. Qed.

Lemma rerun_record_key (d : pydict) (key : pyval) (tbl : list Market) :
  record_key d = Some key →
  rerun_record d tbl = upsert key (assign_columns d) None tbl.
Proof. unfold rerun_record. by intros ->. Qed.

Lemma rerun_record_no_key (d : pydict) (tbl : list Market) :
  record_key d = None → rerun_record d tbl = tbl.
Proof. unfold rerun_record. by intros ->. Qed.

Lemma rerun_step (d : pydict) (records : list pydict) (tbl : list Market) :
  rerun (d :: records) tbl = rerun records (rerun_record d tbl).
Proof. done. Qed.

Lemma composite_step (d : pydict) (records : list pydict) (e : Market) :
  composite (d :: records) e
  = composite records (if matches d e then assign_columns d e else e).
Proof. done. Qed.

Lemma others_step (d : pydict) (records : list pydict) (e : Market) :
  others e (d :: records)
  = if matches d e then others e records else d :: others e records.
Proof. unfold others. cbn [List.filter]. by destruct (matches d e). Qed.

(** L1. Rerunning over a table works row by row: the head takes what the
    records matching it assign, the tail is rerun with the others. *)
Lemma rerun_cons (records : list pydict) (e : Market) (tbl : list Market) :
  rerun records (e :: tbl)
  = composite records e :: rerun (others e records) tbl.
Proof.
  revert e tbl. induction records as [|d records IH]; intros e tbl; [done|].
  rewrite rerun_step, composite_step, others_step.
  destruct (record_key d) as [key|] eqn:K.
  - rewrite (rerun_record_key d key) by done.
    rewrite (matches_key d e key) by done. cbn [upsert].
    destruct (sql_eq (market_id e) key) eqn:M.
    + rewrite IH.
      by rewrite (others_market_id records e _ (assign_columns_market_id d e)).
    + rewrite IH, rerun_step. by rewrite (rerun_record_key d key).
  - rewrite (rerun_record_no_key d) by done.
    rewrite (matches_no_key d e) by done.
    rewrite IH, rerun_step. by rewrite (rerun_record_no_key d).
Qed.

Lemma others_app (e : Market) (r1 r2 : list pydict) :
  others e (r1 ++ r2) = others e r1 ++ others e r2.
Proof. apply List.filter_app. Qed.

(** I. If rerunning the records handled so far leaves the table as it is,
    then so does rerunning them and [d] on the table after [d]. *)
Lemma rerun_first_record (tbl : list Market) (records : list pydict)
    (d : pydict) (t_created : Z) :
  no_null_defaults d →
  rerun records tbl = tbl →
  rerun (records ++ [d]) (first_record t_created d tbl)
  = first_record t_created d tbl.
Proof.
  intros N. rewrite rerun_app. unfold first_record.
  change (rerun [d] ?t) with (rerun_record d t).
  unfold rerun_record at 1.
  destruct (record_key d) as [key|] eqn:K; [|by intros ->].
  revert records. induction tbl as [|e tbl IH]; intros records H.
  - cbn [upsert]. destruct (new_market d t_created 0) as [new|] eqn:New.
    + rewrite rerun_cons, rerun_nil. cbn [upsert].
      apply record_key_Some in K as [K B].
      pose proof (new_market_market_id _ _ _ _ New) as Hid.
      assert (market_id new = key) as Hkey by congruence.
      rewrite composite_market_id, Hkey, sql_eq_refl by done.
      f_equal. destruct (composite_identity records new) as [? ?].
      by eapply new_market_assign.
    + by rewrite rerun_nil.
  - rewrite rerun_cons in H. injection H as He Htbl.
    cbn [upsert]. destruct (sql_eq (market_id e) key) eqn:M.
    + rewrite rerun_cons. cbn [upsert].
      rewrite composite_market_id, assign_columns_market_id, M.
      rewrite (others_market_id records e _ (assign_columns_market_id d e)).
      rewrite Htbl. f_equal. by apply composite_absorb.
    + rewrite rerun_cons. cbn [upsert].
      rewrite composite_market_id, M, He. f_equal. by apply IH.
Qed.

(** The lookup followed by update or insertion is [upsert]. *)
Lemma query_first_upsert (key : pyval) (f : Market → Market)
    (new : option Market) (tbl : list Market) :
  upsert key f new tbl
  = match query_first key tbl with
    | Some (i, existing) => <[i := f existing]> tbl
    | None => match new with Some m => tbl ++ [m] | None => tbl end
    end.
Proof.
  unfold query_first. induction tbl as [|e tbl IH]; cbn [upsert list_find].
  - by destruct new.
  - case_decide as D.
    + apply Is_true_true in D. by rewrite D.
    + apply Is_true_false in D. rewrite D, IH.
      destruct (list_find _ tbl) as [[i existing]|]; simpl; [done|].
      by destruct new.
Qed.

Lemma process_record_rows (clock : nat → Z) (d : pydict) (s : session) :
  rows (process_record clock d s).2
  = match record_key d with
    | Some key =>
        upsert key (λ e, (update_existing d (clock (tick s)) e).2)
          (new_market d (clock (tick s)) (clock (S (tick s)))) (rows s)
    | None => rows s
    end.
Proof.
  unfold process_record, record_key.
  destruct (d !! "market_id"%string) as [key|]; [|done].
  destruct (sql_bindable key); [|done].
  rewrite query_first_upsert.
  destruct (query_first key (rows s)) as [[i existing]|].
  - by destruct (update_existing d _ existing).
  - by destruct (new_market d _ _).
Qed.

Lemma untimed_update_existing (d : pydict) (now : Z) (e : Market) :
  untimed (update_existing d now e).2 = assign_columns d (untimed e).
Proof.
  unfold assign_columns, update_existing, assign.
  repeat match goal with
         | |- context [d !! ?k] => destruct (d !! k)
         end; by destruct e.
Qed.

Lemma upsert_fmap (key : pyval) (f g : Market → Market)
    (new : option Market) (tbl : list Market) :
  (∀ e, untimed (f e) = g (untimed e)) →
  untimed <$> upsert key f new tbl
  = upsert key g (untimed <$> new) (untimed <$> tbl).
Proof.
  intros H. induction tbl as [|e tbl IH]; cbn [upsert fmap list_fmap].
  - by destruct new.
  - change (market_id (untimed e)) with (market_id e).
    destruct (sql_eq (market_id e) key); cbn [fmap list_fmap].
    + by rewrite H.
    + by rewrite <- IH.
Qed.

Lemma process_record_untimed (clock : nat → Z) (d : pydict) (s : session) :
  untimed <$> rows (process_record clock d s).2
  = first_record (clock (tick s)) d (untimed <$> rows s).
Proof.
  rewrite process_record_rows. unfold first_record.
  destruct (record_key d) as [key|]; [|done].
  rewrite (upsert_fmap key _ (assign_columns d));
    [|intros e; apply untimed_update_existing].
  f_equal. rewrite (new_market_times d _ (clock (S (tick s))) 0).
  by destruct (new_market d _ _).
Qed.

(** Whether the loop is left by an exception depends on the batch alone. *)
Lemma store_loop_None (clock clock' : nat → Z) (batch : list pyval)
    (s s' : session) (n n' : Z) :
  store_loop clock batch s n = None → store_loop clock' batch s' n' = None.
Proof.
  revert s s' n n'. induction batch as [|v batch IH]; intros s s' n n'; simpl.
  - done.
  - destruct (py_truthy v); [|apply IH].
    destruct v; try done.
    destruct (process_record clock d s), (process_record clock' d s').
    apply IH.
Qed.

(** One turn of the loop that does not end in an exception. *)
Lemma store_loop_cons (clock : nat → Z) (v : pyval) (batch : list pyval)
    (s : session) (n : Z) (r : session * Z) :
  store_loop clock (v :: batch) s n = Some r →
  (records_of (v :: batch) = records_of batch
   ∧ store_loop clock batch s n = Some r)
  ∨ (∃ d, records_of (v :: batch) = d :: records_of batch
       ∧ store_loop clock batch (process_record clock d s).2
           (if (process_record clock d s).1 then n + 1 else n) = Some r).
Proof.
  cbn [store_loop records_of]. destruct (py_truthy v) eqn:T.
  - destruct v; try done. rewrite T.
    intros H. right. exists d. split; [done|].
    by destruct (process_record clock d s).
  - intros H. left. split; [|done]. destruct v; try done. by rewrite T.
Qed.

(** After the first run, rerunning the records leaves the table, blanked
    of its [updated_at], as it is. *)
Lemma store_loop_fixed_point (clock : nat → Z) (batch : list pyval)
    (done_ : list pydict) (s s' : session) (n n' : Z) :
  Forall no_null_defaults (records_of batch) →
  rerun done_ (untimed <$> rows s) = untimed <$> rows s →
  store_loop clock batch s n = Some (s', n') →
  rerun (done_ ++ records_of batch) (untimed <$> rows s')
  = untimed <$> rows s'.
Proof.
  revert done_ s n.
  induction batch as [|v batch IH]; intros done_ s n N Hfix.
  - intros [= <- _]. by rewrite app_nil_r.
  - intros [[Hrec H]|(d & Hrec & H)]%store_loop_cons; rewrite Hrec in *.
    + by eapply IH.
    + apply Forall_cons in N as [Nd N].
      rewrite (assoc_L _ done_ [d] _ : done_ ++ d :: _ = _).
      eapply IH; [done| |exact H].
      rewrite process_record_untimed. by apply rerun_first_record.
Qed.

Lemma upsert_has_key (key : pyval) (f : Market → Market)
    (new : option Market) (tbl : list Market) :
  has_key key tbl → upsert key f new tbl = upsert key f None tbl.
Proof.
  unfold has_key. induction 1 as [e tbl M|e tbl _ IH]; cbn [upsert].
  - by rewrite M.
  - destruct (sql_eq (market_id e) key); [done|by rewrite IH].
Qed.

Lemma has_key_upsert (k key : pyval) (f : Market → Market)
    (new : option Market) (tbl : list Market) :
  (∀ e, market_id (f e) = market_id e) →
  has_key k tbl → has_key k (upsert key f new tbl).
Proof.
  unfold has_key. intros Hf.
  induction 1 as [e tbl M|e tbl H IH]; cbn [upsert].
  - destruct (sql_eq (market_id e) key);
      apply Exists_cons_hd; by rewrite ?Hf.
  - destruct (sql_eq (market_id e) key); apply Exists_cons_tl; done.
Qed.

Lemma has_key_upsert_new (key : pyval) (f : Market → Market) (new : Market)
    (tbl : list Market) :
  (∀ e, market_id (f e) = market_id e) →
  sql_eq (market_id new) key = true →
  has_key key (upsert key f (Some new) tbl).
Proof.
  unfold has_key. intros Hf Hnew. induction tbl as [|e tbl IH]; cbn [upsert].
  - by apply Exists_cons_hd.
  - destruct (sql_eq (market_id e) key) eqn:M.
    + apply Exists_cons_hd. by rewrite Hf.
    + by apply Exists_cons_tl.
Qed.

Lemma first_record_settled (t_created : Z) (d : pydict) (tbl : list Market) :
  settled d tbl → first_record t_created d tbl = rerun_record d tbl.
Proof.
  unfold settled, first_record, rerun_record. intros H.
  destruct (record_key d) as [key|]; [|done].
  destruct (new_market d t_created 0) as [new|] eqn:New; [|done].
  apply upsert_has_key, H; [done|].
  apply (new_market_is_Some d t_created 0). by rewrite New.
Qed.

Lemma has_key_first_record (k : pyval) (t_created : Z) (d : pydict)
    (tbl : list Market) :
  has_key k tbl → has_key k (first_record t_created d tbl).
Proof.
  unfold first_record. destruct (record_key d); [|done].
  apply has_key_upsert, assign_columns_market_id.
Qed.

Lemma settled_first_record (t_created : Z) (d d' : pydict)
    (tbl : list Market) :
  settled d tbl → settled d (first_record t_created d' tbl).
Proof.
  unfold settled. intros H key K New. by apply has_key_first_record, H.
Qed.

Lemma settled_after (t_created : Z) (d : pydict) (tbl : list Market) :
  settled d (first_record t_created d tbl).
Proof.
  unfold settled, first_record. intros key K New. rewrite K.
  destruct (new_market_is_Some d 0 0 t_created 0 New) as [new Hnew].
  rewrite Hnew. apply has_key_upsert_new; [apply assign_columns_market_id|].
  apply record_key_Some in K as [K B].
  apply new_market_market_id in Hnew.
  assert (market_id new = key) as -> by congruence.
  by apply sql_eq_refl.
Qed.

(** After the first run every record of the batch is settled. *)
Lemma store_loop_settled (clock : nat → Z) (batch : list pyval)
    (s s' : session) (n n' : Z) :
  store_loop clock batch s n = Some (s', n') →
  ∀ seen,
    Forall (λ d, settled d (untimed <$> rows s)) seen →
    Forall (λ d, settled d (untimed <$> rows s')) (seen ++ records_of batch).
Proof.
  revert s n. induction batch as [|v batch IH]; intros s n.
  - intros [= <- _] seen H. by rewrite app_nil_r.
  - intros [[Hrec H]|(d & Hrec & H)]%store_loop_cons seen Hseen;
      rewrite Hrec.
    + by eapply IH.
    + rewrite (assoc_L _ seen [d] _ : seen ++ d :: _ = _).
      eapply IH; [exact H|]. rewrite process_record_untimed.
      apply Forall_app. split.
      * eapply Forall_impl; [exact Hseen|].
        intros d'. apply settled_first_record.
      * apply Forall_singleton, settled_after.
Qed.

(** A run over a table where every record is settled only updates. *)
Lemma store_loop_rerun (clock : nat → Z) (batch : list pyval)
    (s s' : session) (n n' : Z) :
  Forall (λ d, settled d (untimed <$> rows s)) (records_of batch) →
  store_loop clock batch s n = Some (s', n') →
  untimed <$> rows s' = rerun (records_of batch) (untimed <$> rows s).
Proof.
  revert s n. induction batch as [|v batch IH]; intros s n Hset.
  - by intros [= <- _].
  - intros [[Hrec H]|(d & Hrec & H)]%store_loop_cons; rewrite Hrec in *.
    + by eapply IH.
    + apply Forall_cons in Hset as [Hd Hrest].
      rewrite rerun_step.
      rewrite <- (first_record_settled (clock (tick s))) by done.
      rewrite <- process_record_untimed. eapply IH; [|exact H].
      rewrite process_record_untimed. eapply Forall_impl; [exact Hrest|].
      intros d'. apply settled_first_record.
Qed.

(** Idempotence up to [updated_at]. *)
Lemma store_markets_twice_untimed (clock1 clock2 : nat → Z)
    (batch : list pyval) (db : list Market) :
  Forall no_null_defaults (records_of batch) →
  untimed <$> (store_markets clock2 true batch
                 (store_markets clock1 true batch db).1).1
  = untimed <$> (store_markets clock1 true batch db).1.
Proof.
  intros N. unfold store_markets.
  destruct batch as [|v batch]; [done|].
  destruct (store_loop clock1 (v :: batch) (mkSession db 0) 0)
    as [[s1 n1]|] eqn:L1; cbn [fst].
  - destruct (store_loop clock2 (v :: batch) (mkSession (rows s1) 0) 0)
      as [[s2 n2]|] eqn:L2; cbn [fst]; [|done].
    pose proof (store_loop_fixed_point _ _ [] _ _ _ _ N eq_refl L1) as Hfix.
    pose proof (store_loop_settled _ _ _ _ _ _ L1 [] (Forall_nil_2 _)) as Hset.
    cbn [app] in Hfix, Hset.
    rewrite (store_loop_rerun clock2 (v :: batch) (mkSession (rows s1) 0)
               s2 0 n2 Hset L2).
    exact Hfix.
  - by rewrite (store_loop_None _ clock2 _ _ (mkSession db 0) _ 0 L1).
Qed.

(** ** The store: one row per market *)

Lemma elem_of_upsert (x key : pyval) (f : Market → Market)
    (new : option Market) (tbl : list Market) :
  (∀ e, market_id (f e) = market_id e) →
  x ∈ market_id <$> upsert key f new tbl →
  x ∈ market_id <$> tbl ∨ ∃ m, new = Some m ∧ x = market_id m.
Proof.
  intros Hf. induction tbl as [|e tbl IH]; cbn [upsert].
  - destruct new as [m|]; [|by left].
    intros ->%list_elem_of_singleton. right. by exists m.
  - destruct (sql_eq (market_id e) key).
    + cbn [fmap list_fmap]. rewrite Hf. by left.
    + cbn [fmap list_fmap]. rewrite !elem_of_cons.
      intros [->|H]; [by left; left|].
      destruct (IH H) as [?|?]; [left; by right|by right].
Qed.

Lemma upsert_NoDup (key : pyval) (f : Market → Market) (new : option Market)
    (tbl : list Market) :
  (∀ e, market_id (f e) = market_id e) →
  sql_bindable key = true →
  (∀ m, new = Some m → market_id m = key) →
  NoDup (market_id <$> tbl) → NoDup (market_id <$> upsert key f new tbl).
Proof.
  intros Hf B Hnew. induction tbl as [|e tbl IH]; cbn [upsert].
  - intros _. destruct new; [apply NoDup_singleton|apply NoDup_nil_2].
  - cbn [fmap list_fmap]. intros [Hnotin Hnodup]%NoDup_cons.
    destruct (sql_eq (market_id e) key) eqn:M; cbn [fmap list_fmap].
    + rewrite Hf. by apply NoDup_cons.
    + apply NoDup_cons. split; [|by apply IH].
      intros Hin. apply elem_of_upsert in Hin as [?|(m & -> & Hm)];
        [done| |done].
      rewrite (Hnew m eq_refl) in Hm. rewrite Hm, sql_eq_refl in M; done.
Qed.

Lemma process_record_NoDup (clock : nat → Z) (d : pydict) (s : session) :
  NoDup (market_id <$> rows s) →
  NoDup (market_id <$> rows (process_record clock d s).2).
Proof.
  rewrite process_record_rows.
  destruct (record_key d) as [key|] eqn:K; [|done].
  apply record_key_Some in K as [K B].
  apply upsert_NoDup; [|done|].
  - intros e. by destruct (update_existing_identity d (clock (tick s)) e).
  - intros m Hm. apply new_market_market_id in Hm. congruence.
Qed.

Lemma store_loop_NoDup (clock : nat → Z) (batch : list pyval)
    (s s' : session) (n n' : Z) :
  store_loop clock batch s n = Some (s', n') →
  NoDup (market_id <$> rows s) → NoDup (market_id <$> rows s').
Proof.
  revert s n. induction batch as [|v batch IH]; intros s n; simpl.
  - by intros [= <- _].
  - destruct (py_truthy v); [|apply IH].
    destruct v; try done.
    pose proof (process_record_NoDup clock d s) as Hstep.
    destruct (process_record clock d s) as [reached s1].
    intros H ?. eapply IH; [exact H|by apply Hstep].
Qed.

Lemma store_markets_NoDup (clock : nat → Z) (commit_ok : bool)
    (batch : list pyval) (db : list Market) :
  NoDup (market_id <$> db) →
  NoDup (market_id <$> (store_markets clock commit_ok batch db).1).
Proof.
  unfold store_markets. destruct batch as [|v batch]; [done|].
  destruct (store_loop clock (v :: batch) _ _) as [[s n]|] eqn:L; [|done].
  destruct commit_ok; [|done].
  intros H. by apply (store_loop_NoDup _ _ _ _ _ _ L).
Qed.

(** A record with all seven keys of the update assigns them all, [None]
    included, and stamps the row. *)
Lemma update_existing_complete (d : pydict) (now : Z) (e : Market)
    (y n v24 v a r o : pyval) :
  d !! "yes_price"%string = Some y → d !! "no_price"%string = Some n →
  d !! "volume_24h"%string = Some v24 → d !! "volume"%string = Some v →
  d !! "active"%string = Some a → d !! "resolved"%string = Some r →
  d !! "outcome"%string = Some o →
  update_existing d now e
  = (true, mkMarket (market_id e) (question e) (description e) y n v v24
             (liquidity e) a r o (end_date e) (created_at e) now).
Proof.
  intros. unfold update_existing, assign.
  by repeat match goal with H : d !! _ = Some _ |- _ => rewrite H; clear H end.
Qed.

(** Reconciling a market that is already stored. *)
Lemma store_markets_reconcile (clock : nat → Z) (db : list Market)
    (i : nat) (existing : Market) (d : pydict) (key y n v24 v a r o : pyval) :
  query_first key db = Some (i, existing) →
  d !! "market_id"%string = Some key → sql_bindable key = true →
  d !! "yes_price"%string = Some y → d !! "no_price"%string = Some n →
  d !! "volume_24h"%string = Some v24 → d !! "volume"%string = Some v →
  d !! "active"%string = Some a → d !! "resolved"%string = Some r →
  d !! "outcome"%string = Some o →
  store_markets clock true [PDict d] db
  = (<[i := mkMarket (market_id existing) (question existing)
                     (description existing) y n v v24 (liquidity existing)
                     a r o (end_date existing) (created_at existing)
                     (clock 0%nat)]> db, 1).
Proof.
  intros Q K B ? ? ? ? ? ? ?.
  unfold store_markets, store_loop.
  assert (py_truthy (PDict d) = true) as ->.
  { simpl. apply negb_true_iff, Nat.eqb_neq.
    by eapply map_size_ne_0_lookup_2. }
  unfold process_record. rewrite K, B. cbn [rows tick]. rewrite Q.
  by erewrite update_existing_complete.
Qed.

(** C5, as amended.  Running [store_markets] on the same batch twice in a
    row, both commits going through, leaves the table that one run leaves
    in every column except [updated_at], provided no record gives [None]
    for a column with an INSERT default; no second row is ever created for
    a [market_id]; and reconciling a stored market with a full record
    writes the new prices and the other six columns, stamps [updated_at]
    with the clock, and keeps the row, its place and its [market_id]. *)
Theorem store_markets_twice (clock1 clock2 : nat → Z) (batch : list pyval)
    (db : list Market) :
  Forall no_null_defaults (records_of batch) →
  untimed <$> (store_markets clock2 true batch
                 (store_markets clock1 true batch db).1).1
  = untimed <$> (store_markets clock1 true batch db).1
  ∧ (NoDup (market_id <$> db) →
     NoDup (market_id <$> (store_markets clock1 true batch db).1))
  ∧ (∀ i existing d key y n v24 v a r o,
       query_first key db = Some (i, existing) →
       d !! "market_id"%string = Some key → sql_bindable key = true →
       d !! "yes_price"%string = Some y → d !! "no_price"%string = Some n →
       d !! "volume_24h"%string = Some v24 → d !! "volume"%string = Some v →
       d !! "active"%string = Some a → d !! "resolved"%string = Some r →
       d !! "outcome"%string = Some o →
       store_markets clock1 true [PDict d] db
       = (<[i := mkMarket (market_id existing) (question existing)
                          (description existing) y n v v24
                          (liquidity existing) a r o (end_date existing)
                          (created_at existing) (clock1 0%nat)]> db, 1)).
Proof.
  intros N. split; [|split].
  - by apply store_markets_twice_untimed.
  - apply store_markets_NoDup.
  - intros. by eapply store_markets_reconcile.
Qed.

Lemma store_markets_twice_witness :
  Forall no_null_defaults (records_of sample_batch)
  ∧ untimed <$> (store_markets (Sample.clock_from 9000) true sample_batch
                   (store_markets (Sample.clock_from 5000) true sample_batch
                      [Sample.btc_row]).1).1
    = untimed <$> (store_markets (Sample.clock_from 5000) true sample_batch
                     [Sample.btc_row]).1.
Proof.
  assert (Forall no_null_defaults (records_of sample_batch)) as H.
  { repeat (apply Forall_cons; split); try (by apply Forall_nil);
      vm_compute; repeat split; discriminate. }
  split; [exact H|].
  exact (proj1 (store_markets_twice (Sample.clock_from 5000)
                  (Sample.clock_from 9000) sample_batch [Sample.btc_row] H)).
Defined.

(** C5 as stated fails: the second run stamps the rows again, so the
    table after two runs is not the table after one.  Market [m1] is stored,
    the batch is its own record; the first run reads the clock at 5000, the
    second at 9000. *)
Lemma store_markets_twice_restamps :
  updated_at <$> (store_markets (Sample.clock_from 5000) true
                    [Sample.extract_market_data Sample.btc_payload]
                    [Sample.btc_row]).1 = [5000]
  ∧ updated_at <$> (store_markets (Sample.clock_from 9000) true
                      [Sample.extract_market_data Sample.btc_payload]
                      (store_markets (Sample.clock_from 5000) true
                         [Sample.extract_market_data Sample.btc_payload]
                         [Sample.btc_row]).1).1 = [9000]
  ∧ (store_markets (Sample.clock_from 9000) true
       [Sample.extract_market_data Sample.btc_payload]
       (store_markets (Sample.clock_from 5000) true
          [Sample.extract_market_data Sample.btc_payload]
          [Sample.btc_row]).1).1
    ≠ (store_markets (Sample.clock_from 5000) true
         [Sample.extract_market_data Sample.btc_payload] [Sample.btc_row]).1.
Proof.
  split; [by vm_compute|]. split; [by vm_compute|].
  intros H. apply (f_equal (fmap updated_at)) in H.
  vm_compute in H. discriminate H.
Qed.

(** Why the amended statement asks for no [None] in a defaulted column: a
    new market whose record says [active: None] is inserted with the column
    default and then, on the second run, updated to [None]. *)
Example store_markets_twice_null_default :
  let record :=
    PDict (<["active"%string := PNone]>
             (default ∅ (extract_body Sample.json_loads Sample.float_of_str
                           Sample.eth_payload))) in
  active <$> (store_markets (Sample.clock_from 5000) true [record] []).1
  = [PBool true]
  ∧ active <$> (store_markets (Sample.clock_from 9000) true [record]
                  (store_markets (Sample.clock_from 5000) true [record] []).1).1
    = [PNone].
Proof. by vm_compute. Qed.

(** ** The store: fields the payload leaves out *)

(** C8 fails on a payload that leaves the prices out.  Market [m1] is
    stored with prices 0.65 and 0.35 and a 24 hour volume of 1500; the next
    page carries neither [outcomePrices] nor [volume24h].  The normaliser
    turns the gaps into [None] and 0, and the update of [store_markets]
    writes them over the stored values.  [update_market] of
    [src/models/crud.py], given the same [None] prices, keeps them. *)
Theorem store_markets_erases_omitted :
  Sample.fetch_and_store_markets
    (Sample.answers (PList [PDict Sample.btc_payload_without_prices]))
    (Sample.clock_from 5000) true [Sample.btc_row]
  = (true,
     [ {| market_id := PStr "m1";
          question := PStr "Will BITCOIN reach $100k?";
          description := PNone;
          yes_price := PNone;
          no_price := PNone;
          volume := PFloat (1000201 # 2);
          volume_24h := PInt 0;
          liquidity := PInt 0;
          active := PBool true;
          resolved := PBool false;
          outcome := PNone;
          end_date := PNone;
          created_at := 1000;
          updated_at := 5000 |} ])
  ∧ yes_price Sample.btc_row = PFloat (13 # 20)
  ∧ no_price Sample.btc_row = PFloat (7 # 20)
  ∧ volume_24h Sample.btc_row = PInt 1500
  ∧ Crud.update_market 5000 [Sample.btc_row] (PStr "m1")
      PNone PNone (PFloat (1000201 # 2)) PNone PNone PNone
    = Some [ {| market_id := PStr "m1";
                question := PStr "Will BITCOIN reach $100k?";
                description := PNone;
                yes_price := PFloat (13 # 20);
                no_price := PFloat (7 # 20);
                volume := PFloat (1000201 # 2);
                volume_24h := PInt 1500;
                liquidity := PInt 0;
                active := PBool true;
                resolved := PBool false;
                outcome := PNone;
                end_date := PNone;
                created_at := 1000;
                updated_at := 5000 |} ].
Proof. by vm_compute. Qed.

(** The sibling path in general: a column passed as [None] to
    [update_market] keeps its stored value, where the update of
    [store_markets] assigns whatever the record holds. *)
Lemma update_row_keeps_none (now : Z) (market : Market) :
  Crud.update_row now PNone PNone PNone PNone PNone PNone market
  = set_updated_at now market.
Proof. done. Qed.

(** ** The fetch client: what comes back *)

(** X1. Whatever the network does, [fetch_markets] hands back a value that
    has a length, and it is either the empty list or the body answered to
    the last attempt made; the trace ends on a request, never on a sleep,
    and the sleeps of one call add up to at most three seconds. *)
Theorem fetch_markets_result (net : nat → attempt_result) :
  is_Some (py_len (fetch_markets net).1)
  ∧ ((fetch_markets net).1 = PList []
     ∨ ∃ attempt,
         (attempt < MAX_RETRIES)%nat
         ∧ net attempt = Response (fetch_markets net).1
         ∧ last (fetch_markets net).2 = Some (Requested attempt))
  ∧ (∃ attempt, last (fetch_markets net).2 = Some (Requested attempt))
  ∧ 0 ≤ slept (fetch_markets net).2 ≤ 3.
Proof.
  unfold fetch_markets, MAX_RETRIES; simpl.
  repeat match goal with
  | |- context [match net ?k with _ => _ end] =>
      let b := fresh "b" in
      destruct (net k) as [b| | |] eqn:?; simpl;
      [destruct (py_len b) eqn:?| | |]
  end.
  all: (split; [by eauto|]).
  all: (split; [first [ by left
                      | right; exists 0%nat; by repeat split; try lia
                      | right; exists 1%nat; by repeat split; try lia
                      | right; exists 2%nat; by repeat split; try lia ]|]).
  all: (split; [by eauto|]).
  all: vm_compute; split; discriminate.
Qed.

(** ** The crypto filter: when it raises, and what it keeps *)

Lemma question_lower_text (market : pyval) :
  is_Some (question_lower market) ↔ text_question market.
Proof.
  unfold question_lower, text_question. split.
  - destruct market as [| | | | | |d]; try by intros [? [=]].
    destruct (d !! "question"%string) as [[| | | |q| |]|] eqn:E; simpl;
      try (by intros [? [=]]); intros _; exists d; eauto.
  - intros (d & -> & [->|[q ->]]); simpl; eauto.
Qed.

Lemma filter_loop_None (markets crypto_markets : list pyval) :
  filter_loop markets crypto_markets = None
  ↔ Exists (λ market, ¬ text_question market) markets.
Proof.
  revert crypto_markets.
  induction markets as [|market markets IH]; intros acc; simpl.
  - split; [done|by intros ?%Exists_nil].
  - rewrite Exists_cons, <- question_lower_text.
    destruct (question_lower market) as [q|]; simpl.
    + rewrite IH. split; [by right|].
      intros [H|H]; [by destruct H; eauto|done].
    + split; [|done]. intros _. left. by intros [? [=]].
Qed.

Lemma filter_loop_Some (markets crypto_markets kept : list pyval) :
  filter_loop markets crypto_markets = Some kept → Forall text_question markets.
Proof.
  intros H. apply Forall_forall. intros market Hin.
  destruct (question_lower market) eqn:E;
    [apply question_lower_text; by eauto|].
  assert (filter_loop markets crypto_markets = None) as N; [|congruence].
  apply filter_loop_None, Exists_exists. exists market. split; [done|].
  rewrite <- question_lower_text, E. by intros [? [=]].
Qed.

(** X2. [filter_crypto_markets] raises exactly when the page holds an
    entry that is no object or whose question is there but is not text;
    one such entry is enough, wherever it stands and whatever the other
    payloads are. *)
Theorem filter_crypto_markets_raises (markets : list pyval) :
  filter_crypto_markets markets = None
  ↔ Exists (λ market, ¬ text_question market) markets.
Proof. apply filter_loop_None. Qed.

Lemma filter_filter {A} (f : A → bool) (l : list A) :
  List.filter f (List.filter f l) = List.filter f l.
Proof.
  induction l as [|x l IH]; simpl; [done|].
  destruct (f x) eqn:E; simpl; by rewrite ?E, ?IH.
Qed.

Lemma Forall_filter_list {A} (P : A → Prop) (f : A → bool) (l : list A) :
  Forall P l → Forall P (List.filter f l).
Proof.
  induction 1 as [|x l ? ? IH]; simpl; [done|].
  destruct (f x); [by constructor|done].
Qed.

Lemma filter_crypto_markets_kept (markets kept : list pyval) :
  filter_crypto_markets markets = Some kept →
  kept = List.filter mentions_crypto markets
  ∧ Forall text_question markets
  ∧ Forall crypto_payload kept.
Proof.
  unfold filter_crypto_markets. intros H.
  pose proof (filter_loop_Some _ _ _ H) as T.
  rewrite filter_loop_spec in H by done. injection H as <-.
  repeat split; [done|].
  apply Forall_forall. intros market Hin.
  apply list_elem_of_In, filter_In in Hin as [_ Hin].
  by apply mentions_crypto_spec.
Qed.

(** X3. What the filter returns, it returns again: every payload it kept
    is an object whose question names a crypto keyword, the kept payloads
    come from the page in their order, and filtering the result a second
    time changes nothing. *)
Theorem filter_crypto_markets_again (markets kept : list pyval) :
  filter_crypto_markets markets = Some kept →
  Forall crypto_payload kept
  ∧ sublist kept markets
  ∧ filter_crypto_markets kept = Some kept.
Proof.
  intros H. destruct (filter_crypto_markets_kept _ _ H) as (-> & T & C).
  split; [done|]. split; [apply sublist_filter|].
  unfold filter_crypto_markets.
  rewrite filter_loop_spec by by apply Forall_filter_list.
  by rewrite filter_filter.
Qed.

Lemma filter_crypto_markets_again_witness :
  filter_crypto_markets
    [PDict Sample.rain_payload; PDict Sample.eth_payload;
     PDict Sample.btc_payload]
  = Some [PDict Sample.eth_payload; PDict Sample.btc_payload]
  ∧ filter_crypto_markets [PDict Sample.eth_payload; PDict Sample.btc_payload]
    = Some [PDict Sample.eth_payload; PDict Sample.btc_payload].
Proof.
  assert (filter_crypto_markets
            [PDict Sample.rain_payload; PDict Sample.eth_payload;
             PDict Sample.btc_payload]
          = Some [PDict Sample.eth_payload; PDict Sample.btc_payload]) as H
    by reflexivity.
  split; [exact H|].
  exact (proj2 (proj2 (filter_crypto_markets_again _ _ H))).
Defined.
(** ** The normaliser: prices and the shape of a record *)

Section NormaliserPrices.
Variable json_loads : string → option pyval.
Variable float_of_str : string → option Q.

Lemma price_at_falsy (outcome_prices : pyval) (i : nat) :
  py_truthy outcome_prices = false →
  price_at float_of_str outcome_prices i = Some PNone.
Proof. unfold price_at. by intros ->. Qed.

Lemma price_at_list (prices : list pyval) (i : nat) :
  price_at float_of_str (PList prices) i
  = match prices !! i with
    | Some x => PFloat <$> py_float float_of_str x
    | None => Some PNone
    end.
Proof.
  unfold price_at. simpl.
  destruct prices as [|p prices]; simpl; [done|].
  case_bool_decide as Hlt.
  - destruct (lookup_lt_is_Some_2 (p :: prices) i) as [x Hx];
      [simpl; lia|].
    rewrite Hx. simpl. by destruct (py_float float_of_str x).
  - rewrite (lookup_ge_None_2 (p :: prices) i) by (simpl in *; lia). done.
Qed.

(** X4. The prices of a record are read off the decoded [outcomePrices]
    by position: a value Python counts as false (absent, [null], an empty
    list or text) gives no prices; a list of one entry gives the yes price
    only; from two entries on the first is the yes price and the second the
    no price, the entries after them being ignored. *)
Theorem extract_market_data_prices (market record : pydict) :
  extract_market_data json_loads float_of_str market = PDict record →
  (py_truthy (outcome_prices_of json_loads market) = false →
   record !! "yes_price"%string = Some PNone
   ∧ record !! "no_price"%string = Some PNone)
  ∧ (∀ x, outcome_prices_of json_loads market = PList [x] →
       ∃ q, py_float float_of_str x = Some q
         ∧ record !! "yes_price"%string = Some (PFloat q)
         ∧ record !! "no_price"%string = Some PNone)
  ∧ (∀ x y rest, outcome_prices_of json_loads market = PList (x :: y :: rest) →
       ∃ qx qy,
         py_float float_of_str x = Some qx
         ∧ py_float float_of_str y = Some qy
         ∧ record !! "yes_price"%string = Some (PFloat qx)
         ∧ record !! "no_price"%string = Some (PFloat qy)).
Proof.
  intros H.
  apply extract_market_data_record in H
    as (yes & no & v24 & v & Hy & Hn & _ & _ & _ & -> & -> & _).
  split; [|split].
  - intros F. rewrite price_at_falsy in Hy, Hn by done. by split.
  - intros x E. rewrite E, price_at_list in Hy, Hn. simpl in *.
    destruct (py_float float_of_str x) as [q|]; [|done].
    exists q. simpl in Hy. by repeat split.
  - intros x y rest E. rewrite E, price_at_list in Hy, Hn. simpl in *.
    destruct (py_float float_of_str x) as [qx|]; [|done].
    destruct (py_float float_of_str y) as [qy|]; [|done].
    exists qx, qy. simpl in *. by repeat split.
Qed.

(** X5. Prices that are missing, or sent as text [json.loads] cannot
    decode, count as an empty list and cost nothing; but one of the first
    two entries of the list being something [float] rejects, or the decoded
    value being a true one without a length (a number, [true]), makes the
    whole payload normalise to [None]: no default stands in for a bad
    price. *)
Theorem extract_market_data_bad_prices (market : pydict) :
  (market !! "outcomePrices"%string = None
   ∨ (∃ s, market !! "outcomePrices"%string = Some (PStr s)
        ∧ json_loads s = None) →
   outcome_prices_of json_loads market = PList [])
  ∧ (∀ prices i x,
       outcome_prices_of json_loads market = PList prices →
       (i < 2)%nat → prices !! i = Some x →
       py_float float_of_str x = None →
       extract_market_data json_loads float_of_str market = PNone)
  ∧ (py_truthy (outcome_prices_of json_loads market) = true →
     py_len (outcome_prices_of json_loads market) = None →
     extract_market_data json_loads float_of_str market = PNone).
Proof.
  split; [|split].
  - unfold outcome_prices_of. intros [->|(s & -> & H)]; simpl; [done|].
    by rewrite H.
  - intros prices i x E Hi Hx Hf.
    apply extract_market_data_null. unfold extract_body.
    rewrite E, !price_at_list.
    destruct i as [|[|?]]; [| |lia]; rewrite Hx, Hf; simpl; [done|].
    by destruct (prices !! 0%nat) as [p|]; simpl;
      [destruct (py_float float_of_str p)|].
  - intros T L. apply extract_market_data_null. unfold extract_body, price_at.
    by rewrite T, L.
Qed.

Lemma extract_body_lookup (market record : pydict) (key : string) :
  extract_body json_loads float_of_str market = Some record →
  is_Some (record !! key) ↔ key ∈ RECORD_KEYS.
Proof.
  unfold extract_body, RECORD_KEYS. intros H.
  destruct (price_at _ _ 0); simpl in H; [|done].
  destruct (price_at _ _ 1); simpl in H; [|done].
  destruct (volume_of _ _ "volume24h"); simpl in H; [|done].
  destruct (volume_of _ _ "volume"); simpl in H; [|done].
  injection H as <-.
  rewrite !lookup_insert_is_Some', lookup_empty, !elem_of_cons, elem_of_nil.
  split; intros H.
  - repeat (destruct H as [<-|H]; [tauto|]). by destruct H.
  - repeat (destruct H as [->|H]; [tauto|]). by destruct H.
Qed.

Lemma extract_market_data_fields (market record : pydict) :
  extract_market_data json_loads float_of_str market = PDict record →
  record !! "market_id"%string = Some (payload_id market)
  ∧ record !! "question"%string
    = Some (default (PStr "Unknown") (market !! "question"%string))
  ∧ record !! "active"%string
    = Some (default (PBool true) (market !! "active"%string))
  ∧ record !! "resolved"%string
    = Some (default (PBool false) (market !! "resolved"%string))
  ∧ record !! "end_date"%string
    = Some (default PNone (market !! "endDate"%string)).
Proof.
  intros H.
  apply extract_market_data_record in H as (y & n & v24 & v & H).
  destruct H as (_ & _ & _ & _ & H & _).
  unfold extract_body in H.
  destruct (price_at _ _ 0); simpl in H; [|done].
  destruct (price_at _ _ 1); simpl in H; [|done].
  destruct (volume_of _ _ "volume24h"); simpl in H; [|done].
  destruct (volume_of _ _ "volume"); simpl in H; [|done].
  injection H as <-. unfold payload_id. by simplify_map_eq.
Qed.

Ltac have_key K k :=
  let v := fresh "v" in
  destruct (K k) as [v ?]; [apply list_elem_of_In; simpl; tauto|].

(** A normalised record is not empty and holds every key the store
    reads. *)
Lemma extract_market_data_complete (market record : pydict) :
  extract_market_data json_loads float_of_str market = PDict record →
  py_truthy (PDict record) = true
  ∧ (∀ t_created t_updated, is_Some (new_market record t_created t_updated))
  ∧ (∀ now existing, (update_existing record now existing).1 = true).
Proof.
  intros H.
  apply extract_market_data_record in H as (y & n & v24 & v & H).
  destruct H as (_ & _ & _ & _ & H & _).
  assert (∀ key, key ∈ RECORD_KEYS → is_Some (record !! key)) as K
    by (intros key ?; by apply (extract_body_lookup market record)).
  unfold RECORD_KEYS in K.
  have_key K "market_id"%string. have_key K "question"%string.
  have_key K "description"%string. have_key K "yes_price"%string.
  have_key K "no_price"%string. have_key K "volume_24h"%string.
  have_key K "volume"%string. have_key K "active"%string.
  have_key K "resolved"%string. have_key K "outcome"%string.
  split; [|split].
  - simpl. apply negb_true_iff, Nat.eqb_neq.
    by eapply map_size_ne_0_lookup_2.
  - intros t1 t2. unfold new_market.
    repeat match goal with E : record !! _ = Some _ |- _ =>
             rewrite E; clear E
           end.
    simpl. eauto.
  - intros now existing. by erewrite update_existing_complete.
Qed.

(** X6. A record that comes out of [extract_market_data] has exactly the
    eleven keys of the normalised form, whatever the payload held: the id
    under [market_id] ([None] without one), the question or ["Unknown"],
    [active] and [resolved] defaulting to [True] and [False].  Such a record
    is never passed over by [store_markets] as empty, and neither the
    insert nor the update can miss a key in it. *)
Theorem extract_market_data_keys (market record : pydict) :
  extract_market_data json_loads float_of_str market = PDict record →
  (∀ key, is_Some (record !! key) ↔ key ∈ RECORD_KEYS)
  ∧ record !! "market_id"%string = Some (payload_id market)
  ∧ record !! "question"%string
    = Some (default (PStr "Unknown") (market !! "question"%string))
  ∧ record !! "active"%string
    = Some (default (PBool true) (market !! "active"%string))
  ∧ record !! "resolved"%string
    = Some (default (PBool false) (market !! "resolved"%string))
  ∧ record !! "end_date"%string
    = Some (default PNone (market !! "endDate"%string))
  ∧ py_truthy (PDict record) = true
  ∧ (∀ t_created t_updated, is_Some (new_market record t_created t_updated))
  ∧ (∀ now existing, (update_existing record now existing).1 = true).
Proof.
  intros H.
  destruct (extract_market_data_fields market record H)
    as (F1 & F2 & F3 & F4 & F5).
  destruct (extract_market_data_complete market record H) as (T & N & U).
  split; [|by repeat split].
  intros key.
  apply extract_market_data_record in H as (y & n & v24 & v & H).
  destruct H as (_ & _ & _ & _ & H & _).
  by apply (extract_body_lookup market record).
Qed.

End NormaliserPrices.

(** A payload with two prices sent as a list of text. *)
Lemma extract_market_data_prices_witness :
  ∃ qx qy,
    py_float Sample.float_of_str (PStr "0.58") = Some qx
    ∧ py_float Sample.float_of_str (PStr "0.42") = Some qy
    ∧ default ∅ (extract_body Sample.json_loads Sample.float_of_str
                   Sample.eth_payload) !! "yes_price"%string
      = Some (PFloat qx)
    ∧ default ∅ (extract_body Sample.json_loads Sample.float_of_str
                   Sample.eth_payload) !! "no_price"%string
      = Some (PFloat qy).
Proof.
  assert (Sample.extract_market_data Sample.eth_payload
          = PDict (default ∅ (extract_body Sample.json_loads
                                Sample.float_of_str Sample.eth_payload))) as R
    by (vm_compute; reflexivity).
  destruct (extract_market_data_prices Sample.json_loads Sample.float_of_str
              Sample.eth_payload _ R) as (_ & _ & H).
  exact (H (PStr "0.58") (PStr "0.42") [] eq_refl).
Defined.

(** A payload that has an id and a volume, and nothing else. *)
Lemma extract_market_data_keys_witness :
  default ∅ (extract_body Sample.json_loads Sample.float_of_str
               Sample.untitled_payload) !! "question"%string
  = Some (default (PStr "Unknown")
            (Sample.untitled_payload !! "question"%string)).
Proof.
  assert (Sample.extract_market_data Sample.untitled_payload
          = PDict (default ∅ (extract_body Sample.json_loads
                                Sample.float_of_str Sample.untitled_payload)))
    as R by (vm_compute; reflexivity).
  destruct (extract_market_data_keys Sample.json_loads Sample.float_of_str
              Sample.untitled_payload _ R) as (_ & _ & H & _).
  exact H.
Defined.
(** ** The store and the normaliser together *)

Lemma process_record_reached (clock : nat → Z) (d : pydict) (s : session)
    (key : pyval) :
  d !! "market_id"%string = Some key → sql_bindable key = true →
  (∀ t_created t_updated, is_Some (new_market d t_created t_updated)) →
  (∀ now existing, (update_existing d now existing).1 = true) →
  (process_record clock d s).1 = true.
Proof.
  intros K B N U. unfold process_record. rewrite K, B.
  destruct (query_first key (rows s)) as [[i existing]|].
  - specialize (U (clock (tick s)) existing).
    by destruct (update_existing d (clock (tick s)) existing).
  - by destruct (N (clock (tick s)) (clock (S (tick s)))) as [new ->].
Qed.

Lemma process_all_reached (clock : nat → Z) (records : list pydict)
    (s : session) :
  Forall (λ d, ∀ s', (process_record clock d s').1 = true) records →
  written (process_all clock records s).2 = Z.of_nat (length records).
Proof.
  intros H. revert s. induction H as [|d records Hd _ IH]; intros s; [done|].
  cbn [process_all]. specialize (Hd s).
  destruct (process_record clock d s) as [reached s1]. simpl in Hd. subst.
  specialize (IH s1). destruct (process_all clock records s1) as [s2 flags].
  unfold written in *. cbn [snd List.filter id length] in *. lia.
Qed.

Lemma store_markets_rollback (clock : nat → Z) (batch : list pyval)
    (db : list Market) :
  store_markets clock false batch db = (db, 0).
Proof.
  unfold store_markets. destruct batch as [|v batch]; [done|].
  by destruct (store_loop clock (v :: batch) _ _) as [[? ?]|].
Qed.

Section StoreNormalised.
Variable json_loads : string → option pyval.
Variable float_of_str : string → option Q.

Lemma storable_records (clock : nat → Z) (batch : list pyval) :
  Forall (storable json_loads float_of_str) batch →
  Forall normalised batch
  ∧ length (records_of batch) = length batch
  ∧ Forall (λ d, ∀ s, (process_record clock d s).1 = true) (records_of batch).
Proof.
  induction 1 as [|v batch (market & record & E & -> & B) _ (IH1 & IH2 & IH3)];
    [done|].
  destruct (extract_market_data_fields json_loads float_of_str market record E)
    as (K & _).
  destruct (extract_market_data_complete json_loads float_of_str market record
              E) as (T & N & U).
  split; [|split].
  - constructor; [right; by eexists|done].
  - cbn [records_of]. rewrite T. simpl. by rewrite IH2.
  - cbn [records_of]. rewrite T. constructor; [|done].
    intros s. by eapply process_record_reached.
Qed.

(** X7. Every record the normaliser produced for a payload whose id can
    be bound as a query parameter reaches the write: on a batch of such
    records [store_markets] returns the size of the batch when the commit
    goes through, and 0 with the table untouched when it does not. *)
Theorem store_markets_counts_all (clock : nat → Z) (batch : list pyval)
    (db : list Market) :
  Forall (storable json_loads float_of_str) batch →
  (store_markets clock true batch db).2 = Z.of_nat (length batch)
  ∧ store_markets clock false batch db = (db, 0).
Proof.
  intros H. split; [|apply store_markets_rollback].
  destruct (storable_records clock batch H) as (N & L & R).
  rewrite store_markets_loop by done. cbn [snd].
  rewrite process_all_reached by done. by rewrite L.
Qed.

End StoreNormalised.

Lemma store_markets_counts_all_witness :
  (store_markets (Sample.clock_from 5000) true
     [Sample.extract_market_data Sample.btc_payload;
      Sample.extract_market_data Sample.eth_payload;
      Sample.extract_market_data Sample.btc_payload_without_prices]
     [Sample.btc_row]).2 = 3.
Proof.
  apply (store_markets_counts_all Sample.json_loads Sample.float_of_str
           (Sample.clock_from 5000)
           [Sample.extract_market_data Sample.btc_payload;
            Sample.extract_market_data Sample.eth_payload;
            Sample.extract_market_data Sample.btc_payload_without_prices]
           [Sample.btc_row]).
  repeat (apply Forall_cons; split); try (by apply Forall_nil).
  - exists Sample.btc_payload,
      (default ∅ (extract_body Sample.json_loads Sample.float_of_str
                    Sample.btc_payload)).
    repeat split; reflexivity.
  - exists Sample.eth_payload,
      (default ∅ (extract_body Sample.json_loads Sample.float_of_str
                    Sample.eth_payload)).
    repeat split; reflexivity.
  - exists Sample.btc_payload_without_prices,
      (default ∅ (extract_body Sample.json_loads Sample.float_of_str
                    Sample.btc_payload_without_prices)).
    repeat split; reflexivity.
Defined.

(** ** The store: rows found again *)

Lemma has_key_untimed (key : pyval) (tbl : list Market) :
  has_key key (untimed <$> tbl) ↔ has_key key tbl.
Proof. unfold has_key. by rewrite Exists_fmap. Qed.

(** X8. After a [store_markets] whose commit goes through, every record
    of the batch that has a bindable [market_id] and the ten keys of the
    insert is in the table: a row carries its [market_id]. *)
Theorem store_markets_finds_records (clock : nat → Z) (batch : list pyval)
    (db : list Market) (d : pydict) (key : pyval) :
  Forall normalised batch →
  d ∈ records_of batch →
  d !! "market_id"%string = Some key → sql_bindable key = true →
  is_Some (new_market d 0 0) →
  ∃ row, row ∈ (store_markets clock true batch db).1 ∧ market_id row = key.
Proof.
  intros N Hin K B New.
  assert (has_key key (store_markets clock true batch db).1) as H.
  { unfold store_markets. destruct batch as [|v batch]; [by inversion Hin|].
    pose proof (store_loop_process_all clock (v :: batch) (mkSession db 0) 0 N)
      as L.
    rewrite L. cbn [fst].
    pose proof (store_loop_settled _ _ _ _ _ _ L []) as S.
    specialize (S (Forall_nil_2 _)). cbn [app] in S.
    rewrite Forall_forall in S. specialize (S d Hin key).
    apply has_key_untimed, S; [|done].
    by apply record_key_Some. }
  apply Exists_exists in H as (row & ? & E).
  exists row. split; [done|by apply sql_eq_eq].
Qed.

Lemma store_markets_finds_records_witness :
  ∃ row,
    row ∈ (store_markets (Sample.clock_from 5000) true sample_batch
             [Sample.btc_row]).1
    ∧ market_id row = PStr "m2".
Proof.
  apply (store_markets_finds_records (Sample.clock_from 5000) sample_batch
           [Sample.btc_row]
           (default ∅ (extract_body Sample.json_loads Sample.float_of_str
                         Sample.eth_payload))).
  - unfold sample_batch.
    repeat (apply Forall_cons; split); try (by apply Forall_nil);
      first [ by left | right; eexists; reflexivity ].
  - apply (list_elem_of_lookup_2 _ 2%nat). reflexivity.
  - reflexivity.
  - reflexivity.
  - eexists. reflexivity.
Defined.
(** ** One cycle: the flag it returns and the rows it adds *)

Lemma crypto_payload_dict (market : pyval) :
  crypto_payload market → ∃ d : pydict, market = PDict d.
Proof. intros (d & _ & _ & -> & _). by exists d. Qed.

Lemma py_iter_truthy (markets : pyval) (payloads kept : list pyval) :
  py_iter markets = Some payloads →
  filter_crypto_markets payloads = Some kept → kept ≠ [] →
  py_truthy markets = true.
Proof.
  intros I F K.
  assert (payloads ≠ []) as P by (intros ->; by injection F as <-).
  destruct markets as [| | | |s|l|d]; try done; simpl in *;
    injection I as <-.
  - destruct s; [done|]. simpl. first [done|by case_bool_decide].
  - by destruct l.
  - destruct (decide (size d = 0%nat)) as [E|E].
    + apply map_size_empty_inv in E as ->. by rewrite map_to_list_empty in P.
    + by apply negb_true_iff, Nat.eqb_neq.
Qed.

Section CycleFacts.
Variable json_loads : string → option pyval.
Variable float_of_str : string → option Q.

Lemma extract_loop_spec (kept market_data_list : list pyval) :
  Forall crypto_payload kept →
  extract_loop json_loads float_of_str kept market_data_list
  = Some (market_data_list ++ extracted json_loads float_of_str kept).
Proof.
  intros H. revert market_data_list.
  induction H as [|v kept Hv _ IH]; intros acc.
  - by rewrite app_nil_r.
  - destruct (crypto_payload_dict _ Hv) as [d ->].
    cbn [extract_loop]. rewrite IH. unfold extracted.
    cbn [fmap list_fmap List.filter].
    destruct (py_truthy (extract_market_data json_loads float_of_str d));
      [by rewrite <- app_assoc|done].
Qed.

Lemma cycle_kept (net : nat → attempt_result) (clock : nat → Z)
    (commit_ok : bool) (db : list Market) (payloads kept : list pyval) :
  py_iter (fetch_markets net).1 = Some payloads →
  filter_crypto_markets payloads = Some kept → kept ≠ [] →
  fetch_and_store_markets json_loads float_of_str net clock commit_ok db
  = (true, (store_markets clock commit_ok
            (extracted json_loads float_of_str kept) db).1).
Proof.
  intros I F K. unfold fetch_and_store_markets, cycle_body.
  rewrite (py_iter_truthy _ _ _ I F K), I. simpl. rewrite F. simpl.
  destruct kept as [|v kept]; [done|].
  rewrite extract_loop_spec; simpl.
  - by destruct (store_markets clock commit_ok _ db).
  - by destruct (filter_crypto_markets_kept _ _ F) as (_ & _ & ?).
Qed.

End CycleFacts.
(** ** The store: rows added, rows stamped *)

Lemma new_market_fields (d : pydict) (t1 t2 : Z) (new : Market) :
  new_market d t1 t2 = Some new →
  d !! "market_id"%string = Some (market_id new)
  ∧ d !! "question"%string = Some (question new)
  ∧ d !! "description"%string = Some (description new)
  ∧ liquidity new = PInt 0
  ∧ end_date new = PNone
  ∧ created_at new = t1
  ∧ updated_at new = t2.
Proof. intros H. open_new_market H. by injection H as <-. Qed.

Lemma update_existing_updated_at (d : pydict) (now : Z) (e : Market) :
  updated_at (update_existing d now e).2
  = if (update_existing d now e).1 then now else updated_at e.
Proof.
  unfold update_existing, assign.
  repeat match goal with
         | |- context [d !! ?k] => destruct (d !! k)
         end; done.
Qed.

(** What handling one record does to the session: nothing, one row
    rewritten in place, or one row appended. *)
Lemma process_record_cases (clock : nat → Z) (d : pydict) (s : session) :
  (process_record clock d s = (false, s))
  ∨ (∃ i e,
       rows s !! i = Some e
       ∧ process_record clock d s
         = ((update_existing d (clock (tick s)) e).1,
            {| rows := <[i := (update_existing d (clock (tick s)) e).2]> (rows s);
               tick := if (update_existing d (clock (tick s)) e).1
                       then S (tick s) else tick s |}))
  ∨ (∃ new,
       new_market d (clock (tick s)) (clock (S (tick s))) = Some new
       ∧ process_record clock d s
         = (true, {| rows := rows s ++ [new]; tick := S (S (tick s)) |})).
Proof.
  unfold process_record.
  destruct (d !! "market_id"%string) as [key|]; [|by left].
  destruct (sql_bindable key); [|by left].
  unfold query_first.
  destruct (list_find _ (rows s)) as [[i e]|] eqn:F.
  - right; left. exists i, e.
    apply list_find_Some in F as (Hi & _ & _). split; [done|].
    by destruct (update_existing d (clock (tick s)) e).
  - destruct (new_market d _ _) as [new|] eqn:N; [|by left].
    right; right. by exists new.
Qed.

(** A relation that holds across every step of the loop holds across the
    loop. *)
Lemma store_loop_steps (R : session → Z → session → Z → Prop)
    (clock : nat → Z) (batch : list pyval) :
  (∀ s n, R s n s n) →
  (∀ s1 n1 s2 n2 s3 n3, R s1 n1 s2 n2 → R s2 n2 s3 n3 → R s1 n1 s3 n3) →
  (∀ d s n, PDict d ∈ batch →
     R s n (process_record clock d s).2
       (if (process_record clock d s).1 then n + 1 else n)) →
  ∀ s n s' n', store_loop clock batch s n = Some (s', n') → R s n s' n'.
Proof.
  intros Hrefl Htrans.
  induction batch as [|v batch IH]; intros Hstep s n s' n'; simpl.
  - intros [= <- <-]. apply Hrefl.
  - assert (∀ d s n, PDict d ∈ batch →
              R s n (process_record clock d s).2
                (if (process_record clock d s).1 then n + 1 else n)) as Hrest
      by (intros; apply Hstep; by right).
    destruct (py_truthy v); [|by apply IH].
    destruct v as [| | | | | |d]; try done.
    pose proof (Hstep d s n ltac:(by left)) as H1.
    destruct (process_record clock d s) as [reached s1]. simpl in H1.
    intros H. eapply Htrans; [exact H1|by apply IH].
Qed.

Lemma store_markets_cases (clock : nat → Z) (commit_ok : bool)
    (batch : list pyval) (db : list Market) :
  store_markets clock commit_ok batch db = (db, 0)
  ∨ ∃ s n,
      store_loop clock batch (mkSession db 0) 0 = Some (s, n)
      ∧ store_markets clock commit_ok batch db = (rows s, n).
Proof.
  unfold store_markets. destruct batch as [|v batch]; [by left|].
  destruct (store_loop clock (v :: batch) _ _) as [[s n]|]; [|by left].
  destruct commit_ok; [|by left]. right. by exists s, n.
Qed.

(** The rows past the first [length (rows s)] were inserted by the loop. *)
Lemma store_loop_inserted (clock : nat → Z) (batch : list pyval)
    (s s' : session) (n n' : Z) :
  store_loop clock batch s n = Some (s', n') →
  ∀ i m, (length (rows s) ≤ i)%nat → rows s' !! i = Some m →
         inserted_by clock batch m.
Proof.
  intros H.
  pose proof (store_loop_steps
    (λ s _ s' _,
       keeps_rows (rows s) (rows s')
       ∧ ∀ i m, (length (rows s) ≤ i)%nat → rows s' !! i = Some m →
                inserted_by clock batch m) clock batch) as L.
  eapply L; [| | |exact H]; clear.
  - intros s _. split; [apply keeps_rows_refl|].
    intros i m Hi Hm. apply lookup_lt_Some in Hm. lia.
  - intros s1 _ s2 _ s3 _ [K12 I12] [K23 I23].
    split; [by eapply keeps_rows_trans|].
    intros i m Hi Hm.
    destruct (decide (i < length (rows s2))%nat) as [Hlt|Hge];
      [|apply (I23 i m); [lia|done]].
    destruct (lookup_lt_is_Some_2 (rows s2) i Hlt) as [m2 Hm2].
    destruct (I12 i m2 Hi Hm2) as (d & new & k & t & ? & ? & ?).
    destruct (K23 i m2 Hm2) as (m3 & Hm3 & ?).
    assert (m3 = m) as -> by congruence.
    exists d, new, k, t. split; [done|]. split; [done|].
    by eapply same_identity_trans.
  - intros d s _ Hd. split; [apply process_record_keeps_rows|].
    intros i m Hi Hm.
    destruct (process_record_cases clock d s)
      as [E|[(j & e & Hj & E)|(new & N & E)]]; rewrite E in Hm; simpl in Hm.
    + apply lookup_lt_Some in Hm. lia.
    + apply lookup_lt_Some in Hm. rewrite length_insert in Hm. lia.
    + apply lookup_app_Some in Hm as [Hm|[_ Hm]];
        [apply lookup_lt_Some in Hm; lia|].
      apply list_lookup_singleton_Some in Hm as [_ <-].
      exists d, new, (tick s), (clock (S (tick s))).
      split; [done|]. split; [done|apply same_identity_refl].
Qed.
Lemma store_markets_inserted_by (clock : nat → Z) (commit_ok : bool)
    (batch : list pyval) (db : list Market) :
  Forall (inserted_by clock batch)
    (drop (length db) (store_markets clock commit_ok batch db).1).
Proof.
  destruct (store_markets_cases clock commit_ok batch db)
    as [->|(s & n & L & ->)]; cbn [fst].
  - by rewrite drop_all.
  - apply Forall_forall. intros m Hin.
    apply list_elem_of_lookup in Hin as [i Hi].
    rewrite lookup_drop in Hi.
    eapply (store_loop_inserted _ _ _ _ _ _ L); [|exact Hi]. simpl. lia.
Qed.

(** X9. The rows [store_markets] adds to the table come from records of
    the batch, whose [market_id], [question] and [description] they carry;
    they are created at a reading of the clock, with no liquidity and no
    end date: the [end_date] of a record is never stored. *)
Theorem store_markets_new_rows (clock : nat → Z) (commit_ok : bool)
    (batch : list pyval) (db : list Market) :
  Forall (λ m,
            end_date m = PNone
            ∧ liquidity m = PInt 0
            ∧ (∃ k, created_at m = clock k)
            ∧ ∃ d, PDict d ∈ batch
                ∧ d !! "market_id"%string = Some (market_id m)
                ∧ d !! "question"%string = Some (question m)
                ∧ d !! "description"%string = Some (description m))
    (drop (length db) (store_markets clock commit_ok batch db).1).
Proof.
  eapply Forall_impl; [apply store_markets_inserted_by|].
  intros m (d & new & k & t & Hd & N & I).
  apply new_market_fields in N as (? & ? & ? & ? & ? & ? & _).
  destruct I as (Im & Iq & Id & Il & Ie & Ic).
  rewrite Ie, Il, Ic, Im, Iq, Id.
  repeat split; try done; [by exists k|by exists d].
Qed.

(** X10. [store_markets] removes no row, and the count it returns bounds
    the rows it adds: the table grows by at most the number returned. *)
Theorem store_markets_growth (clock : nat → Z) (commit_ok : bool)
    (batch : list pyval) (db : list Market) :
  (length db ≤ length (store_markets clock commit_ok batch db).1)%nat
  ∧ Z.of_nat (length (store_markets clock commit_ok batch db).1)
    ≤ Z.of_nat (length db) + (store_markets clock commit_ok batch db).2
  ∧ 0 ≤ (store_markets clock commit_ok batch db).2.
Proof.
  destruct (store_markets_cases clock commit_ok batch db)
    as [->|(s & n & L & ->)]; cbn [fst snd]; [lia|].
  pose proof (store_loop_steps
    (λ s n s' n',
       (length (rows s) ≤ length (rows s'))%nat
       ∧ Z.of_nat (length (rows s')) - Z.of_nat (length (rows s)) ≤ n' - n
       ∧ n ≤ n') clock batch) as S.
  destruct S with (4 := L) as (? & ? & ?); [| | |simpl in *; lia].
  { intros; lia. }
  { intros s1 n1 s2 n2 s3 n3 (? & ? & ?) (? & ? & ?). lia. }
  clear. intros d s n _.
  destruct (process_record_cases clock d s)
    as [E|[(j & e & Hj & E)|(new & N & E)]]; rewrite E; simpl.
  - lia.
  - rewrite length_insert. destruct (update_existing _ _ _).1; lia.
  - rewrite length_app. simpl. lia.
Qed.

Lemma stamped_update (clock : nat → Z) (d : pydict) (k : nat) (e : Market) :
  stamped clock e → stamped clock (update_existing d (clock k) e).2.
Proof.
  intros [j Hj]. unfold stamped. rewrite update_existing_updated_at.
  destruct (update_existing d (clock k) e).1; eauto.
Qed.

Lemma process_record_stamped (clock : nat → Z) (d : pydict) (s : session) :
  (Exists (stamped clock) (rows s) →
   Exists (stamped clock) (rows (process_record clock d s).2))
  ∧ ((process_record clock d s).1 = true →
     Exists (stamped clock) (rows (process_record clock d s).2)).
Proof.
  destruct (process_record_cases clock d s)
    as [E|[(i & e & Hi & E)|(new & N & E)]]; rewrite E; simpl.
  - done.
  - split.
    + rewrite !Exists_exists. intros (m & Hin & Hm).
      apply list_elem_of_lookup in Hin as [j Hj].
      destruct (decide (i = j)) as [<-|Hne].
      * exists (update_existing d (clock (tick s)) e).2. split.
        -- apply list_elem_of_lookup. exists i.
           apply list_lookup_insert_eq. by eapply lookup_lt_Some.
        -- apply stamped_update. congruence.
      * exists m. split; [|done].
        apply list_elem_of_lookup. exists j.
        by rewrite list_lookup_insert_ne.
    + intros R. apply Exists_exists.
      exists (update_existing d (clock (tick s)) e).2. split.
      * apply list_elem_of_lookup. exists i.
        apply list_lookup_insert_eq. by eapply lookup_lt_Some.
      * exists (tick s). by rewrite update_existing_updated_at, R.
  - apply new_market_fields in N as (_ & _ & _ & _ & _ & _ & U).
    split.
    + intros H. apply Exists_app. by left.
    + intros _. apply Exists_app. right. constructor. by exists (S (tick s)).
Qed.

Lemma store_loop_stamped (clock : nat → Z) (batch : list pyval)
    (s s' : session) (n n' : Z) :
  store_loop clock batch s n = Some (s', n') →
  n < n' → Exists (stamped clock) (rows s').
Proof.
  intros L.
  pose proof (store_loop_steps
    (λ s n s' n',
       n ≤ n'
       ∧ (Exists (stamped clock) (rows s) → Exists (stamped clock) (rows s'))
       ∧ (n < n' → Exists (stamped clock) (rows s'))) clock batch) as S.
  destruct S with (4 := L) as (_ & _ & H); [| | |done].
  - intros; repeat split; [lia|done|lia].
  - intros s1 n1 s2 n2 s3 n3 (? & P12 & Q12) (? & P23 & Q23).
    split; [lia|]. split; [by auto|].
    intros ?. destruct (decide (n1 < n2)); [by auto|].
    apply Q23. lia.
  - intros d s0 n0 _. destruct (process_record_stamped clock d s0) as [P Q].
    destruct (process_record clock d s0).1; (split; [lia|]); split;
      try done; [by auto|lia].
Qed.

(** X11. Once [store_markets] has returned a positive count, the monitor
    finds a last update, and it is no older than the oldest reading of the
    clock during the call: read less than 20 minutes after every such
    reading, [get_data_freshness] says FRESH. *)
Theorem store_markets_fresh (clock : nat → Z) (batch : list pyval)
    (db : list Market) (now : Z) :
  0 < (store_markets clock true batch db).2 →
  (∀ k, now - clock k < Monitor.minutes 20) →
  ∃ age,
    Monitor.get_data_freshness now (store_markets clock true batch db).1
    = (Some age, "✓ FRESH"%string)
    ∧ ∃ k, age ≤ now - clock k.
Proof.
  intros Hpos Hnow.
  destruct (store_markets_cases clock true batch db)
    as [E|(s & n & L & E)]; rewrite E in *; cbn [fst snd] in *; [lia|].
  apply store_loop_stamped in L; [|done].
  apply Exists_exists in L as (m & Hin & k & Hk).
  unfold Monitor.get_data_freshness, Monitor.get_last_update_time.
  pose proof (latest_market_spec (rows s)) as M.
  destruct (Monitor.latest_market (rows s)) as [m'|];
    [|rewrite M in Hin; by apply elem_of_nil in Hin].
  destruct M as [_ M]. rewrite Forall_forall in M. specialize (M m Hin).
  simpl. exists (now - updated_at m'). specialize (Hnow k).
  destruct (Z.ltb_spec (now - updated_at m') (Monitor.minutes 20)); [|lia].
  split; [done|]. exists k. lia.
Qed.

Lemma store_markets_fresh_witness :
  ∃ age,
    Monitor.get_data_freshness 6000
      (store_markets (Sample.clock_from 5000) true
         [Sample.extract_market_data Sample.eth_payload] [Sample.btc_row]).1
    = (Some age, "✓ FRESH"%string)
    ∧ ∃ k, age ≤ 6000 - Sample.clock_from 5000 k.
Proof.
  apply (store_markets_fresh (Sample.clock_from 5000)
           [Sample.extract_market_data Sample.eth_payload] [Sample.btc_row]
           6000).
  - by vm_compute.
  - intros k. unfold Sample.clock_from, Monitor.minutes. lia.
Defined.
Lemma store_loop_stamps (clock : nat → Z) (batch : list pyval)
    (s s' : session) (n n' : Z) :
  store_loop clock batch s n = Some (s', n') →
  ∀ i m, rows s !! i = Some m →
         ∃ m', rows s' !! i = Some m'
               ∧ (updated_at m' = updated_at m ∨ stamped clock m').
Proof.
  intros L.
  pose proof (store_loop_steps
    (λ s _ s' _,
       ∀ i m, rows s !! i = Some m →
              ∃ m', rows s' !! i = Some m'
                    ∧ (updated_at m' = updated_at m ∨ stamped clock m'))
    clock batch) as S.
  apply S with (4 := L); clear.
  - intros s _ i m Hm. exists m. by split; [|left].
  - intros s1 _ s2 _ s3 _ H12 H23 i m Hm.
    destruct (H12 i m Hm) as (m2 & Hm2 & U2).
    destruct (H23 i m2 Hm2) as (m3 & Hm3 & U3).
    exists m3. split; [done|].
    destruct U3 as [U3|?]; [|by right].
    destruct U2 as [U2|[k U2]]; [left; congruence|right; exists k; congruence].
  - intros d s _ _ i m Hm.
    destruct (process_record_cases clock d s)
      as [E|[(j & e & Hj & E)|(new & N & E)]]; rewrite E; simpl.
    + exists m. by split; [|left].
    + destruct (decide (j = i)) as [->|Hne].
      * eexists. split;
          [apply list_lookup_insert_eq; by eapply lookup_lt_Some|].
        assert (e = m) as -> by congruence.
        unfold stamped. rewrite update_existing_updated_at.
        destruct (update_existing d (clock (tick s)) m).1; [right|left];
          by eauto.
      * exists m. rewrite list_lookup_insert_ne by done. by split; [|left].
    + exists m. split; [by apply lookup_app_l_Some|by left].
Qed.

(** X12. With a clock that never reads earlier than a stamp already in
    the table, [store_markets] takes no row's [updated_at] back, and the
    last update the monitor reports does not go back either. *)
Theorem store_markets_never_older (clock : nat → Z) (commit_ok : bool)
    (batch : list pyval) (db : list Market) :
  (∀ k m, m ∈ db → updated_at m ≤ clock k) →
  Forall2 (λ m m', updated_at m ≤ updated_at m') db
    (take (length db) (store_markets clock commit_ok batch db).1)
  ∧ (∀ t, Monitor.get_last_update_time db = Some t →
       ∃ t', Monitor.get_last_update_time
               (store_markets clock commit_ok batch db).1 = Some t'
             ∧ t ≤ t').
Proof.
  intros Hclock.
  assert (∀ i m, db !! i = Some m →
            ∃ m', (store_markets clock commit_ok batch db).1 !! i = Some m'
                  ∧ updated_at m ≤ updated_at m') as H.
  { destruct (store_markets_cases clock commit_ok batch db)
      as [->|(s & n & L & ->)]; cbn [fst].
    - intros i m Hm. exists m. split; [done|lia].
    - intros i m Hm.
      destruct (store_loop_stamps _ _ _ _ _ _ L i m Hm) as (m' & Hm' & U).
      exists m'. split; [done|].
      destruct U as [->|[k ->]]; [lia|].
      apply Hclock. by eapply list_elem_of_lookup_2. }
  split.
  - apply Forall2_same_length_lookup_2.
    + rewrite length_take. apply Nat.eq_sym, Nat.min_l.
      destruct (decide (length db = 0%nat)) as [->|Hne]; [lia|].
      destruct (lookup_lt_is_Some_2 db (pred (length db))) as [m Hm]; [lia|].
      destruct (H _ _ Hm) as (m' & Hm' & _).
      apply lookup_lt_Some in Hm'. lia.
    + intros i m m' Hm Hm'.
      destruct (H _ _ Hm) as (m'' & Hm'' & ?).
      apply lookup_take_Some in Hm' as [Hm' _]. congruence.
  - unfold Monitor.get_last_update_time. intros t Ht.
    pose proof (latest_market_spec db) as M.
    destruct (Monitor.latest_market db) as [m|]; [|done].
    injection Ht as <-. destruct M as [Hin _].
    apply list_elem_of_lookup in Hin as [i Hi].
    destruct (H i m Hi) as (m' & Hm' & Hle).
    pose proof (latest_market_spec (store_markets clock commit_ok batch db).1)
      as M'.
    destruct (Monitor.latest_market _) as [l|];
      [|rewrite M' in Hm'; by rewrite lookup_nil in Hm'].
    destruct M' as [_ M']. rewrite Forall_forall in M'.
    specialize (M' m' ltac:(by eapply list_elem_of_lookup_2)).
    exists (updated_at l). split; [done|lia].
Qed.

Lemma store_markets_never_older_witness :
  Forall2 (λ m m', updated_at m ≤ updated_at m') [Sample.btc_row]
    (take 1 (store_markets (Sample.clock_from 5000) true sample_batch
               [Sample.btc_row]).1).
Proof.
  apply (store_markets_never_older (Sample.clock_from 5000) true sample_batch
           [Sample.btc_row]).
  intros k m ->%list_elem_of_singleton.
  unfold Sample.clock_from. simpl. lia.
Defined.
Section CycleResults.
Variable json_loads : string → option pyval.
Variable float_of_str : string → option Q.

Lemma cycle_nothing (net : nat → attempt_result) (clock : nat → Z)
    (commit_ok : bool) (db : list Market) :
  py_iter (fetch_markets net).1 = None
  ∨ (∃ payloads, py_iter (fetch_markets net).1 = Some payloads
       ∧ (filter_crypto_markets payloads = None
          ∨ filter_crypto_markets payloads = Some [])) →
  fetch_and_store_markets json_loads float_of_str net clock commit_ok db
  = (false, db).
Proof.
  unfold fetch_and_store_markets, cycle_body.
  destruct (py_truthy _); [|done].
  intros [I|(payloads & I & [F|F])]; rewrite I; simpl; [done| |];
    by rewrite F.
Qed.

Lemma cycle_cases (net : nat → attempt_result) (clock : nat → Z)
    (commit_ok : bool) (db : list Market) :
  fetch_and_store_markets json_loads float_of_str net clock commit_ok db
  = (false, db)
  ∨ ∃ payloads kept,
      py_iter (fetch_markets net).1 = Some payloads
      ∧ filter_crypto_markets payloads = Some kept
      ∧ kept ≠ []
      ∧ fetch_and_store_markets json_loads float_of_str net clock commit_ok db
        = (true, (store_markets clock commit_ok
                    (extracted json_loads float_of_str kept) db).1).
Proof.
  destruct (py_iter (fetch_markets net).1) as [payloads|] eqn:I;
    [|left; apply cycle_nothing; by left].
  destruct (filter_crypto_markets payloads) as [kept|] eqn:F;
    [|left; apply cycle_nothing; right; exists payloads; auto].
  destruct (decide (kept = [])) as [->|K];
    [left; apply cycle_nothing; right; exists payloads; auto|].
  right. exists payloads, kept. repeat split; try done.
  by apply (cycle_kept _ _ _ _ _ _ payloads).
Qed.

(** X13. [fetch_and_store_markets] returns [True] exactly when the page
    could be iterated and the filter kept at least one payload.  The table
    is then the one [store_markets] leaves on the records of the kept
    payloads that normalised; whenever [False] is returned the table is as
    it was. *)
Theorem fetch_and_store_markets_flag (net : nat → attempt_result)
    (clock : nat → Z) (commit_ok : bool) (db : list Market) :
  ((fetch_and_store_markets json_loads float_of_str net clock commit_ok db).1
   = true
   ↔ ∃ payloads kept,
       py_iter (fetch_markets net).1 = Some payloads
       ∧ filter_crypto_markets payloads = Some kept
       ∧ kept ≠ [])
  ∧ ((fetch_and_store_markets json_loads float_of_str net clock commit_ok db).1
     = false →
     (fetch_and_store_markets json_loads float_of_str net clock commit_ok db).2
     = db)
  ∧ (∀ payloads kept,
       py_iter (fetch_markets net).1 = Some payloads →
       filter_crypto_markets payloads = Some kept → kept ≠ [] →
       (fetch_and_store_markets json_loads float_of_str net clock commit_ok
          db).2
       = (store_markets clock commit_ok
            (extracted json_loads float_of_str kept) db).1).
Proof.
  split; [|split].
  - split.
    + destruct (cycle_cases net clock commit_ok db)
        as [->|(payloads & kept & I & F & K & _)]; [done|].
      intros _. by exists payloads, kept.
    + intros (payloads & kept & I & F & K).
      by rewrite (cycle_kept _ _ _ _ _ _ _ _ I F K).
  - destruct (cycle_cases net clock commit_ok db)
      as [->|(payloads & kept & _ & _ & _ & ->)]; done.
  - intros payloads kept I F K.
    by rewrite (cycle_kept _ _ _ _ _ _ _ _ I F K).
Qed.

(** X14. A cycle whose commit is refused still returns [True]: with at
    least one payload kept by the filter, [fetch_and_store_markets] reports
    success although the rollback left the table as it was. *)
Theorem fetch_and_store_markets_rolled_back (net : nat → attempt_result)
    (clock : nat → Z) (db : list Market) (payloads kept : list pyval) :
  py_iter (fetch_markets net).1 = Some payloads →
  filter_crypto_markets payloads = Some kept → kept ≠ [] →
  fetch_and_store_markets json_loads float_of_str net clock false db
  = (true, db).
Proof.
  intros I F K. rewrite (cycle_kept _ _ _ _ _ _ _ _ I F K).
  by rewrite store_markets_rollback.
Qed.

(** X15. One entry of the page that is no object, or whose question is
    there but is not text, costs the cycle the whole page: the filter
    raises, [fetch_and_store_markets] returns [False] and nothing is
    stored, whatever the other payloads are. *)
Theorem fetch_and_store_markets_bad_payload (net : nat → attempt_result)
    (clock : nat → Z) (commit_ok : bool) (db : list Market)
    (payloads : list pyval) :
  py_iter (fetch_markets net).1 = Some payloads →
  Exists (λ market, ¬ text_question market) payloads →
  fetch_and_store_markets json_loads float_of_str net clock commit_ok db
  = (false, db).
Proof.
  intros I E. apply cycle_nothing. right. exists payloads.
  split; [done|]. left. by apply filter_loop_None.
Qed.

Lemma elem_of_extracted (kept : list pyval) (v : pyval) :
  v ∈ extracted json_loads float_of_str kept →
  ∃ market record,
    PDict market ∈ kept
    ∧ v = PDict record
    ∧ extract_market_data json_loads float_of_str market = PDict record.
Proof.
  unfold extracted. intros H.
  apply list_elem_of_In, filter_In in H as [H T].
  apply list_elem_of_In, list_elem_of_fmap in H as (p & -> & Hp).
  destruct p as [| | | | | |market]; try done.
  exists market.
  unfold extract_market_data in *.
  destruct (extract_body json_loads float_of_str market) as [record|];
    [|done].
  by exists record.
Qed.

(** X16. Every row a cycle adds to the table is the row of a payload of
    the fetched page whose question names a crypto keyword: it carries that
    payload's id as [market_id] and its question (["Unknown"] without one),
    and no end date. *)
Theorem fetch_and_store_markets_provenance (net : nat → attempt_result)
    (clock : nat → Z) (commit_ok : bool) (db : list Market) :
  Forall (λ m,
            ∃ payloads market,
              py_iter (fetch_markets net).1 = Some payloads
              ∧ PDict market ∈ payloads
              ∧ crypto_payload (PDict market)
              ∧ market_id m = payload_id market
              ∧ question m
                = default (PStr "Unknown") (market !! "question"%string)
              ∧ end_date m = PNone)
    (drop (length db)
       (fetch_and_store_markets json_loads float_of_str net clock commit_ok
          db).2).
Proof.
  destruct (cycle_cases net clock commit_ok db)
    as [->|(payloads & kept & I & F & K & ->)]; cbn [snd].
  - by rewrite drop_all.
  - eapply Forall_impl; [apply store_markets_inserted_by|].
    intros m (d & new & k & t & Hd & N & S).
    apply elem_of_extracted in Hd as (market & record & Hin & [= ->] & E).
    destruct (filter_crypto_markets_kept _ _ F) as (-> & _ & C).
    rewrite Forall_forall in C.
    exists payloads, market. split; [done|].
    split; [by apply list_elem_of_In, filter_In in Hin as [Hin _];
               apply list_elem_of_In|].
    split; [by apply C|].
    apply new_market_fields in N as (Nm & Nq & _ & _ & Ne & _).
    destruct (extract_market_data_fields _ _ _ _ E) as (Km & Kq & _).
    destruct S as (Sm & Sq & _ & _ & Se & _).
    rewrite Sm, Sq, Se. repeat split; congruence.
Qed.

End CycleResults.

Lemma fetch_and_store_markets_rolled_back_witness :
  Sample.fetch_and_store_markets
    (Sample.answers (PList [PDict Sample.rain_payload;
                            PDict Sample.btc_payload]))
    (Sample.clock_from 5000) false [Sample.btc_row]
  = (true, [Sample.btc_row]).
Proof.
  apply (fetch_and_store_markets_rolled_back Sample.json_loads
           Sample.float_of_str _ _ _
           [PDict Sample.rain_payload; PDict Sample.btc_payload]
           [PDict Sample.btc_payload]); done.
Defined.

Lemma fetch_and_store_markets_bad_payload_witness :
  Sample.fetch_and_store_markets
    (Sample.answers (PList [PDict Sample.btc_payload;
                            PDict Sample.null_question_payload]))
    (Sample.clock_from 5000) true [Sample.btc_row]
  = (false, [Sample.btc_row]).
Proof.
  apply (fetch_and_store_markets_bad_payload Sample.json_loads
           Sample.float_of_str _ _ _ _
           [PDict Sample.btc_payload; PDict Sample.null_question_payload]).
  - done.
  - apply Exists_cons. right. apply Exists_cons. left.
    intros (d & [= <-] & [H|[q H]]); by vm_compute in H.
Defined.
(** ** The monitor: recent errors *)

Lemma contains_nil (sub : string) : contains sub "" = starts_with sub "".
Proof. simpl. by rewrite orb_false_r. Qed.

Lemma contains_cons (sub : string) (c : ascii) (s : string) :
  contains sub (String c s) = starts_with sub (String c s) || contains sub s.
Proof. done. Qed.

Lemma starts_with_contains (sub s : string) :
  starts_with sub s = true → contains sub s = true.
Proof. destruct s; [by rewrite contains_nil|rewrite contains_cons]; by intros ->. Qed.

Lemma contains_lstrip (sub s : string) :
  starts_visible sub = true →
  contains sub s = true → contains sub (py_lstrip s) = true.
Proof.
  intros V. induction s as [|c s IH]; [done|].
  cbn [py_lstrip]. destruct (py_isspace c) eqn:W; [|done].
  rewrite contains_cons. intros [H|H]%orb_true_iff; [|by apply IH].
  destruct sub as [|a sub]; [done|]. simpl in V, H.
  case_bool_decide; [subst|done]. by rewrite W in V.
Qed.

Lemma starts_with_rstrip (sub s : string) :
  ends_visible sub = true →
  starts_with sub s = true → starts_with sub (py_rstrip s) = true.
Proof.
  revert s. induction sub as [|a sub IH]; intros s V; [done|].
  destruct s as [|b s]; [done|]. cbn [starts_with py_rstrip].
  intros [E H]%andb_true_iff. apply bool_decide_eq_true in E as <-.
  destruct sub as [|a' sub].
  - simpl in V. destruct (py_rstrip s); simpl.
    + apply negb_true_iff in V. rewrite V. simpl.
      by rewrite bool_decide_eq_true_2.
    + by rewrite bool_decide_eq_true_2.
  - specialize (IH s V H).
    destruct (py_rstrip s) as [|c kept]; [done|].
    change (bool_decide (a = a) && starts_with (String a' sub) (String c kept)
            = true).
    by rewrite bool_decide_eq_true_2, IH.
Qed.

Lemma contains_rstrip (sub s : string) :
  ends_visible sub = true →
  contains sub s = true → contains sub (py_rstrip s) = true.
Proof.
  intros V. induction s as [|c s IH].
  - rewrite contains_nil. by destruct sub.
  - rewrite contains_cons. intros [H|H]%orb_true_iff.
    + by apply starts_with_contains, starts_with_rstrip.
    + specialize (IH H). cbn [py_rstrip].
      destruct (py_rstrip s) as [|c' kept].
      * rewrite contains_nil in IH. by destruct sub.
      * rewrite contains_cons, IH. apply orb_true_r.
Qed.

Lemma contains_strip (sub s : string) :
  starts_visible sub = true → ends_visible sub = true →
  contains sub s = true → contains sub (py_strip s) = true.
Proof. intros. by apply contains_lstrip, contains_rstrip. Qed.

Lemma flagged_strip (line : string) :
  flagged line = true → flagged (py_strip line) = true.
Proof.
  unfold flagged. intros [H|H]%orb_true_iff; apply orb_true_iff; [left|right];
    by apply contains_strip.
Qed.

Lemma recent_errors_loop_spec (lines errors : list string) :
  Monitor.recent_errors_loop lines errors
  = errors ++ (py_strip <$> List.filter flagged lines).
Proof.
  revert errors. induction lines as [|line lines IH]; intros errors.
  - by rewrite app_nil_r.
  - cbn [Monitor.recent_errors_loop List.filter]. rewrite IH.
    unfold flagged at 2.
    destruct (contains "ERROR" line || contains "WARNING" line);
      [by rewrite <- app_assoc|done].
Qed.

Lemma get_recent_errors_slice (all : list string) (lines : Z) :
  Monitor.get_recent_errors (Monitor.LogLines all) lines
  = py_slice_from (- lines) (recently_flagged all).
Proof.
  unfold Monitor.get_recent_errors, recently_flagged.
  by rewrite recent_errors_loop_spec.
Qed.

Lemma py_slice_from_suffix {A} (start : Z) (l : list A) :
  py_slice_from start l `suffix_of` l.
Proof. apply suffix_drop. Qed.

Lemma py_slice_from_last {A} (k : Z) (l : list A) :
  0 < k →
  Z.of_nat (length (py_slice_from (- k) l)) = Z.min k (Z.of_nat (length l)).
Proof.
  intros H. unfold py_slice_from.
  destruct (Z.ltb_spec (- k) 0); [|lia].
  rewrite length_drop. lia.
Qed.

Lemma filter_length_le {A} (f : A → bool) (l : list A) :
  (length (List.filter f l) ≤ length l)%nat.
Proof.
  induction l as [|x l IH]; simpl; [done|]. destruct (f x); simpl; lia.
Qed.

Lemma recently_flagged_length (all : list string) :
  (length (recently_flagged all) ≤ 100)%nat.
Proof.
  unfold recently_flagged. rewrite length_fmap.
  etrans; [apply filter_length_le|].
  apply Nat2Z.inj_le. rewrite (py_slice_from_last 100) by lia. lia.
Qed.

(** X17. For a positive [lines], [get_recent_errors] returns the last
    [lines] of the flagged lines found among the last hundred lines of the
    log, in the order of the log and stripped of surrounding white space,
    or all of them when there are fewer; never more than [lines] entries,
    and never more than a hundred. *)
Theorem get_recent_errors_last (all : list string) (lines : Z) :
  0 < lines →
  Z.of_nat (length (Monitor.get_recent_errors (Monitor.LogLines all) lines))
  = Z.min lines (Z.of_nat (length (recently_flagged all)))
  ∧ Monitor.get_recent_errors (Monitor.LogLines all) lines
    `suffix_of` recently_flagged all
  ∧ (length (recently_flagged all) ≤ 100)%nat
  ∧ py_slice_from (-100) all `suffix_of` all.
Proof.
  intros H. rewrite get_recent_errors_slice.
  split; [by apply py_slice_from_last|].
  split; [apply py_slice_from_suffix|].
  split; [apply recently_flagged_length|apply py_slice_from_suffix].
Qed.

Lemma get_recent_errors_last_witness :
  Z.of_nat (length (Monitor.get_recent_errors
                      (Monitor.LogLines
                         [ "a - INFO - started"; "b - WARNING - slow";
                           "c - ERROR - failed"; "d - ERROR - failed again" ])
                      2))
  = Z.min 2 (Z.of_nat (length (recently_flagged
                         [ "a - INFO - started"; "b - WARNING - slow";
                           "c - ERROR - failed"; "d - ERROR - failed again" ]))).
Proof.
  apply (get_recent_errors_last
           [ "a - INFO - started"; "b - WARNING - slow";
             "c - ERROR - failed"; "d - ERROR - failed again" ]%string 2).
  lia.
Defined.

(** X18. Asking [get_recent_errors] for no line at all gives every flagged
    line, not none: [errors[-0:]] is the whole list.  A negative [lines]
    drops that many entries from the front instead of keeping as many from
    the back. *)
Theorem get_recent_errors_not_positive (all : list string) (lines : Z) :
  lines ≤ 0 →
  Monitor.get_recent_errors (Monitor.LogLines all) lines
  = drop (Z.to_nat (- lines)) (recently_flagged all)
  ∧ (lines = 0 →
     Monitor.get_recent_errors (Monitor.LogLines all) lines
     = recently_flagged all).
Proof.
  intros H. rewrite get_recent_errors_slice. unfold py_slice_from.
  destruct (Z.ltb_spec (- lines) 0); [lia|].
  split.
  - destruct (Z.min_spec (- lines) (Z.of_nat (length (recently_flagged all))))
      as [[_ ->]|[? ->]]; [done|].
    rewrite Nat2Z.id, !drop_ge; [done|lia|lia].
  - intros ->. simpl. by rewrite Z.min_l by lia.
Qed.

Lemma get_recent_errors_not_positive_witness :
  Monitor.get_recent_errors
    (Monitor.LogLines [ "a - INFO - started"; "b - WARNING - slow";
                        "c - ERROR - failed" ]) 0
  = recently_flagged [ "a - INFO - started"; "b - WARNING - slow";
                       "c - ERROR - failed" ].
Proof.
  apply (get_recent_errors_not_positive
           [ "a - INFO - started"; "b - WARNING - slow";
             "c - ERROR - failed" ]%string 0); lia.
Defined.

(** X19. Every entry [get_recent_errors] reports from a log it could read
    still shows why it was picked: stripping a line of its surrounding
    white space keeps the [ERROR] or [WARNING] in it.  Without a log file
    nothing is reported. *)
Theorem get_recent_errors_flagged (all : list string) (lines : Z) :
  Forall (λ entry, flagged entry = true)
    (Monitor.get_recent_errors (Monitor.LogLines all) lines)
  ∧ Monitor.get_recent_errors Monitor.LogMissing lines = [].
Proof.
  split; [|done]. rewrite get_recent_errors_slice.
  eapply Forall_forall. intros entry Hin.
  eapply elem_of_suffix in Hin; [|apply py_slice_from_suffix].
  unfold recently_flagged in Hin.
  apply list_elem_of_fmap in Hin as (line & -> & Hin).
  apply list_elem_of_In, filter_In in Hin as [_ Hin].
  by apply flagged_strip.
Qed.
(** ** The monitor: market counts and the status line *)

(** X20. The counts of [get_market_stats] are consistent: the crypto
    count is the total, the active and the resolved counts lie between 0
    and the total, and the total is 0 exactly when the monitor finds no
    last update, that is when [get_data_freshness] answers that there is no
    data. *)
Theorem get_market_stats_counts (now : Z) (db : list Market) :
  ∃ total active_count resolved_count,
    Monitor.get_market_stats db !! "total"%string = Some (PInt total)
    ∧ Monitor.get_market_stats db !! "crypto"%string = Some (PInt total)
    ∧ Monitor.get_market_stats db !! "active"%string
      = Some (PInt active_count)
    ∧ Monitor.get_market_stats db !! "resolved"%string
      = Some (PInt resolved_count)
    ∧ total = Z.of_nat (length db)
    ∧ 0 ≤ active_count ≤ total
    ∧ 0 ≤ resolved_count ≤ total
    ∧ (total = 0 ↔ Monitor.get_last_update_time db = None)
    ∧ (total = 0 ↔
       Monitor.get_data_freshness now db
       = (None, "No data in database"%string)).
Proof.
  eexists _, _, _. unfold Monitor.get_market_stats.
  split; [by simplify_map_eq|]. split; [by simplify_map_eq|].
  split; [by simplify_map_eq|]. split; [by simplify_map_eq|].
  split; [done|].
  pose proof (filter_length_le (λ m, sql_is_true (active m)) db).
  pose proof (filter_length_le (λ m, sql_is_true (resolved m)) db).
  split; [lia|]. split; [lia|].
  unfold Monitor.get_data_freshness, Monitor.get_last_update_time.
  pose proof (latest_market_spec db) as M.
  destruct (Monitor.latest_market db) as [m|]; simpl.
  - destruct M as [Hin _].
    assert (length db ≠ 0%nat)
      by (destruct db; [by apply elem_of_nil in Hin|done]).
    split; (split; [lia|done]).
  - subst db. done.
Qed.

(** X21. The status line of [print_status] and the label of
    [get_data_freshness] are computed from clock readings of their own, the
    label first.  With a clock that does not go back they cannot contradict
    each other: RUNNING NORMALLY is only printed over data labelled FRESH,
    data labelled VERY STALE and an empty table are always NOT UPDATING;
    and read at one instant the two classifications coincide. *)
Theorem system_status_freshness (t0 t1 t2 : Z) (db : list Market) :
  t0 ≤ t1 → t1 ≤ t2 →
  (Monitor.system_status t1 t2 (Monitor.get_last_update_time db)
   = "   Pipeline: ✓ RUNNING NORMALLY"%string →
   (Monitor.get_data_freshness t0 db).2 = "✓ FRESH"%string)
  ∧ ((Monitor.get_data_freshness t0 db).2 = "✗ VERY STALE"%string
     ∨ db = [] →
     Monitor.system_status t1 t2 (Monitor.get_last_update_time db)
     = "   Pipeline: ✗ NOT UPDATING"%string)
  ∧ (t0 = t2 →
     ((Monitor.get_data_freshness t0 db).2 = "✓ FRESH"%string
      ↔ Monitor.system_status t1 t2 (Monitor.get_last_update_time db)
        = "   Pipeline: ✓ RUNNING NORMALLY"%string)
     ∧ ((Monitor.get_data_freshness t0 db).2 = "⚠ STALE"%string
        ↔ Monitor.system_status t1 t2 (Monitor.get_last_update_time db)
          = "   Pipeline: ⚠ RUNNING BUT DATA IS STALE"%string)).
Proof.
  intros H01 H12.
  unfold Monitor.get_data_freshness, Monitor.system_status.
  pose proof (latest_market_spec db) as M.
  unfold Monitor.get_last_update_time.
  destruct (Monitor.latest_market db) as [m|]; simpl.
  - assert (db ≠ []) as N
      by (destruct M as [Hin _]; intros ->; by apply elem_of_nil in Hin).
    destruct (Z.ltb_spec (t0 - updated_at m) (Monitor.minutes 20));
      destruct (Z.ltb_spec (t0 - updated_at m) (Monitor.hours 1));
      destruct (Z.ltb_spec (t1 - updated_at m) (Monitor.minutes 20));
      destruct (Z.ltb_spec (t2 - updated_at m) (Monitor.hours 1));
      unfold Monitor.minutes, Monitor.hours in *;
      try lia;
      (split; [done|]); (split; [by intros [?|?]|]);
      intros ?; try lia; by split; split.
  - split; [done|]. split; [done|]. intros _. by split; split.
Qed.

Lemma system_status_freshness_witness :
  Monitor.system_status 10800000100 10800000200
    (Monitor.get_last_update_time [Sample.btc_row])
  = "   Pipeline: ✗ NOT UPDATING"%string.
Proof.
  apply (system_status_freshness 10800000000 10800000100 10800000200
           [Sample.btc_row]); [lia|lia|].
  left. reflexivity.
Defined.
(** ** The market functions of [src/models/crud.py] *)

Lemma get_market_cons (e : Market) (db : list Market) (key : string) :
  Crud.get_market (e :: db) key
  = if sql_eq (market_id e) (PStr key) then Some e else Crud.get_market db key.
Proof.
  unfold Crud.get_market, query_first. cbn [list_find].
  destruct (sql_eq (market_id e) (PStr key)); simpl; [done|].
  by destruct (list_find _ db) as [[? ?]|].
Qed.

Lemma get_market_app (l1 l2 : list Market) (key : string) :
  Crud.get_market (l1 ++ l2) key
  = match Crud.get_market l1 key with
    | Some e => Some e
    | None => Crud.get_market l2 key
    end.
Proof.
  induction l1 as [|e l1 IH]; [done|].
  rewrite <- app_comm_cons, !get_market_cons.
  by destruct (sql_eq (market_id e) (PStr key)).
Qed.

Lemma get_market_None (db : list Market) (key : string) :
  Crud.get_market db key = None
  ↔ Forall (λ e, sql_eq (market_id e) (PStr key) = false) db.
Proof.
  induction db as [|e db IH]; [done|].
  rewrite get_market_cons, Forall_cons.
  destruct (sql_eq (market_id e) (PStr key)); [|tauto].
  split; [done|by intros [? _]].
Qed.

Lemma get_market_Some (db : list Market) (key : string) (e : Market) :
  Crud.get_market db key = Some e → e ∈ db ∧ market_id e = PStr key.
Proof.
  induction db as [|x db IH]; [done|]. rewrite get_market_cons.
  destruct (sql_eq (market_id x) (PStr key)) eqn:E.
  - intros [= <-]. split; [by left|by apply sql_eq_eq].
  - intros H. destruct (IH H). split; [by right|done].
Qed.

(** The row a lookup finds splits the table: the rows before it do not
    match. *)
Lemma query_first_split (db : list Market) (key : string) (i : nat)
    (e : Market) :
  query_first (PStr key) db = Some (i, e) →
  db = take i db ++ e :: drop (S i) db
  ∧ Crud.get_market (take i db) key = None
  ∧ market_id e = PStr key
  ∧ (i < length db)%nat.
Proof.
  unfold query_first. intros (Hi & M & B)%list_find_Some.
  split; [by rewrite take_drop_middle|].
  split; [|split; [apply sql_eq_eq; by apply Is_true_true|
                   by eapply lookup_lt_Some]].
  apply get_market_None, Forall_forall. intros x Hx.
  apply list_elem_of_lookup in Hx as [j Hj].
  apply lookup_take_Some in Hj as [Hj Hlt].
  specialize (B j x Hj Hlt). by apply Is_true_false.
Qed.

Lemma get_market_query_first (db : list Market) (key : string) :
  Crud.get_market db key = snd <$> query_first (PStr key) db.
Proof. done. Qed.

Lemma sql_eq_other (m : Market) (key other : string) :
  market_id m = PStr key → other ≠ key →
  sql_eq (market_id m) (PStr other) = false.
Proof. intros -> ?. simpl. by apply bool_decide_eq_false_2. Qed.

Lemma sql_eq_key (m : Market) (key : string) :
  market_id m = PStr key → sql_eq (market_id m) (PStr key) = true.
Proof. intros ->. simpl. by apply bool_decide_eq_true_2. Qed.

(** X22. A market created under an id the table does not hold is found
    again under that id; it is the last row of the table, every other
    lookup answers as before, and ids that were unique stay unique. *)
Theorem create_market_get_market (clock : nat → Z) (commit_ok : bool)
    (db db' : list Market) (key : string)
    (question yes_price no_price volume description active : pyval)
    (market : Market) :
  Crud.get_market db key = None →
  Crud.create_market clock commit_ok db key question yes_price no_price
    volume description active = Some (db', market) →
  Crud.get_market db' key = Some market
  ∧ market_id market = PStr key
  ∧ db' = db ++ [market]
  ∧ (∀ other, other ≠ key →
       Crud.get_market db' other = Crud.get_market db other)
  ∧ (NoDup (market_id <$> db) → NoDup (market_id <$> db')).
Proof.
  intros N. unfold Crud.create_market.
  destruct commit_ok; [|done]. intros [= <- <-].
  split; [|split; [done|split; [done|split]]].
  - rewrite get_market_app, N, get_market_cons. simpl.
    by rewrite bool_decide_eq_true_2.
  - intros other Hne. rewrite get_market_app, get_market_cons. simpl.
    rewrite bool_decide_eq_false_2 by congruence.
    by destruct (Crud.get_market db other).
  - intros D. rewrite fmap_app. apply NoDup_app. split; [done|].
    split; [|apply NoDup_singleton].
    intros x Hx ->%list_elem_of_singleton.
    apply list_elem_of_fmap in Hx as (e & He & Hin).
    rewrite get_market_None, Forall_forall in N. specialize (N e Hin).
    simpl in He. by rewrite <- He, (sql_eq_refl (PStr key)) in N.
Qed.

Lemma create_market_get_market_witness :
  ∃ db' market,
    Crud.create_market (Sample.clock_from 7000) true [Sample.btc_row] "m9"
      (PStr "Will Solana pass 500?") PNone PNone PNone PNone PNone
    = Some (db', market)
    ∧ Crud.get_market db' "m9" = Some market
    ∧ volume market = PInt 0.
Proof.
  eexists _, _. split; [reflexivity|]. split; [|reflexivity].
  eapply (create_market_get_market (Sample.clock_from 7000) true
            [Sample.btc_row]); [reflexivity|reflexivity].
Defined.

(** X23. [delete_market] answers [False] and touches nothing when the id
    is not there; otherwise it removes one row, the first with that id,
    leaving the others in place and in order.  Lookups under other ids
    answer as before, and with unique ids the deleted id is no longer
    found. *)
Theorem delete_market_get_market (commit_ok : bool) (db db' : list Market)
    (key : string) (deleted : bool) :
  Crud.delete_market commit_ok db key = Some (db', deleted) →
  (deleted = true ↔ is_Some (Crud.get_market db key))
  ∧ (deleted = false → db' = db)
  ∧ (deleted = true → S (length db') = length db)
  ∧ sublist db' db
  ∧ (∀ other, other ≠ key →
       Crud.get_market db' other = Crud.get_market db other)
  ∧ (NoDup (market_id <$> db) → Crud.get_market db' key = None).
Proof.
  unfold Crud.delete_market. rewrite get_market_query_first.
  destruct (query_first (PStr key) db) as [[i e]|] eqn:Q; simpl.
  - destruct commit_ok; [|done]. intros [= <- <-].
    apply query_first_split in Q as (Hdb & Hbefore & Hid & Hi).
    split; [by split; eauto|]. split; [done|].
    split; [intros _; rewrite length_delete by (by apply lookup_lt_is_Some_2);
            lia|].
    split; [apply sublist_delete|].
    rewrite delete_take_drop.
    split.
    + intros other Hne. rewrite Hdb at 3.
      rewrite !get_market_app, get_market_cons.
      by rewrite (sql_eq_other _ key).
    + intros D. rewrite get_market_app, Hbefore.
      apply get_market_None, Forall_forall. intros x Hx.
      destruct (sql_eq (market_id x) (PStr key)) eqn:E; [|done].
      apply sql_eq_eq in E. rewrite Hdb, fmap_app, fmap_cons in D.
      apply NoDup_app in D as (_ & _ & D). apply NoDup_cons in D as [D _].
      destruct D. rewrite Hid, <- E. by apply list_elem_of_fmap_2.
  - intros [= <- <-]. split; [by split; [|intros [? ?]]|].
    split; [done|]. split; [done|]. split; [done|].
    split; [done|]. intros _. by rewrite get_market_query_first, Q.
Qed.

Lemma delete_market_get_market_witness :
  Crud.delete_market true [Sample.btc_row] "m1" = Some ([], true)
  ∧ Crud.get_market [] "m1" = None.
Proof.
  split; [reflexivity|].
  eapply (delete_market_get_market true [Sample.btc_row] [] "m1" true);
    [reflexivity|].
  apply NoDup_singleton.
Defined.

(** The columns [update_market] cannot reach. *)
Lemma set_unless_none_frame (set : pyval → Market → Market) (v : pyval)
    (m : Market) :
  (∀ v m, same_identity m (set v m)
          ∧ volume_24h (set v m) = volume_24h m
          ∧ updated_at (set v m) = updated_at m) →
  same_identity m (Crud.set_unless_none set v m)
  ∧ volume_24h (Crud.set_unless_none set v m) = volume_24h m
  ∧ updated_at (Crud.set_unless_none set v m) = updated_at m.
Proof.
  intros H. destruct v; simpl; try apply H.
  by split; [apply same_identity_refl|].
Qed.

Lemma update_row_frame (now : Z)
    (yes_price no_price volume active resolved outcome : pyval)
    (market : Market) :
  same_identity market
    (Crud.update_row now yes_price no_price volume active resolved outcome
       market)
  ∧ volume_24h (Crud.update_row now yes_price no_price volume active resolved
                  outcome market) = volume_24h market
  ∧ updated_at (Crud.update_row now yes_price no_price volume active resolved
                  outcome market) = now.
Proof.
  unfold Crud.update_row.
  set (m1 := Crud.set_unless_none set_yes_price yes_price market).
  set (m2 := Crud.set_unless_none set_no_price no_price m1).
  set (m3 := Crud.set_unless_none set_volume volume m2).
  set (m4 := Crud.set_unless_none set_active active m3).
  set (m5 := Crud.set_unless_none set_resolved resolved m4).
  set (m6 := Crud.set_unless_none set_outcome outcome m5).
  destruct (set_unless_none_frame set_yes_price yes_price market)
    as (I1 & V1 & _); [done|].
  destruct (set_unless_none_frame set_no_price no_price m1)
    as (I2 & V2 & _); [done|].
  destruct (set_unless_none_frame set_volume volume m2)
    as (I3 & V3 & _); [done|].
  destruct (set_unless_none_frame set_active active m3)
    as (I4 & V4 & _); [done|].
  destruct (set_unless_none_frame set_resolved resolved m4)
    as (I5 & V5 & _); [done|].
  destruct (set_unless_none_frame set_outcome outcome m5)
    as (I6 & V6 & _); [done|].
  fold m1 in I1, V1. fold m2 in I2, V2. fold m3 in I3, V3.
  fold m4 in I4, V4. fold m5 in I5, V5. fold m6 in I6, V6.
  split; [|split; [simpl; congruence|done]].
  repeat (eapply same_identity_trans; [eassumption|]).
  done.
Qed.

(** X24. [update_market] answers [None] exactly when the id is not in the
    table.  Otherwise the market found under the id afterwards is the old
    one with the values given, [None] standing for no change, stamped with
    the time of the call; its identity columns and its 24 hour volume are
    as they were, the table has as many rows as before and lookups under
    other ids answer as before. *)
Theorem update_market_get_market (now : Z) (db : list Market) (key : string)
    (yes_price no_price volume active resolved outcome : pyval) :
  (Crud.update_market now db (PStr key) yes_price no_price volume active
     resolved outcome = None
   ↔ Crud.get_market db key = None)
  ∧ (∀ db',
       Crud.update_market now db (PStr key) yes_price no_price volume active
         resolved outcome = Some db' →
       ∃ old,
         Crud.get_market db key = Some old
         ∧ Crud.get_market db' key
           = Some (Crud.update_row now yes_price no_price volume active
                     resolved outcome old)
         ∧ same_identity old
             (Crud.update_row now yes_price no_price volume active resolved
                outcome old)
         ∧ volume_24h (Crud.update_row now yes_price no_price volume active
                         resolved outcome old) = volume_24h old
         ∧ updated_at (Crud.update_row now yes_price no_price volume active
                         resolved outcome old) = now
         ∧ length db' = length db
         ∧ (∀ other, other ≠ key →
              Crud.get_market db' other = Crud.get_market db other)).
Proof.
  unfold Crud.update_market. rewrite get_market_query_first.
  destruct (query_first (PStr key) db) as [[i old]|] eqn:Q; simpl;
    [|by split].
  split; [done|]. intros db' [= <-]. exists old.
  apply query_first_split in Q as (Hdb & Hbefore & Hid & Hi).
  destruct (update_row_frame now yes_price no_price volume active resolved
              outcome old) as (I & V & U).
  split; [done|].
  assert (<[i := Crud.update_row now yes_price no_price volume active resolved
                   outcome old]> db
          = take i db
            ++ Crud.update_row now yes_price no_price volume active resolved
                 outcome old :: drop (S i) db) as ->
    by (by apply insert_take_drop).
  split; [|split; [done|split; [done|split; [done|split]]]].
  - rewrite get_market_app, Hbefore, get_market_cons.
    rewrite sql_eq_key; [done|]. destruct I as [-> _]. done.
  - rewrite length_app. simpl. rewrite length_take, length_drop. lia.
  - intros other Hne. rewrite Hdb at 3.
    rewrite !get_market_app, !get_market_cons.
    rewrite (sql_eq_other _ key), (sql_eq_other old key); try done.
    by destruct I as [-> _].
Qed.

(** X25. With a limit that is not negative [get_all_markets] returns at
    most that many rows, rows of the table in its order; asked for active
    markets only, every row returned has a true [active]; and with no
    filter and a limit the table does not exceed, it returns the table. *)
Theorem get_all_markets_bounds (db : list Market) (active_only : bool)
    (limit : Z) :
  0 ≤ limit →
  Z.of_nat (length (Crud.get_all_markets db active_only limit)) ≤ limit
  ∧ sublist (Crud.get_all_markets db active_only limit) db
  ∧ (active_only = true →
     Forall (λ m, sql_is_true (active m) = true)
       (Crud.get_all_markets db active_only limit))
  ∧ (active_only = false → Z.of_nat (length db) ≤ limit →
     Crud.get_all_markets db active_only limit = db).
Proof.
  intros H. unfold Crud.get_all_markets.
  destruct (Z.ltb_spec limit 0); [lia|].
  split; [rewrite length_take; lia|].
  split; [|split].
  - etrans; [apply sublist_take|].
    destruct active_only; [apply sublist_filter|done].
  - intros ->. apply Forall_take, Forall_forall. intros m Hm.
    by apply list_elem_of_In, filter_In in Hm as [_ Hm].
  - intros -> Hlen. apply take_ge. lia.
Qed.

Lemma get_all_markets_bounds_witness :
  Z.of_nat (length (Crud.get_all_markets [Sample.btc_row; Sample.btc_row]
                      true 1)) ≤ 1.
Proof.
  apply (get_all_markets_bounds [Sample.btc_row; Sample.btc_row] true 1).
  lia.
Defined.
(** ** The monitor: the summary of a log that can be read *)

Lemma percent_not_na (s : string) : (s +:+ "%")%string ≠ "N/A"%string.
Proof. by destruct s as [|? [|? [|? [|? ?]]]]. Qed.

(** X26. From a log that can be read [get_log_summary] counts as
    successful the lines with the success marker and as failed the lines
    with the failure marker and without the success marker; the total is
    their sum and never exceeds the number of lines; the rate is "N/A"
    exactly when the total is 0; and the report of [print_status] finds
    every entry it reads.  A log that cannot be read gives the error entry,
    which the report prints instead. *)
Theorem get_log_summary_readable (lines : list string) :
  (∃ summary successful failed rate,
     Monitor.get_log_summary (Monitor.LogLines lines) = Some summary
     ∧ successful
       = Z.of_nat (length (List.filter
           (contains "Data fetch completed successfully") lines))
     ∧ failed
       = Z.of_nat (length (List.filter
           (λ line, negb (contains "Data fetch completed successfully" line)
                    && contains "Fatal error in fetch_and_store_markets" line)
           lines))
     ∧ summary !! "successful_fetches"%string = Some (PInt successful)
     ∧ summary !! "failed_fetches"%string = Some (PInt failed)
     ∧ summary !! "total_fetches"%string = Some (PInt (successful + failed))
     ∧ summary !! "success_rate"%string = Some (PStr rate)
     ∧ successful + failed ≤ Z.of_nat (length lines)
     ∧ (rate = "N/A"%string ↔ successful + failed = 0)
     ∧ Monitor.print_performance summary
       = Some [PInt (successful + failed); PInt successful; PInt failed;
               PStr rate])
  ∧ (∀ reason,
       ∃ summary,
         Monitor.get_log_summary (Monitor.LogUnreadable reason) = Some summary
         ∧ Monitor.print_performance summary
           = Some [PStr ("Could not read log: " +:+ reason)]).
Proof.
  split; [|intros reason; eexists; split; [reflexivity|by vm_compute]].
  assert (length (List.filter
                    (contains "Data fetch completed successfully") lines)
          + length (List.filter
              (λ line, negb (contains "Data fetch completed successfully" line)
                       && contains "Fatal error in fetch_and_store_markets"
                            line) lines)
          ≤ length lines)%nat as Hle.
  { clear. induction lines as [|line lines IH]; simpl; [done|].
    destruct (contains "Data fetch completed successfully" line); simpl;
      [lia|].
    destruct (contains _ line); simpl; lia. }
  unfold Monitor.get_log_summary. rewrite count_runs_spec.
  set (s := 0 + Z.of_nat _). set (f := 0 + Z.of_nat _).
  assert (0 ≤ s ∧ 0 ≤ f ∧ s + f ≤ Z.of_nat (length lines)) as (Hs & Hf & Hsf)
    by (subst s f; lia).
  unfold Monitor.success_rate, Monitor.py_truediv.
  destruct (Z.ltb_spec 0 (s + f)) as [Hpos|Hzero].
  - assert ((s + f =? 0) = false) as -> by (apply Z.eqb_neq; lia).
    simpl. eexists _, s, f, _.
    split; [reflexivity|]. split; [done|]. split; [done|].
    split; [by simplify_map_eq|]. split; [by simplify_map_eq|].
    split; [by simplify_map_eq|]. split; [by simplify_map_eq|].
    split; [done|].
    split; [split; [intros E; by apply percent_not_na in E|lia]|].
    unfold Monitor.print_performance. by simplify_map_eq.
  - simpl. eexists _, s, f, _.
    split; [reflexivity|]. split; [done|]. split; [done|].
    split; [by simplify_map_eq|]. split; [by simplify_map_eq|].
    split; [by simplify_map_eq|]. split; [by simplify_map_eq|].
    split; [done|].
    split; [split; [intros _; lia|done]|].
    unfold Monitor.print_performance. by simplify_map_eq.
Qed.
